(** * soapy_power: the sweep pipeline of [soapypower/power.py]

    A shallow embedding of the [SoapyPower] class: the hop planner
    ([freq_plan]), the buffer sizer ([create_buffer]), the per-hop
    acquisition loop with its adaptive threshold and burst detector ([psd]),
    the measurement reducer ([measurements]) and the sweep controller
    ([sweep]).

    Numbers.  Python [int]s are [Z].  Python [float]s are rationals [Q], and
    equality of floats is [Qeq] ([==]).  The planner, the detector and the
    measurement reducer are modelled with the arithmetic the code writes
    down, without its rounding.  Where the result of the code turns on the
    rounding (the buffer sizes, which are ceilings of float quotients, and
    the conversions between bins, bin sizes, repeats and times) the
    operations round to binary64 with [float_round]. *)

From Stdlib Require Import ZArith QArith Qround Qabs Qpower List Sorted Bool Lia Lqa.
Import ListNotations.

Open Scope Q_scope.

(** ** Python numeric primitives *)

(** [round(x)] on a float: nearest integer, ties to the even one. *)
Definition py_round (x : Q) : Z :=
  let f := Qfloor x in
  match Qcompare (x - inject_Z f) (1 # 2) with
  | Lt => f
  | Gt => (f + 1)%Z
  | Eq => if Z.even f then f else (f + 1)%Z
  end.

(** [math.ceil(x)]. *)
Definition math_ceil (x : Q) : Z := Qceiling x.

(** [int(x)] on a float: truncation toward zero. *)
Definition py_int (x : Q) : Z := Z.quot (Qnum x) (Zpos (Qden x)).

(** ** Exceptions

    Code that can raise returns a [result]; [let?] sequences such code and
    stops at the first exception. *)
Inductive exn : Type :=
| ZeroDivisionError | ValueError | KeyError | IndexError
| UnboundLocalError | RuntimeError | OSError.

Inductive result (A : Type) : Type :=
| Ok (a : A)
| Raise (e : exn).
Arguments Ok {A} a.
Arguments Raise {A} e.

Definition bind {A B : Type} (m : result A) (k : A -> result B) : result B :=
  match m with
  | Ok a => k a
  | Raise e => Raise e
  end.

Declare Scope py_scope.
Notation "'let?' x ':=' m 'in' k" := (bind m (fun x => k))
  (at level 10, x name, m at level 100, k at level 200) : py_scope.
Open Scope py_scope.

(** [a / b], raising [ZeroDivisionError] when [b] is zero. *)
Definition py_div (a b : Q) : result Q :=
  if Qeq_bool b 0 then Raise ZeroDivisionError else Ok (a / b).

(** ** Binary64 arithmetic

    A Python [float] is an IEEE 754 binary64 number and every operation on
    floats returns the exact result rounded to the nearest such number, ties
    going to the even significand.  [float_round] is that rounding on the
    rationals: [Qlog2 x] is the exponent of [x] (the [e] with
    [2^e <= |x| < 2^(e+1)]), the unit in the last place is [2^(e - 52)] (that
    of the subnormal numbers below [2^-1022]), and [x] is rounded to a whole
    number of units.  Overflow (a result of [2^1024] or more) is not
    modelled: the properties bound their arguments away from it. *)
Definition Qlog2 (x : Q) : Z :=
  let a := Qabs x in
  if Qle_bool 1 a then Z.log2 (Qfloor a) else (- Z.log2_up (Qceiling (/ a)))%Z.

Definition float_round (x : Q) : Q :=
  let u := 2 ^ (Z.max (Qlog2 x) (-1022) - 52) in
  inject_Z (py_round (x / u)) * u.

(** Half a unit in the last place of 1: the relative error of a rounding. *)
Definition epsilon : Q := 2 ^ (-53).

(** [float(n)], the conversion of an [int] that an operation between an
    [int] and a [float] makes. *)
Definition float_of_int (n : Z) : Q := float_round (inject_Z n).

(** [a / b] on two floats. *)
Definition float_div (a b : Q) : result Q :=
  if Qeq_bool b 0 then Raise ZeroDivisionError else Ok (float_round (a / b)).

(** [a * b] on two floats. *)
Definition float_mul (a b : Q) : Q := float_round (a * b).

(** [a / b] on two [int]s: the exact quotient, rounded once. *)
Definition int_truediv (a b : Z) : result Q :=
  if (b =? 0)%Z then Raise ZeroDivisionError
  else Ok (float_round (inject_Z a / inject_Z b)).

(** [range(n)] as the list of its values. *)
Definition py_range (n : Z) : list Z := map Z.of_nat (seq 0 (Z.to_nat n)).

(** [a < b] on floats. *)
Definition Qltb (a b : Q) : bool := negb (Qle_bool b a).

(** [l[a:b]] for indices that are not negative. *)
Definition py_slice {A : Type} (l : list A) (a b : Z) : list A :=
  firstn (Z.to_nat (b - a)) (skipn (Z.to_nat a) l).

(** ** The object *)

(** The fields of [SoapyPower] (and of its [device]) that the pipeline reads. *)
Record SoapyPower : Type := mkSoapyPower {
  sample_rate : Q;          (* self.device.sample_rate *)
  threshold : Q;            (* self.threshold, dBm *)
  _buffer_repeats : Z;      (* self._buffer_repeats *)
  _buffer_len : Z;          (* len(self._buffer) *)
  _tune_delay : Q;          (* self._tune_delay *)
  _reset_stream : bool      (* self._reset_stream *)
}.

(** [self.scale = 2 ** 31]. *)
Definition scale : Z := 2 ^ 31.

(** ** Hop planner *)

Definition nearest_freq (freq bin_size : Q) : result Q :=
  let? q := py_div freq bin_size in
  Ok (inject_Z (py_round q) * bin_size).

Definition bins_to_bin_size (self : SoapyPower) (bins : Z) : result Q :=
  py_div (sample_rate self) (inject_Z bins).


(** [freq_plan], lines 110 to 121: the computation of the list.  The log
    lines that follow it (unless [quiet]) compute nothing that is returned
    and are left out. *)
Definition freq_plan (self : SoapyPower) (min_freq max_freq : Q) (bins : Z)
    (overlap : Q) : result (list Q) :=
  let? bin_size := bins_to_bin_size self bins in
  let sample_rate_crop := (1 - overlap) * sample_rate self in
  let freq_range := max_freq - min_freq in
  let hopping := Qle_bool sample_rate_crop freq_range in
  let? hop_size := nearest_freq sample_rate_crop bin_size in
  let? hops :=
    if hopping
    then (let? q := py_div freq_range hop_size in Ok (math_ceil q))
    else Ok 1%Z in
  let min_center_freq :=
    if hopping then min_freq + hop_size / 2 else min_freq + freq_range / 2 in
  Ok (map (fun i => min_center_freq + inject_Z i * hop_size) (py_range hops)).

(** ** Buffer sizer *)

(** The default cap: [(100 * 1024**2) / 8] samples. *)
Definition default_max_buffer_size : Z := 100 * 1024 ^ 2 / 8.

(** [math.ceil(n / base_buffer_size) * base_buffer_size], with the exact
    quotient. *)
Definition align_up (n base_buffer_size : Z) : result Z :=
  let? q := py_div (inject_Z n) (inject_Z base_buffer_size) in
  Ok (math_ceil q * base_buffer_size)%Z.

(** The value [max_buffer_size] has after the [if not max_buffer_size] test. *)
Definition effective_max (max_buffer_size : Z) : Z :=
  if (max_buffer_size =? 0)%Z then default_max_buffer_size else max_buffer_size.

(** [zeros(n, numpy.complex64)]: the buffer is represented by its length;
    numpy raises [ValueError] on a negative length.  Memory is taken to
    suffice for any other. *)
Definition zeros (n : Z) : result Z :=
  if (n <? 0)%Z then Raise ValueError else Ok n.

(** [create_buffer] returns [(buffer_repeats, zeros(buffer_size))].  The
    divisions made for the log lines are kept because they can raise.  Here
    the quotients are the exact ones; [create_buffer_float] below rounds
    them as the code does. *)
Definition create_buffer (self : SoapyPower) (bins repeats base_buffer_size
    max_buffer_size : Z) : result (Z * Z) :=
  let samples := (bins * repeats)%Z in
  let buffer_repeats := 1%Z in
  let? buffer_size := align_up samples base_buffer_size in
  let max_buffer_size := effective_max max_buffer_size in
  let? r :=
    if (0 <? max_buffer_size)%Z then
      let? max_buffer_size := align_up max_buffer_size base_buffer_size in
      if (max_buffer_size <? buffer_size)%Z then
        let? q := py_div (inject_Z buffer_size) (inject_Z max_buffer_size) in
        Ok (math_ceil q, max_buffer_size, max_buffer_size)
      else Ok (buffer_repeats, buffer_size, max_buffer_size)
    else Ok (buffer_repeats, buffer_size, max_buffer_size) in
  let '(buffer_repeats, buffer_size, max_buffer_size) := r in
  let? _ := py_div (inject_Z samples) (sample_rate self) in
  let? _ :=
    if (0 <? max_buffer_size)%Z then
      let? _ := py_div (inject_Z max_buffer_size) (inject_Z bins) in
      py_div (inject_Z max_buffer_size) (sample_rate self)
    else Ok 0 in
  let? _ := py_div (inject_Z buffer_size) (inject_Z bins) in
  let? _ := py_div (inject_Z buffer_size) (sample_rate self) in
  let? buffer := zeros buffer_size in
  Ok (buffer_repeats, buffer).

(** [math.ceil(n / base_buffer_size) * base_buffer_size] as it is computed:
    the quotient of the two [int]s is a float. *)
Definition align_up_float (n base_buffer_size : Z) : result Z :=
  let? q := int_truediv n base_buffer_size in
  Ok (math_ceil q * base_buffer_size)%Z.

(** The same for the default maximum, which is the float [13107200.0]. *)
Definition align_default_float (base_buffer_size : Z) : result Z :=
  let? q := float_div (inject_Z default_max_buffer_size)
                      (float_of_int base_buffer_size) in
  Ok (math_ceil q * base_buffer_size)%Z.

(** [create_buffer] with every quotient rounded to binary64, as Python
    computes it. *)
Definition create_buffer_float (self : SoapyPower) (bins repeats base_buffer_size
    max_buffer_size : Z) : result (Z * Z) :=
  let samples := (bins * repeats)%Z in
  let buffer_repeats := 1%Z in
  let? buffer_size := align_up_float samples base_buffer_size in
  let default := (max_buffer_size =? 0)%Z in
  let max_buffer_size := effective_max max_buffer_size in
  let? r :=
    if (0 <? max_buffer_size)%Z then
      let? max_buffer_size :=
        if default then align_default_float base_buffer_size
        else align_up_float max_buffer_size base_buffer_size in
      if (max_buffer_size <? buffer_size)%Z then
        let? q := int_truediv buffer_size max_buffer_size in
        Ok (math_ceil q, max_buffer_size, max_buffer_size)
      else Ok (buffer_repeats, buffer_size, max_buffer_size)
    else Ok (buffer_repeats, buffer_size, max_buffer_size) in
  let '(buffer_repeats, buffer_size, max_buffer_size) := r in
  let? _ := float_div (float_of_int samples) (sample_rate self) in
  let? _ :=
    if (0 <? max_buffer_size)%Z then
      let? _ := int_truediv max_buffer_size bins in
      float_div (float_of_int max_buffer_size) (sample_rate self)
    else Ok 0 in
  let? _ := int_truediv buffer_size bins in
  let? _ := float_div (float_of_int buffer_size) (sample_rate self) in
  let? buffer := zeros buffer_size in
  Ok (buffer_repeats, buffer).

(** Whether [create_buffer] takes the shrinking branch
    ([max_buffer_size > 0] and [buffer_size > max_buffer_size]). *)
Definition clamped (bins repeats base_buffer_size max_buffer_size : Z) : bool :=
  (0 <? effective_max max_buffer_size)%Z &&
  match align_up (bins * repeats) base_buffer_size,
        align_up (effective_max max_buffer_size) base_buffer_size with
  | Ok size, Ok m => (m <? size)%Z
  | _, _ => false
  end.

(** ** Samples and numpy primitives *)

(** One [numpy.complex64] sample. *)
Record complex : Type := mkC { re : Q; im : Q }.

(** [self._buffer.real + self._buffer.imag]. *)
Definition iq_of (buffer : list complex) : list Q :=
  map (fun c => re c + im c) buffer.

Definition Qsum (l : list Q) : Q := fold_right Qplus 0 l.

(** [numpy.mean(l)]; on an empty array numpy returns nan, which no caller
    below gets to use: [numpy.max] raises first. *)
Definition numpy_mean (l : list Q) : Q := Qsum l / inject_Z (Z.of_nat (length l)).

(** [numpy.max(l)], raising [ValueError] on an empty array. *)
Definition numpy_max (l : list Q) : result Q :=
  match l with
  | [] => Raise ValueError
  | x :: t => Ok (fold_left (fun m y => if Qltb m y then y else m) t x)
  end.

Fixpoint where_from (i : Z) (p : Q -> bool) (l : list Q) : list Z :=
  match l with
  | [] => []
  | x :: t => if p x then i :: where_from (i + 1) p t else where_from (i + 1) p t
  end.

(** [numpy.where(cond)[0]]: the indices where the condition holds, ascending. *)
Definition numpy_where (p : Q -> bool) (l : list Q) : list Z := where_from 0 p l.

Fixpoint argmax_from (i : Z) (best : Z) (m : Q) (l : list Q) : Z :=
  match l with
  | [] => best
  | x :: t => if Qltb m x then argmax_from (i + 1) i x t
              else argmax_from (i + 1) best m t
  end.

(** [numpy.argmax(l)]: the first index of the maximum; [ValueError] when empty. *)
Definition numpy_argmax (l : list Q) : result Z :=
  match l with
  | [] => Raise ValueError
  | x :: t => Ok (argmax_from 1 0 x t)
  end.

(** [l[i]] for [i >= 0]. *)
Definition py_index {A : Type} (l : list A) (i : Z) : result A :=
  match nth_error l (Z.to_nat i) with
  | Some x => Ok x
  | None => Raise IndexError
  end.

(** [l[-1]]. *)
Definition py_last {A : Type} (l : list A) : result A :=
  match rev l with
  | x :: _ => Ok x
  | [] => Raise IndexError
  end.

(** ** Burst detector (the body of the repeat loop of [psd]) *)

(** [minBurst = int(0.000005 * self.device.sample_rate)]. *)
Definition minBurst_of (self : SoapyPower) : Z :=
  py_int ((5 # 1000000) * sample_rate self).

(** [noise = abs(numpy.mean(iq[:100]))]. *)
Definition noise_of (iq : list Q) : Q := Qabs (numpy_mean (firstn 100 iq)).

(** The dynamic threshold: [if noise < absThreshold: absThreshold = noise * 100]. *)
Definition update_threshold (absThreshold noise : Q) : Q :=
  if Qltb noise absThreshold then noise * 100 else absThreshold.

(** The [for stop in burst] loop; the value is [stop] after the loop. *)
Fixpoint scan_stop (minBurst laststop : Z) (burst : list Z) : Z :=
  match burst with
  | [] => laststop
  | stop :: rest =>
      if (minBurst <? stop - laststop)%Z then laststop
      else scan_stop minBurst stop rest
  end.

Record Burst : Type := mkBurst {
  b_start : Z; b_stop : Z; b_safestart : Z; b_safestop : Z
}.

(** Lines 291-317: the burst of one acquisition, if any. *)
Definition detect (minBurst : Z) (absThreshold : Q) (iq : list Q)
    : result (option Burst) :=
  let? m := numpy_max iq in
  if Qltb absThreshold m then
    let burst := numpy_where (fun v => Qltb absThreshold (Qabs v)) iq in
    let? start := py_index burst 0 in
    let stop := scan_stop minBurst start burst in
    if (minBurst <? stop - start)%Z then
      let safestop := (Z.of_nat (length iq) - 1)%Z in
      let safestart := if (minBurst <? start)%Z then (start - minBurst)%Z else 0%Z in
      let safestop :=
        if (minBurst <? safestop - stop)%Z then (stop + minBurst)%Z else safestop in
      Ok (Some (mkBurst start stop safestart safestop))
    else Ok None
  else Ok None.

(** The keys that [psd] adds to the [signal] dictionary when it records a
    burst; they are always written together. *)
Record BurstKeys : Type := mkBurstKeys {
  sig_freq : Q; sig_td_array : list Q; sig_reportTime : Z; sig_rate : Q
}.

(** The [signal] dictionary. *)
Record Signal : Type := mkSignal {
  sig_start : Z; sig_stop : Z; sig_samples : Z; sig_duration : Q;
  sig_burst : option BurstKeys
}.

(** [{"start": -1, "stop": 0, "samples": 0, "duration": 0}]. *)
Definition signal0 : Signal := mkSignal (-1) 0 0 0 None.

(** What [psd] writes into [signal] for a burst (lines 319-326).  For a sample
    rate of zero numpy makes the duration infinite, which [Q] cannot hold;
    nothing below reads the duration in that case. *)
Definition signal_of (self : SoapyPower) (freq : Q) (iq : list Q)
    (acq_time_start : Z) (b : Burst) : Signal :=
  mkSignal (b_start b) (b_stop b) (b_stop b - b_start b)
    (inject_Z (b_stop b - b_start b) / sample_rate self)
    (Some (mkBurstKeys freq
             (map Qabs (py_slice iq (b_safestart b) (b_safestop b)))
             acq_time_start (sample_rate self))).

(** The state kept by the PSD engine for one hop: the centre frequency given
    to [set_center_freq] and the sample blocks handed to [update_async]. *)
Record PsdState : Type := mkPsdState {
  ps_freq : Q; ps_chunks : list (list complex)
}.

(** The locals of [psd] that the repeat loop changes. *)
Record HopState : Type := mkHopState {
  absThreshold : Q;
  signal : Signal;
  psd_state : PsdState;
  acq_times : option (Z * Z)   (* acq_time_start, acq_time_stop; unbound at first *)
}.

(** One pass of the repeat loop, lines 282-329, on a filled buffer. *)
Definition acquisition (self : SoapyPower) (freq : Q) (hs : HopState)
    (buffer : list complex) (acq_time_start acq_time_stop : Z) : result HopState :=
  let iq := iq_of buffer in
  let noise := noise_of iq in
  let absThreshold := update_threshold (absThreshold hs) noise in
  let? d := detect (minBurst_of self) absThreshold iq in
  match d with
  | Some b =>
      Ok (mkHopState absThreshold
            (signal_of self freq iq acq_time_start b)
            (mkPsdState (ps_freq (psd_state hs))
               (ps_chunks (psd_state hs) ++ [py_slice buffer (b_start b) (b_stop b)]))
            (Some (acq_time_start, acq_time_stop)))
  | None =>
      Ok (mkHopState absThreshold (signal hs) (psd_state hs)
            (Some (acq_time_start, acq_time_stop)))
  end.

(** ** Measurement reducer *)

(** The values substituted into the JSON record, before [%] formats them. *)
Record Measurement : Type := mkMeasurement {
  m_reportTime : Z;
  m_frequencyMHz : Q;
  m_bandwidthKHz : Q;
  m_psd : list Z;
  m_spanMHz : Q * Q;
  m_durationMs : Q;
  m_rssidBm : Q
}.

Definition key {A : Type} (o : option A) : result A :=
  match o with
  | Some a => Ok a
  | None => Raise KeyError
  end.

(** The [offset] local of [measurements] (lines 440-443). *)
Definition offset_of (resolution midpoint centreFreq : Q) : Q :=
  if Qle_bool centreFreq midpoint
  then (resolution * (midpoint - centreFreq)) * -1
  else resolution * (centreFreq - midpoint).

(** [measurements]; [pwr_array] is the power half of the PSD result.  The
    value is [None] where the method returns without a record. *)
Definition measurements (self : SoapyPower) (pwr_array : list Q) (samples : Z)
    (signal : Signal) : result (option Measurement) :=
  match numpy_argmax pwr_array with
  | Raise _ => Ok None
  | Ok peak =>
    match py_index pwr_array peak with
    | Raise _ => Ok None
    | Ok rssi =>
      if Qltb rssi (threshold self) then Ok None else
      let halfPower := rssi - 3 in
      let edges := numpy_where (fun v => Qltb halfPower v) pwr_array in
      let? leftEdge := py_index edges 0 in
      let? rightEdge := py_last edges in
      let? keys := key (sig_burst signal) in
      let len := inject_Z (Z.of_nat (length pwr_array)) in
      let? resolution := py_div (sig_rate keys) len in
      let leftFreq := sig_freq keys - sample_rate self / 2 in
      let rightFreq := sig_freq keys + sample_rate self / 2 in
      let bandwidth := resolution * inject_Z (rightEdge - leftEdge) in
      let midpoint := len / 2 in
      let centreFreq := inject_Z (leftEdge + rightEdge) / 2 in
      let offset := offset_of resolution midpoint centreFreq in
      let psd := map py_int pwr_array in
      let freq := sig_freq keys + offset in
      Ok (Some (mkMeasurement (sig_reportTime keys) (freq / 1000000)
                  (bandwidth / 1000) psd
                  (leftFreq / 1000000, rightFreq / 1000000)
                  (sig_duration signal * 1000) rssi))
    end
  end.

(** ** The sweep: state, events and the world outside the program *)

(** Where the global [_shutdown] flag is read. *)
Inductive site : Type :=
| AtWhile     (* line 356, the [while] test of [sweep] *)
| AtRepeat    (* line 333, after each acquisition repeat in [psd] *)
| AtHop.      (* line 371, after each hop in [sweep] *)

(** What the sweep does, in program order. *)
Inductive event : Type :=
| EvRun (run : Z)                 (* a run begins: [run += 1] *)
| EvHop (freq : Q)                (* [self.psd(freq)] is entered *)
| EvAcquire (k : nat)             (* [read_stream_into_buffer], k-th fill *)
| EvCheck (s : site) (b : bool)   (* [_shutdown] is read and has value [b] *)
| EvMeasure                       (* [self.measurements(...)], awaits the PSD future *)
| EvSend (m : Measurement)        (* [sock.sendto] returned *)
| EvSendFail (m : Measurement)    (* [sock.sendto] raised *)
| EvStop.                         (* [self.stop()] stopped the stream *)

(** The mutable state: the events so far, oldest first; the number of buffer
    fills; [self.count]; [self.device.freq]; [self.device.is_streaming]. *)
Record World : Type := mkWorld {
  trace : list event;
  acquisitions : nat;
  count : nat;
  device_freq : option Q;
  is_streaming : bool
}.

Definition world0 : World := mkWorld [] 0 0 None false.

(** Stateful code that can raise: the state survives the exception. *)
Definition M (A : Type) : Type := World -> result A * World.

Definition ret {A : Type} (a : A) : M A := fun w => (Ok a, w).

Definition raise {A : Type} (e : exn) : M A := fun w => (Raise e, w).

Definition bindM {A B : Type} (m : M A) (k : A -> M B) : M B :=
  fun w => match m w with
           | (Ok a, w') => k a w'
           | (Raise e, w') => (Raise e, w')
           end.

Definition lift {A : Type} (r : result A) : M A := fun w => (r, w).

Notation "x <- m ;; k" := (bindM m (fun x => k))
  (at level 61, m at next level, right associativity) : py_scope.
Notation "m ;;; k" := (bindM m (fun _ => k))
  (at level 61, right associativity) : py_scope.

Section Sweep.

(** The world outside the program.  None of it is code of [power.py]. *)

(** Python's float power [10 ** x]. *)
Variable pow10 : Q -> Q.
(** The samples that the k-th [read_stream_into_buffer] leaves in the buffer. *)
Variable read_stream_into_buffer : nat -> list complex.
(** [datetime.datetime.utcnow()], by the number of calls made before. *)
Variable utcnow : nat -> Z.
(** The power array of the future that [self._psd.result_async] returns
    (the PSD engine, [soapypower/psd.py]). *)
Variable psd_result : PsdState -> list Q.
(** Whether the [sock.sendto] made when [self.count] is [n] succeeds. *)
Variable sendto_ok : nat -> bool.
(** The signal handler sets [_shutdown] when this many events have happened,
    that is just before the event of this index; the flag is never cleared. *)
Variable shutdown_at : nat.
(** [time_limit and (time.time() - t_start) >= time_limit] at the end of a run. *)
Variable time_limit_exceeded : Z -> bool.
(** [len(base_buffer)] for the buffer [start_stream(buffer_size)] returns. *)
Variable start_stream : Z -> Z.

(** The value of [_shutdown] now. *)
Definition shutdown_set (w : World) : bool := (shutdown_at <=? length (trace w))%nat.

Definition emit (e : event) : M unit :=
  fun w => (Ok tt, mkWorld (trace w ++ [e]) (acquisitions w)
                     (count w) (device_freq w) (is_streaming w)).

(** Reading [_shutdown]. *)
Definition read_shutdown (s : site) : M bool :=
  fun w => let b := shutdown_set w in
           (Ok b, mkWorld (trace w ++ [EvCheck s b]) (acquisitions w)
                    (count w) (device_freq w) (is_streaming w)).

(** [self.device.read_stream_into_buffer(self._buffer)] between the two
    [utcnow()] calls: the buffer and the two times. *)
Definition read_buffer : M (list complex * Z * Z) :=
  fun w => let k := acquisitions w in
           (Ok (read_stream_into_buffer k, utcnow (2 * k), utcnow (2 * k + 1)),
            mkWorld (trace w ++ [EvAcquire k]) (S k)
              (count w) (device_freq w) (is_streaming w)).

(** [self.device.freq = freq] when it differs.  The samples read and thrown
    away during the tune delay are not buffer fills. *)
Definition tune (freq : Q) : M unit :=
  fun w => (Ok tt, mkWorld (trace w) (acquisitions w) (count w) (Some freq)
                     (is_streaming w)).

(** [absThreshold = (10 ** (self.threshold/10)) * self.scale]. *)
Definition initial_threshold (self : SoapyPower) : Q :=
  pow10 (threshold self / 10) * inject_Z scale.

(** The locals of [psd] when the repeat loop is entered. *)
Definition psd_init (self : SoapyPower) (freq : Q) : HopState :=
  mkHopState (initial_threshold self) signal0 (mkPsdState freq []) None.

(** [for repeat in range(self._buffer_repeats)], with [n] repeats left. *)
Fixpoint repeat_loop (self : SoapyPower) (freq : Q) (n : nat) (hs : HopState)
    : M HopState :=
  match n with
  | O => ret hs
  | S n' =>
      r <- read_buffer ;;
      let '(buffer, t0, t1) := r in
      hs' <- lift (acquisition self freq hs buffer t0 t1) ;;
      b <- read_shutdown AtRepeat ;;
      if b then ret hs' else repeat_loop self freq n' hs'
  end.

(** [psd]: the value is [(psd_future, acq_time_start, acq_time_stop, signal)],
    the future being represented by the PSD state it will be computed from. *)
Definition psd (self : SoapyPower) (freq : Q) : M (PsdState * Z * Z * Signal) :=
  fun w =>
    if negb (is_streaming w) then (Raise RuntimeError, w) else
    (emit (EvHop freq) ;;;
     tune freq ;;;
     hs <- repeat_loop self freq (Z.to_nat (_buffer_repeats self)) (psd_init self freq) ;;
     match acq_times hs with
     | None => raise UnboundLocalError      (* [t_final] is not bound *)
     | Some (t0, t1) => ret (psd_state hs, t0, t1, signal hs)
     end) w.

(** [self.sock.sendto(...)], then [print] and [self.count += 1]. *)
Definition sendto (m : Measurement) : M unit :=
  fun w =>
    if sendto_ok (count w) then
      (Ok tt, mkWorld (trace w ++ [EvSend m]) (acquisitions w)
                (S (count w)) (device_freq w) (is_streaming w))
    else
      (Raise OSError, mkWorld (trace w ++ [EvSendFail m])
                        (acquisitions w) (count w) (device_freq w) (is_streaming w)).

(** The body of [for freq in freq_list]; the value says whether the loop breaks. *)
Definition hop (self : SoapyPower) (freq : Q) : M bool :=
  r <- psd self freq ;;
  let '(psd_future, _, _, signal) := r in
  (if (-1 <? sig_start signal)%Z then
     emit EvMeasure ;;;
     json <- lift (measurements self (psd_result psd_future)
                     (_buffer_len self * _buffer_repeats self) signal) ;;
     match json with
     | Some m => sendto m
     | None => ret tt
     end
   else ret tt) ;;;
  read_shutdown AtHop.

Fixpoint hop_loop (self : SoapyPower) (freq_list : list Q) : M unit :=
  match freq_list with
  | [] => ret tt
  | freq :: rest =>
      b <- hop self freq ;;
      if b then ret tt else hop_loop self rest
  end.

(** [while not _shutdown and (runs == 0 or run < runs)].  The loop has no bound
    of its own when [runs] is 0: [fuel] bounds the number of runs, and the
    value is [None] when it does not suffice. *)
Fixpoint run_loop (fuel : nat) (self : SoapyPower) (freq_list : list Q)
    (runs run : Z) (w : World) : option (result unit * World) :=
  match fuel with
  | O => None
  | S fuel' =>
      match read_shutdown AtWhile w with
      | (Ok b, w1) =>
          if negb b && ((runs =? 0)%Z || (run <? runs)%Z) then
            let run := (run + 1)%Z in
            match (emit (EvRun run) ;;; hop_loop self freq_list) w1 with
            | (Ok _, w2) =>
                if time_limit_exceeded run then Some (Ok tt, w2)
                else run_loop fuel' self freq_list runs run w2
            | (Raise e, w2) => Some (Raise e, w2)
            end
          else Some (Ok tt, w1)
      | (Raise e, w1) => Some (Raise e, w1)
      end
  end.

(** [stop]. *)
Definition stop : M unit :=
  fun w =>
    if negb (is_streaming w) then (Ok tt, w) else
    (Ok tt, mkWorld (trace w ++ [EvStop]) (acquisitions w)
              (count w) (device_freq w) false).

(** [setup]: the stream is started and the buffer sized. *)
Definition setup (self : SoapyPower) (bins repeats base_buffer_size
    max_buffer_size : Z) (tune_delay : Q) (reset_stream : bool) : M SoapyPower :=
  fun w =>
    let w1 := mkWorld (trace w) (acquisitions w) (count w) (device_freq w) true in
    match create_buffer self bins repeats (start_stream base_buffer_size)
            max_buffer_size with
    | Ok (buffer_repeats, buffer_size) =>
        (Ok (mkSoapyPower (sample_rate self) (threshold self) buffer_repeats
               buffer_size tune_delay reset_stream), w1)
    | Raise e => (Raise e, w1)
    end.

(** [sweep].  An exception inside the [try] runs [stop] and goes on up; one
    raised by [freq_plan] finds [t_start] unbound in the [finally] block. *)
Definition sweep (fuel : nat) (self : SoapyPower) (min_freq max_freq : Q)
    (bins repeats runs : Z) (overlap lnb_lo tune_delay : Q) (reset_stream : bool)
    (base_buffer_size max_buffer_size : Z) (w : World)
    : option (result unit * World) :=
  match setup self bins repeats base_buffer_size max_buffer_size tune_delay
          reset_stream w with
  | (Raise e, w1) => Some (Raise e, w1)
  | (Ok self, w1) =>
      match freq_plan self (min_freq - lnb_lo) (max_freq - lnb_lo) bins overlap with
      | Raise e => Some (Raise UnboundLocalError, snd (stop w1))
      | Ok freq_list =>
          match run_loop fuel self freq_list runs 0 w1 with
          | None => None
          | Some (r, w2) => Some (r, snd (stop w2))
          end
      end
  end.

End Sweep.

(** ** Vocabulary of the properties *)

(** Sample [i] of [iq] is above the threshold: [abs(iq[i]) > absThreshold]. *)
Definition above (absThreshold : Q) (iq : list Q) (i : Z) : Prop :=
  (0 <= i)%Z /\
  exists x, nth_error iq (Z.to_nat i) = Some x /\ absThreshold < Qabs x.

(** [start] and [stop] delimit the first burst of [iq]: [start] is the
    smallest index above the threshold; [stop] is above the threshold; from
    [start] up to [stop] every index above the threshold is followed by
    another within [minBurst] samples; and the next one after [stop], if there
    is one, is more than [minBurst] samples away. *)
Definition first_burst (absThreshold : Q) (minBurst : Z) (iq : list Q)
    (start stop : Z) : Prop :=
  above absThreshold iq start /\
  (forall i, above absThreshold iq i -> (start <= i)%Z) /\
  above absThreshold iq stop /\
  (forall i, above absThreshold iq i -> (start <= i < stop)%Z ->
     exists j, above absThreshold iq j /\ (i < j <= i + minBurst)%Z /\ (j <= stop)%Z) /\
  (forall j, above absThreshold iq j -> (stop < j)%Z -> (stop + minBurst < j)%Z).

(** The repeat loop of [psd] without the world: the loop body folded over the
    buffers read, each with its two acquisition times. *)
Fixpoint fold_acq (self : SoapyPower) (freq : Q) (hs : HopState)
    (reads : list (list complex * Z * Z)) : result HopState :=
  match reads with
  | [] => Ok hs
  | (buffer, t0, t1) :: rest =>
      let? hs' := acquisition self freq hs buffer t0 t1 in
      fold_acq self freq hs' rest
  end.

(** What the detector finds in [buffer] when the repeat loop is in state [hs]. *)
Definition detected (self : SoapyPower) (hs : HopState) (buffer : list complex)
    : result (option Burst) :=
  detect (minBurst_of self)
    (update_threshold (absThreshold hs) (noise_of (iq_of buffer)))
    (iq_of buffer).

(** No repeat over [reads], started in state [hs], detects a burst. *)
Fixpoint no_burst_in (self : SoapyPower) (freq : Q) (hs : HopState)
    (reads : list (list complex * Z * Z)) : Prop :=
  match reads with
  | [] => True
  | (buffer, t0, t1) :: rest =>
      detected self hs buffer = Ok None /\
      forall hs', acquisition self freq hs buffer t0 t1 = Ok hs' ->
                  no_burst_in self freq hs' rest
  end.

(** The [m] buffer fills from the [k]-th on, with their times. *)
Definition reads_from (read_stream_into_buffer : nat -> list complex)
    (utcnow : nat -> Z) (k m : nat) : list (list complex * Z * Z) :=
  map (fun i => (read_stream_into_buffer i, utcnow (2 * i)%nat, utcnow (2 * i + 1)%nat))
      (seq k m).

(** The events of the repeat loop. *)
Definition repeat_event (e : event) : Prop :=
  match e with
  | EvAcquire _ | EvCheck AtRepeat _ => True
  | _ => False
  end.

(** The events of [psd]. *)
Definition psd_event (e : event) : Prop :=
  match e with
  | EvHop _ | EvAcquire _ | EvCheck AtRepeat _ => True
  | _ => False
  end.

(** Kinds of events that begin something. *)
Inductive kind : Type := KRun | KHop | KAcquire | KMeasure | KSend.

Definition has_kind (k : kind) (e : event) : bool :=
  match k, e with
  | KRun, EvRun _ => true
  | KHop, EvHop _ => true
  | KAcquire, EvAcquire _ => true
  | KMeasure, EvMeasure => true
  | KSend, EvSend _ => true
  | KSend, EvSendFail _ => true
  | _, _ => false
  end.

Definition count_kind (k : kind) (tr : list event) : nat :=
  length (filter (has_kind k) tr).

(** The events that happened once the flag was set. *)
Definition after_shutdown (shutdown_at : nat) (tr : list event) : list event :=
  skipn shutdown_at tr.

(** How many events of kind [k] began once the flag was set. *)
Definition late (shutdown_at : nat) (k : kind) (tr : list event) : nat :=
  count_kind k (after_shutdown shutdown_at tr).

(** A run, a hop or an acquisition repeat begins. *)
Definition is_start (e : event) : bool :=
  has_kind KRun e || has_kind KHop e || has_kind KAcquire e.

(** A read of the flag that found it set. *)
Definition observed (e : event) : bool :=
  match e with
  | EvCheck _ true => true
  | _ => false
  end.

Definition seen (tr : list event) : bool := existsb observed tr.

(** Nothing begins after a read of the flag that found it set. *)
Definition calm (tr : list event) : Prop :=
  forall pre s post, tr = pre ++ EvCheck s true :: post ->
                     Forall (fun e => is_start e = false) post.

(** The state right after a read of the flag: either the flag was found set,
    or it was not set when read and no event is late. *)
Definition settled (shutdown_at : nat) (tr : list event) : Prop :=
  (seen tr = true /\ (shutdown_at <= length tr)%nat) \/
  (seen tr = false /\ (length tr <= shutdown_at)%nat).

(** The sweep winds down once the flag is set: at most one event of each kind
    begins after that, and none of a run, a hop or an acquisition repeat after
    a read of the flag that found it set. *)
Definition winds_down (shutdown_at : nat) (tr : list event) : Prop :=
  (forall k, (late shutdown_at k tr <= 1)%nat) /\ calm tr.

(** A send failed. *)
Definition is_send_fail (e : event) : bool :=
  match e with
  | EvSendFail _ => true
  | _ => false
  end.

(** No send failed in [tr]. *)
Definition no_send_fail (tr : list event) : Prop := existsb is_send_fail tr = false.

(** ** Concrete worlds for the examples *)

Module Scenario.

(** [10 ** x], exact where [x] is an integer. *)
Definition pow10 (x : Q) : Q := Qpower 10 (Qfloor x).

(** 400 kHz sample rate ([minBurst = 2]), threshold -80 dBm. *)
Definition self : SoapyPower := mkSoapyPower 400000 (-80) 2 10 0 false.

Definition real (x : Q) : complex := mkC x 0.

(** Two buffers whose first hundred samples average to zero, with a burst at
    samples 1 to 5 and at samples 3 to 7. *)
Definition bufferA : list complex :=
  map real [0; 5; 5; 5; 5; -20; 0; 0; 0; 0].
Definition bufferB : list complex :=
  map real [0; 0; 0; 5; 5; 5; 5; -20; 0; 0].

Definition read_stream_into_buffer (k : nat) : list complex :=
  match k with
  | O => bufferA
  | _ => bufferB
  end.

Definition utcnow (n : nat) : Z := Z.of_nat n.

Definition psd_result (ps : PsdState) : list Q := [-90; -40; -38; -41; -90].

Definition start_stream (base_buffer_size : Z) : Z := 10.

Definition no_time_limit (run : Z) : bool := false.

(** The stream is running. *)
Definition streaming : World := mkWorld [] 0 0 None true.

(** A buffer of one sample of value 1, whatever the fill. *)
Definition steady_read (k : nat) : list complex := [real 1].

(** A sweep from 100 MHz to 100.8 MHz with 2 bins (two hops of 400 kHz) and
    5 repeats, in a world where sends succeed as [sendto_ok] says and the flag
    is set at [shutdown_at]. *)
Definition run_sweep (sendto_ok : nat -> bool) (shutdown_at : nat) (runs : Z)
    (fuel : nat) : option (result unit * World) :=
  sweep pow10 read_stream_into_buffer utcnow psd_result sendto_ok shutdown_at
    no_time_limit start_stream fuel self 100000000 100800000 2 5 runs 0 0 0
    false 0 0 world0.

End Scenario.

(** ** The remaining helpers of [SoapyPower] *)

(** [x % m] on floats, for a positive [m]. *)
Definition py_fmod (x m : Q) : Q := x - inject_Z (Qfloor (x / m)) * m.

(** [nearest_bins].  [bins] is an integer.  [math.log(bins, 2)] raises
    [ValueError] on a number that is not positive; on a positive one its
    value is that of the C library's logarithm, a float that is not
    determined by the language: [math_log2 bins] stands for it.  It is not
    negative for [bins >= 1], so that [2**math.ceil(bins_log2)] is an
    [int]. *)
Definition nearest_bins (math_log2 : Z -> Q) (bins : Z) (even pow2 : bool)
    : result Z :=
  if pow2 then
    if (bins <=? 0)%Z then Raise ValueError
    else
      let bins_log2 := math_log2 bins in
      if negb (Qeq_bool (py_fmod bins_log2 1) 0)
      then Ok (2 ^ math_ceil bins_log2)%Z
      else Ok bins
  else if even then
    if (bins mod 2 =? 0)%Z then Ok bins
    else Ok (math_ceil (inject_Z bins / 2) * 2)%Z
  else Ok bins.


(** [bin_size_to_bins], on a float [bin_size]: the ceiling of the rounded
    quotient. *)
Definition bin_size_to_bins (self : SoapyPower) (bin_size : Q) : result Z :=
  let? q := float_div (sample_rate self) bin_size in
  Ok (math_ceil q).

(** [time_to_repeats]: the product is rounded, then the quotient. *)
Definition time_to_repeats (self : SoapyPower) (bins : Z) (integration_time : Q)
    : result Z :=
  let? q := float_div (float_mul (sample_rate self) integration_time)
                      (float_of_int bins) in
  Ok (math_ceil q).

(** [repeats_to_time]: the product of the two [int]s is exact, the quotient
    is rounded. *)
Definition repeats_to_time (self : SoapyPower) (bins repeats : Z) : result Q :=
  float_div (float_of_int (repeats * bins)) (sample_rate self).

(** ** Vocabulary of the further properties *)

(** The frequencies of the hops of a trace, in order. *)
Definition hops_of (tr : list event) : list Q :=
  flat_map (fun e => match e with EvHop f => [f] | _ => [] end) tr.

(** The numbers of the runs of a trace, in order. *)
Definition runs_of (tr : list event) : list Z :=
  flat_map (fun e => match e with EvRun r => [r] | _ => [] end) tr.

(** A datagram went out. *)
Definition is_sent (e : event) : bool :=
  match e with
  | EvSend _ => true
  | _ => false
  end.

Definition count_sent (tr : list event) : nat := length (filter is_sent tr).

(** [sig] records a burst found in one of [reads] at hop [freq]. *)
Definition burst_signal (self : SoapyPower) (freq : Q)
    (reads : list (list complex * Z * Z)) (sig : Signal) : Prop :=
  exists keys buffer t0 t1,
    sig_burst sig = Some keys /\ In (buffer, t0, t1) reads /\
    sig_reportTime keys = t0 /\ sig_freq keys = freq /\
    sig_rate keys = sample_rate self /\
    (0 <= sig_start sig < sig_stop sig)%Z /\
    (sig_stop sig < Z.of_nat (length buffer))%Z /\
    sig_samples sig = (sig_stop sig - sig_start sig)%Z /\
    (minBurst_of self < sig_samples sig)%Z.

(** The events [es] took the world from [w] to [w']: the two counters moved
    by the number of buffer fills and of datagrams sent, no datagram went
    without a measurement, no measurement without a hop, and no hop filled
    the buffer more than [buffer_repeats] times. *)
Definition accounts (buffer_repeats : Z) (w w' : World) (es : list event) : Prop :=
  trace w' = trace w ++ es /\
  acquisitions w' = (acquisitions w + count_kind KAcquire es)%nat /\
  count w' = (count w + count_sent es)%nat /\
  (count_kind KSend es <= count_kind KMeasure es)%nat /\
  (count_kind KMeasure es <= count_kind KHop es)%nat /\
  (count_kind KAcquire es <= count_kind KHop es * Z.to_nat buffer_repeats)%nat.

(** * Properties *)

Example create_buffer_S4a :
  create_buffer (mkSoapyPower 2000000 (-85) 1 0 0 false) 8192 10 16384 131072
  = Ok (1, 81920)%Z.
Proof. vm_compute. reflexivity. Qed.

Example create_buffer_S4b :
  create_buffer (mkSoapyPower 2000000 (-85) 1 0 0 false) 8192 10 16384 65536
  = Ok (2, 65536)%Z.
Proof. vm_compute. reflexivity. Qed.

(** ** Arithmetic of the primitives *)

(** [lra] does not read a division: divisions by the constants of the code
    are turned into multiplications. *)
Ltac div_consts :=
  unfold Qdiv in *;
  change (/ 2) with (1 # 2) in *;
  change (/ 1000) with (1 # 1000) in *;
  change (/ 1000000) with (1 # 1000000) in *;
  change (/ (2 * 1000000)) with (1 # 2000000) in *.

Lemma Qeq_bool_inject_Z_0 (b : Z) : b <> 0%Z -> Qeq_bool (inject_Z b) 0 = false.
Proof.
  intros Hb. destruct (Qeq_bool (inject_Z b) 0) eqn:E; [|reflexivity].
  apply Qeq_bool_iff in E. unfold Qeq in E. simpl in E. lia.
Qed.

Lemma py_div_nonzero (a b : Q) : ~ b == 0 -> py_div a b = Ok (a / b).
Proof.
  intros Hb. unfold py_div. destruct (Qeq_bool b 0) eqn:E; [|reflexivity].
  apply Qeq_bool_iff in E. contradiction.
Qed.

Lemma py_div_Z (a : Q) (b : Z) : b <> 0%Z -> py_div a (inject_Z b) = Ok (a / inject_Z b).
Proof. intros Hb. unfold py_div. rewrite Qeq_bool_inject_Z_0; auto. Qed.

(** [math.ceil(a / b)] on integers is the ceiling of the exact quotient. *)
Lemma ceil_div_bounds (a b : Z) :
  (0 < b)%Z ->
  (a <= math_ceil (inject_Z a / inject_Z b) * b < a + b)%Z.
Proof.
  intros Hb. unfold math_ceil.
  set (x := inject_Z a / inject_Z b).
  assert (Hbq : 0 < inject_Z b).
  { change 0 with (inject_Z 0). rewrite <- Zlt_Qlt. exact Hb. }
  assert (Hx : x * inject_Z b == inject_Z a).
  { unfold x. field. intro H. rewrite H in Hbq. apply (Qlt_irrefl 0 Hbq). }
  pose proof (Qle_ceiling x) as Hle.
  pose proof (Qceiling_lt x) as Hlt.
  split.
  - rewrite Zle_Qle, inject_Z_mult, <- Hx.
    apply Qmult_le_compat_r; [exact Hle | apply Qlt_le_weak; exact Hbq].
  - rewrite Zlt_Qlt, inject_Z_mult, inject_Z_plus, <- Hx.
    assert (H1 : inject_Z (Qceiling x - 1) * inject_Z b < x * inject_Z b).
    { apply Qmult_lt_compat_r; assumption. }
    unfold Z.sub in H1. rewrite inject_Z_plus in H1.
    change (inject_Z (-1)) with (-(1)) in H1.
    setoid_replace ((inject_Z (Qceiling x) + - (1)) * inject_Z b)
      with (inject_Z (Qceiling x) * inject_Z b - inject_Z b) in H1 by ring.
    lra.
Qed.

Lemma align_up_ok (n base : Z) :
  (0 < base)%Z ->
  align_up n base = Ok (math_ceil (inject_Z n / inject_Z base) * base)%Z.
Proof. intros Hb. unfold align_up. rewrite py_div_Z by lia. reflexivity. Qed.

Lemma align_up_bounds (n base r : Z) :
  (0 < base)%Z -> align_up n base = Ok r ->
  (n <= r < n + base)%Z /\ exists k, r = (k * base)%Z.
Proof.
  intros Hb H. rewrite align_up_ok in H by assumption. injection H as <-.
  split; [apply ceil_div_bounds; assumption | eexists; reflexivity].
Qed.

(** [round] is within a half of its argument. *)
Lemma py_round_bounds (x : Q) :
  x - (1 # 2) <= inject_Z (py_round x) <= x + (1 # 2).
Proof.
  unfold py_round.
  pose proof (Qfloor_le x) as Hlo. pose proof (Qlt_floor x) as Hhi.
  rewrite inject_Z_plus in Hhi. change (inject_Z 1) with 1 in Hhi.
  destruct (Qcompare (x - inject_Z (Qfloor x)) (1 # 2)) eqn:E.
  - apply Qeq_alt in E.
    destruct (Z.even (Qfloor x)).
    + lra.
    + rewrite inject_Z_plus. change (inject_Z 1) with 1. lra.
  - apply Qlt_alt in E. lra.
  - apply Qgt_alt in E. rewrite inject_Z_plus. change (inject_Z 1) with 1. lra.
Qed.

Lemma py_round_comp (x y : Q) : x == y -> py_round x = py_round y.
Proof.
  intros H. unfold py_round. rewrite (Qfloor_comp _ _ H).
  assert (Hc : Qcompare (x - inject_Z (Qfloor y)) (1 # 2)
               = Qcompare (y - inject_Z (Qfloor y)) (1 # 2)).
  { apply Qcompare_comp; [rewrite H; reflexivity | reflexivity]. }
  rewrite Hc. reflexivity.
Qed.

Lemma py_round_inject_Z (n : Z) : py_round (inject_Z n) = n.
Proof.
  unfold py_round. rewrite Qfloor_Z.
  assert (H : Qcompare (inject_Z n - inject_Z n) (1 # 2) = Lt).
  { apply Qlt_alt. setoid_replace (inject_Z n - inject_Z n) with 0 by ring.
    reflexivity. }
  rewrite H. reflexivity.
Qed.

Lemma Qceiling_inject_Z (z : Z) : Qceiling (inject_Z z) = z.
Proof.
  unfold Qceiling. rewrite <- inject_Z_opp, Qfloor_Z. lia.
Qed.

Lemma Qceiling_comp_eq (x : Q) (z : Z) : x == inject_Z z -> Qceiling x = z.
Proof. intros H. rewrite H. apply Qceiling_inject_Z. Qed.

(** ** Binary64 rounding *)

Lemma Qabs_pos_lt (x : Q) : ~ x == 0 -> 0 < Qabs x.
Proof.
  intros Hx. destruct (Qlt_le_dec 0 x) as [H|H].
  - rewrite Qabs_pos by lra. exact H.
  - rewrite Qabs_neg by exact H.
    destruct (Qlt_le_dec x 0) as [H1|H1]; [lra|].
    exfalso. apply Hx. lra.
Qed.

Lemma pow2_pos (k : Z) : 0 < 2 ^ k.
Proof. apply Qpower_0_lt. reflexivity. Qed.

Lemma pow2_inject (k : Z) : (0 <= k)%Z -> 2 ^ k == inject_Z (2 ^ k).
Proof. intros Hk. rewrite Zpower_Qpower by exact Hk. reflexivity. Qed.

Lemma pow2_plus (a b : Z) : 2 ^ (a + b) == 2 ^ a * 2 ^ b.
Proof. apply Qpower_plus. intro H. discriminate H. Qed.

Lemma pow2_le (a b : Z) : (a <= b)%Z -> 2 ^ a <= 2 ^ b.
Proof.
  intros H. replace b with (a + (b - a))%Z by lia. rewrite pow2_plus.
  rewrite <- (Qmult_1_r (2 ^ a)) at 1.
  rewrite !(Qmult_comm (2 ^ a)).
  apply Qmult_le_compat_r; [|apply Qlt_le_weak, pow2_pos].
  apply Qpower_1_le; [discriminate | lia].
Qed.

(** [2 ^ Qlog2 x <= |x|] *)
Lemma Qlog2_le (x : Q) : ~ x == 0 -> 2 ^ Qlog2 x <= Qabs x.
Proof.
  intros Hx. unfold Qlog2. cbv zeta.
  assert (Ha : 0 < Qabs x) by (apply Qabs_pos_lt; exact Hx).
  set (a := Qabs x) in *.
  destruct (Qle_bool 1 a) eqn:E.
  - apply Qle_bool_iff in E.
    assert (Hf : (1 <= Qfloor a)%Z).
    { rewrite <- (Qfloor_Z 1). apply Qfloor_resp_le. exact E. }
    pose proof (Z.log2_spec (Qfloor a) ltac:(lia)) as [Hl _].
    rewrite pow2_inject by apply Z.log2_nonneg.
    apply Qle_trans with (inject_Z (Qfloor a)); [|apply Qfloor_le].
    rewrite <- Zle_Qle. exact Hl.
  - assert (E' : a < 1).
    { destruct (Qlt_le_dec a 1) as [H|H]; [exact H|].
      apply Qle_bool_iff in H. congruence. }
    assert (Hy : 1 < / a).
    { apply Qlt_shift_inv_l; [exact Ha | lra]. }
    assert (Hc : (1 < Qceiling (/ a))%Z).
    { pose proof (Qle_ceiling (/ a)) as H.
      assert (inject_Z 1 < inject_Z (Qceiling (/ a))) by (change (inject_Z 1) with 1; lra).
      rewrite <- Zlt_Qlt in H0. exact H0. }
    pose proof (Z.log2_up_spec _ Hc) as [_ Hu].
    set (k := Z.log2_up (Qceiling (/ a))) in *.
    assert (Hk : (0 <= k)%Z) by apply Z.log2_up_nonneg.
    rewrite Qpower_opp, pow2_inject by exact Hk.
    assert (Hyk : / a <= inject_Z (2 ^ k)).
    { apply Qle_trans with (inject_Z (Qceiling (/ a))); [apply Qle_ceiling|].
      rewrite <- Zle_Qle. exact Hu. }
    assert (Hp : 0 < inject_Z (2 ^ k)) by lra.
    apply Qle_shift_inv_r; [exact Hp|].
    assert (H1 : / a * a == 1) by (field; lra).
    rewrite <- H1. rewrite (Qmult_comm a).
    apply Qmult_le_compat_r; [exact Hyk | lra].
Qed.

(** The rounding error is at most half a unit in the last place, which for
    a number that is not subnormal is at most [|x| * 2^-53]. *)
Lemma float_round_error (x : Q) :
  2 ^ (-1022) <= Qabs x -> Qabs (float_round x - x) <= Qabs x * epsilon.
Proof.
  intros Hn.
  assert (Hx : ~ x == 0).
  { intro H. rewrite H in Hn. pose proof (pow2_pos (-1022)). cbn [Qabs Z.abs] in Hn.
    change (Qabs 0) with 0 in Hn. lra. }
  unfold float_round. cbv zeta.
  set (e := Z.max (Qlog2 x) (-1022)).
  assert (He : 2 ^ e <= Qabs x).
  { unfold e. destruct (Z.max_spec (Qlog2 x) (-1022)) as [[_ ->]|[_ ->]];
      [exact Hn | apply Qlog2_le; exact Hx]. }
  set (u := 2 ^ (e - 52)).
  assert (Hu : 0 < u) by apply pow2_pos.
  assert (Hue : u * (1 # 2) == 2 ^ e * epsilon).
  { unfold u, epsilon. replace (e - 52)%Z with (e + -52)%Z by lia.
    rewrite pow2_plus. change (2 ^ (-52)) with (/ 4503599627370496).
    change (2 ^ (-53)) with (/ 9007199254740992). field. }
  setoid_replace (inject_Z (py_round (x / u)) * u - x)
    with ((inject_Z (py_round (x / u)) - x / u) * u) by (field; lra).
  rewrite Qabs_Qmult, (Qabs_pos u) by lra.
  apply Qle_trans with ((1 # 2) * u).
  - apply Qmult_le_compat_r; [|lra].
    apply Qabs_Qle_condition. pose proof (py_round_bounds (x / u)). lra.
  - rewrite (Qmult_comm (1 # 2)), Hue.
    apply Qmult_le_compat_r; [exact He | discriminate].
Qed.

Lemma Qlog2_comp (x y : Q) : x == y -> Qlog2 x = Qlog2 y.
Proof.
  intros H. unfold Qlog2. cbv zeta.
  assert (Ha : Qabs x == Qabs y) by (rewrite H; reflexivity).
  assert (Hb : Qle_bool 1 (Qabs x) = Qle_bool 1 (Qabs y)).
  { destruct (Qle_bool 1 (Qabs x)) eqn:E1, (Qle_bool 1 (Qabs y)) eqn:E2;
      try reflexivity.
    - apply Qle_bool_iff in E1. rewrite Ha in E1. apply Qle_bool_iff in E1. congruence.
    - apply Qle_bool_iff in E2. rewrite <- Ha in E2. apply Qle_bool_iff in E2. congruence. }
  rewrite Hb. rewrite (Qfloor_comp _ _ Ha).
  assert (Hi : / Qabs x == / Qabs y) by (rewrite Ha; reflexivity).
  rewrite (Qceiling_comp _ _ Hi). reflexivity.
Qed.

Lemma float_round_comp (x y : Q) : x == y -> float_round x == float_round y.
Proof.
  intros H. unfold float_round. cbv zeta. rewrite (Qlog2_comp _ _ H).
  set (u := 2 ^ (Z.max (Qlog2 y) (-1022) - 52)).
  assert (Hq : x / u == y / u) by (rewrite H; reflexivity).
  rewrite (py_round_comp _ _ Hq). reflexivity.
Qed.

(** An integer below [2^53] in absolute value is a binary64 number. *)
Lemma float_round_Z (m : Z) :
  (Z.abs m <= 2 ^ 53)%Z -> float_round (inject_Z m) == inject_Z m.
Proof.
  intros Hm. destruct (Z.eq_dec m 0) as [->|H0]; [reflexivity|].
  unfold float_round. cbv zeta.
  assert (Hl : Qlog2 (inject_Z m) = Z.log2 (Z.abs m)).
  { unfold Qlog2. cbv zeta. change (Qabs (inject_Z m)) with (inject_Z (Z.abs m)).
    replace (Qle_bool 1 (inject_Z (Z.abs m))) with true.
    - rewrite Qfloor_Z. reflexivity.
    - symmetry. apply Qle_bool_iff. change 1 with (inject_Z 1).
      rewrite <- Zle_Qle. lia. }
  rewrite Hl.
  set (e := Z.log2 (Z.abs m)).
  assert (He0 : (0 <= e)%Z) by apply Z.log2_nonneg.
  assert (He : (e <= 53)%Z).
  { unfold e. change 53%Z with (Z.log2 (2 ^ 53)). apply Z.log2_le_mono. exact Hm. }
  replace (Z.max e (-1022)) with e by lia.
  destruct (Z.eq_dec e 53) as [E53|E53].
  - (* |m| = 2^53 *)
    assert (Habs : Z.abs m = (2 ^ 53)%Z).
    { pose proof (Z.log2_spec (Z.abs m) ltac:(lia)) as [Hlo _]. fold e in Hlo.
      rewrite E53 in Hlo. lia. }
    rewrite E53. change (2 ^ (53 - 52)) with 2.
    assert (Hm2 : m = (2 * (m / 2))%Z).
    { assert (m = 2 ^ 53 \/ m = - 2 ^ 53)%Z as [-> | ->] by lia; reflexivity. }
    assert (Hq : inject_Z m / 2 == inject_Z (m / 2)).
    { rewrite Hm2 at 1. rewrite inject_Z_mult. change (inject_Z 2) with 2. field. }
    rewrite (py_round_comp _ _ Hq), py_round_inject_Z.
    rewrite Hm2 at 2. rewrite inject_Z_mult. change (inject_Z 2) with 2. ring.
  - assert (Hq : inject_Z m / 2 ^ (e - 52) == inject_Z (m * 2 ^ (52 - e))).
    { rewrite inject_Z_mult, <- pow2_inject by lia.
      replace (e - 52)%Z with (- (52 - e))%Z by lia. rewrite Qpower_opp.
      field. pose proof (pow2_pos (52 - e)). lra. }
    rewrite (py_round_comp _ _ Hq), py_round_inject_Z.
    rewrite inject_Z_mult, <- pow2_inject by lia.
    rewrite <- Qmult_assoc, <- pow2_plus.
    replace (52 - e + (e - 52))%Z with 0%Z by lia. change (2 ^ 0) with 1. ring.
Qed.

Lemma epsilon_val : epsilon == 1 # 9007199254740992.
Proof. reflexivity. Qed.

(** A positive number keeps its sign and its size up to [2^-53]. *)
Lemma float_round_pos (x : Q) :
  2 ^ (-1022) <= x ->
  x * (1 - epsilon) <= float_round x <= x * (1 + epsilon).
Proof.
  intros Hn. assert (Hx : 0 < x) by (pose proof (pow2_pos (-1022)); lra).
  pose proof (float_round_error x) as H. rewrite (Qabs_pos x) in H by lra.
  specialize (H Hn). apply Qabs_Qle_condition in H. destruct H as [H1 H2].
  split; lra.
Qed.

Lemma Qceiling_eq (y : Q) (c : Z) :
  inject_Z (c - 1) < y -> y <= inject_Z c -> Qceiling y = c.
Proof.
  intros H1 H2.
  pose proof (Qle_ceiling y) as Hle. pose proof (Qceiling_lt y) as Hlt.
  assert (A : inject_Z (c - 1) < inject_Z (Qceiling y)) by lra.
  assert (B : inject_Z (Qceiling y - 1) < inject_Z c) by lra.
  rewrite <- Zlt_Qlt in A, B. lia.
Qed.

(** [math.ceil(n / b)] on two integers, the first below [2^53] in absolute
    value: the rounding of the quotient to binary64 does not change the
    ceiling. *)
Lemma ceil_float_div (n b : Z) :
  (0 < b <= 2 ^ 1000)%Z -> (Z.abs n < 2 ^ 53)%Z ->
  math_ceil (float_round (inject_Z n / inject_Z b))
    = math_ceil (inject_Z n / inject_Z b).
Proof.
  intros Hb Hn. unfold math_ceil.
  set (q := inject_Z n / inject_Z b).
  assert (Hbq : 0 < inject_Z b).
  { change 0 with (inject_Z 0). rewrite <- Zlt_Qlt. lia. }
  assert (Hqb : q * inject_Z b == inject_Z n) by (unfold q; field; lra).
  set (c := Qceiling q).
  pose proof (Qle_ceiling q) as Hle. pose proof (Qceiling_lt q) as Hlt.
  fold c in Hle, Hlt. clearbody c.
  destruct (Z.eq_dec n (c * b)) as [Hint|Hfrac].
  - (* the quotient is the integer c *)
    assert (Hq : q == inject_Z c).
    { unfold q. rewrite Hint, inject_Z_mult. field. lra. }
    assert (Hc : (Z.abs c <= 2 ^ 53)%Z).
    { assert (H1 : (Z.abs n = Z.abs c * b)%Z) by (rewrite Hint, Z.abs_mul; lia).
      assert (H2 : (Z.abs c * 1 <= Z.abs c * b)%Z)
        by (apply Z.mul_le_mono_nonneg_l; lia).
      lia. }
    rewrite (Qceiling_comp _ _ (float_round_comp _ _ Hq)).
    rewrite (Qceiling_comp _ _ (float_round_Z c Hc)). apply Qceiling_Z.
  - (* the quotient is at least 1/b away from the integers around it *)
    assert (Hlo : (((c - 1) * b + 1 <= n)%Z /\ (n + 1 <= c * b)%Z)).
    { assert (A : inject_Z ((c - 1) * b) < inject_Z n).
      { rewrite inject_Z_mult, <- Hqb. apply Qmult_lt_compat_r; assumption. }
      assert (B : inject_Z n <= inject_Z (c * b)).
      { rewrite inject_Z_mult, <- Hqb. apply Qmult_le_compat_r; [assumption | lra]. }
      rewrite <- Zlt_Qlt in A. rewrite <- Zle_Qle in B. lia. }
    destruct Hlo as [Hlo Hhi].
    assert (Hn0 : n <> 0%Z).
    { intros ->. destruct (Z.le_gt_cases c 0) as [Hc|Hc].
      - pose proof (Z.mul_nonpos_nonneg c b Hc ltac:(lia)). lia.
      - pose proof (Z.mul_nonneg_nonneg (c - 1) b ltac:(lia) ltac:(lia)). lia. }
    assert (Habs : Qabs q * inject_Z b == inject_Z (Z.abs n)).
    { unfold q. change (inject_Z (Z.abs n)) with (Qabs (inject_Z n)).
      rewrite <- (Qabs_pos (inject_Z b)) at 2 by lra.
      rewrite <- Qabs_Qmult. apply Qabs_wd. field. lra. }
    assert (Hnorm : 2 ^ (-1022) <= Qabs q).
    { assert (H1 : 1 <= Qabs q * inject_Z b).
      { rewrite Habs. change 1 with (inject_Z 1). rewrite <- Zle_Qle. lia. }
      assert (H2 : inject_Z b <= 2 ^ 1000).
      { rewrite pow2_inject by lia. rewrite <- Zle_Qle. lia. }
      assert (H3 : 2 ^ (-1022) * 2 ^ 1000 <= 1).
      { apply Qle_bool_iff. vm_compute. reflexivity. }
      pose proof (Qabs_nonneg q) as Hq0.
      pose proof (pow2_pos (-1022)) as P1. pose proof (pow2_pos 1000) as P2.
      destruct (Qlt_le_dec (Qabs q) (2 ^ (-1022))) as [Hc|Hc]; [exfalso | exact Hc].
      assert (Qabs q * inject_Z b < 2 ^ (-1022) * 2 ^ 1000); [|lra].
      apply Qle_lt_trans with (Qabs q * 2 ^ 1000).
      - rewrite !(Qmult_comm (Qabs q)). apply Qmult_le_compat_r; assumption.
      - apply Qmult_lt_compat_r; assumption. }
    pose proof (float_round_error q Hnorm) as Herr.
    assert (Hsmall : Qabs q * epsilon * inject_Z b < 1).
    { setoid_replace (Qabs q * epsilon * inject_Z b)
        with (Qabs q * inject_Z b * epsilon) by ring.
      rewrite Habs, epsilon_val.
      assert (inject_Z (Z.abs n) < inject_Z (2 ^ 53)) by (rewrite <- Zlt_Qlt; exact Hn).
      change (inject_Z (2 ^ 53)) with 9007199254740992 in H. lra. }
    apply Qabs_Qle_condition in Herr. destruct Herr as [E1 E2].
    set (r := float_round q) in *.
    set (d := Qabs q * epsilon) in *.
    assert (Hd : d * inject_Z b < 1) by exact Hsmall.
    assert (A1 : inject_Z ((c - 1) * b) + 1 <= q * inject_Z b).
    { rewrite Hqb. change 1 with (inject_Z 1). rewrite <- inject_Z_plus, <- Zle_Qle. lia. }
    assert (A2 : q * inject_Z b + 1 <= inject_Z (c * b)).
    { rewrite Hqb. change 1 with (inject_Z 1). rewrite <- inject_Z_plus, <- Zle_Qle. lia. }
    rewrite inject_Z_mult in A1, A2.
    assert (R1 : (q - d) * inject_Z b <= r * inject_Z b).
    { apply Qmult_le_compat_r; lra. }
    assert (R2 : r * inject_Z b <= (q + d) * inject_Z b).
    { apply Qmult_le_compat_r; lra. }
    apply Qceiling_eq.
    + destruct (Qlt_le_dec (inject_Z (c - 1)) r) as [H|H]; [exact H | exfalso].
      assert (r * inject_Z b <= inject_Z (c - 1) * inject_Z b)
        by (apply Qmult_le_compat_r; lra).
      lra.
    + destruct (Qlt_le_dec (inject_Z c) r) as [H|H]; [exfalso | exact H].
      assert (inject_Z c * inject_Z b < r * inject_Z b)
        by (apply Qmult_lt_compat_r; lra).
      lra.
Qed.

Example float_round_examples :
  float_round (2000000 / 29) == 1184818564413793 # 17179869184 /\
  float_round (2000000 / (1184818564413793 # 17179869184))
    == 8162774324609025 # 281474976710656 /\
  float_round (inject_Z (2 ^ 53 + 1)) == inject_Z (2 ^ 53) /\
  float_round (inject_Z (2 ^ 53 + 3)) == inject_Z (2 ^ 53 + 4) /\
  float_round (1 # 10) == 3602879701896397 # 36028797018963968.
Proof. repeat split; vm_compute; reflexivity. Qed.

(** The rounding error is at most half a unit in the last place. *)
Lemma float_round_half_ulp (x : Q) :
  Qabs (float_round x - x) <= (1 # 2) * 2 ^ (Z.max (Qlog2 x) (-1022) - 52).
Proof.
  unfold float_round. cbv zeta.
  set (u := 2 ^ (Z.max (Qlog2 x) (-1022) - 52)).
  assert (Hu : 0 < u) by apply pow2_pos.
  setoid_replace (inject_Z (py_round (x / u)) * u - x)
    with ((inject_Z (py_round (x / u)) - x / u) * u) by (field; lra).
  rewrite Qabs_Qmult, (Qabs_pos u) by lra.
  apply Qmult_le_compat_r; [|lra].
  apply Qabs_Qle_condition. pose proof (py_round_bounds (x / u)). lra.
Qed.

(** The exponent of a number below [2^k]. *)
Lemma Qlog2_lt (x : Q) (k : Z) : (0 < k)%Z -> Qabs x < 2 ^ k -> (Qlog2 x < k)%Z.
Proof.
  intros Hk Hx. destruct (Qeq_dec x 0) as [H0|H0].
  - rewrite (Qlog2_comp _ _ H0). exact Hk.
  - pose proof (Qlog2_le x H0) as Hl.
    destruct (Z.lt_ge_cases (Qlog2 x) k) as [H|H]; [exact H | exfalso].
    pose proof (pow2_le _ _ H). lra.
Qed.

(** The half-power level [rssi - 3], rounded, is below the peak. *)
Lemma half_power_below_peak (rssi : Q) :
  Qabs rssi <= inject_Z (2 ^ 53) -> float_round (rssi - 3) < rssi.
Proof.
  intros Hr. change (inject_Z (2 ^ 53)) with 9007199254740992 in Hr.
  apply Qabs_Qle_condition in Hr. destruct Hr as [Hr1 Hr2].
  set (x := rssi - 3).
  assert (Hx : Qabs x < 2 ^ 54).
  { change (2 ^ 54) with 18014398509481984.
    apply Qabs_case; intros _; unfold x; lra. }
  pose proof (Qlog2_lt x 54 ltac:(lia) Hx) as He.
  pose proof (float_round_half_ulp x) as Herr.
  assert (Hu : 2 ^ (Z.max (Qlog2 x) (-1022) - 52) <= 2 ^ 1) by (apply pow2_le; lia).
  change (2 ^ 1) with 2 in Hu.
  apply Qabs_Qle_condition in Herr. destruct Herr as [_ Herr].
  unfold x in *. lra.
Qed.

Lemma float_div_nonzero (a b : Q) : ~ b == 0 -> float_div a b = Ok (float_round (a / b)).
Proof.
  intros Hb. unfold float_div. destruct (Qeq_bool b 0) eqn:E; [|reflexivity].
  apply Qeq_bool_iff in E. contradiction.
Qed.

(** A value that three roundings or fewer have moved away from an integer
    [k <= 2^50] still has [k] or [k + 1] as its ceiling. *)
Lemma ceil_near (k : Z) (q : Q) :
  (0 < k <= 2 ^ 50)%Z ->
  inject_Z k * (1 - (1 # 2 ^ 51)) <= q <= inject_Z k * (1 + (1 # 2 ^ 51)) ->
  math_ceil q = k \/ math_ceil q = (k + 1)%Z.
Proof.
  intros Hk [H1 H2]. unfold math_ceil.
  assert (Hkq : 0 < inject_Z k <= 2 ^ 50).
  { split.
    - change 0 with (inject_Z 0). rewrite <- Zlt_Qlt. lia.
    - rewrite pow2_inject by lia. rewrite <- Zle_Qle. lia. }
  change (2 ^ 50) with 1125899906842624 in Hkq.
  change (1 # 2 ^ 51) with (1 # 2251799813685248) in H1, H2.
  pose proof (Qle_ceiling q) as Hle. pose proof (Qceiling_lt q) as Hlt.
  assert (A : inject_Z (k - 1) < inject_Z (Qceiling q)).
  { unfold Z.sub. rewrite inject_Z_plus, inject_Z_opp. change (inject_Z 1) with 1. lra. }
  assert (B : inject_Z (Qceiling q - 1) < inject_Z (k + 1)).
  { unfold Z.sub in *. rewrite inject_Z_plus, inject_Z_opp in Hlt.
    rewrite !inject_Z_plus, inject_Z_opp. change (inject_Z 1) with 1 in *. lra. }
  rewrite <- Zlt_Qlt in A, B. lia.
Qed.

Lemma Qmult_le_reg_pos (a b x : Q) : 0 < x -> a * x <= b * x -> a <= b.
Proof. intros Hx H. apply (Qmult_le_r a b x Hx). exact H. Qed.

Lemma normal_above (x : Q) : 2 ^ (-600) <= x -> 2 ^ (-1022) <= x.
Proof.
  intros H. apply Qle_trans with (2 ^ (-600)); [|exact H].
  apply pow2_le. lia.
Qed.

Lemma inject_Z_pos (n : Z) : (0 < n)%Z -> 1 <= inject_Z n.
Proof. intros H. change 1 with (inject_Z 1). rewrite <- Zle_Qle. lia. Qed.

Lemma half_normal (x : Q) : 1 # 2 <= x -> 2 ^ (-1022) <= x.
Proof.
  intros H. apply Qle_trans with (1 # 2); [|exact H].
  apply Qle_bool_iff. vm_compute. reflexivity.
Qed.

(** ** Buffer sizer *)

Lemma zeros_ok (n : Z) : (0 <= n)%Z -> zeros n = Ok n.
Proof.
  intros H. unfold zeros.
  replace (n <? 0)%Z with false by (symmetry; apply Z.ltb_ge; lia). reflexivity.
Qed.

Lemma zeros_neg (n : Z) : (n < 0)%Z -> zeros n = Raise ValueError.
Proof.
  intros H. unfold zeros.
  replace (n <? 0)%Z with true by (symmetry; apply Z.ltb_lt; lia). reflexivity.
Qed.

(** The divisions of the log lines, when no divisor is zero. *)
Ltac log_lines :=
  repeat (first [ rewrite (py_div_Z _ _) by lia
                | rewrite (py_div_nonzero _ (sample_rate _)) by assumption ];
          cbn [bind]).

(** What [create_buffer] returns when nothing divides by zero: the sizes,
    then the allocation, which fails on a negative size. *)
Lemma create_buffer_eval_nonzero (self : SoapyPower) (bins repeats base maxb size : Z) :
  bins <> 0%Z -> (0 < base)%Z -> ~ sample_rate self == 0 ->
  align_up (bins * repeats) base = Ok size ->
  create_buffer self bins repeats base maxb =
    if (0 <? effective_max maxb)%Z then
      match align_up (effective_max maxb) base with
      | Ok amax =>
          if (amax <? size)%Z
          then Ok (math_ceil (inject_Z size / inject_Z amax), amax)
          else (let? buffer := zeros size in Ok (1%Z, buffer))
      | Raise e => Raise e
      end
    else (let? buffer := zeros size in Ok (1%Z, buffer)).
Proof.
  intros Hbins Hbase Hrate Hsize.
  unfold create_buffer. rewrite Hsize. cbn [bind].
  destruct (0 <? effective_max maxb)%Z eqn:Hmax.
  - apply Z.ltb_lt in Hmax.
    destruct (align_up (effective_max maxb) base) as [amax|e] eqn:Hamax;
      cbn [bind]; [|reflexivity].
    pose proof (align_up_bounds _ _ _ Hbase Hamax) as [Ha _].
    destruct (amax <? size)%Z eqn:Hcl; cbn [bind].
    + rewrite (py_div_Z _ amax) by lia. cbn [bind].
      rewrite (py_div_nonzero _ (sample_rate self)) by assumption. cbn [bind].
      replace (0 <? amax)%Z with true by (symmetry; apply Z.ltb_lt; lia).
      log_lines. rewrite zeros_ok by lia. reflexivity.
    + rewrite (py_div_nonzero _ (sample_rate self)) by assumption. cbn [bind].
      replace (0 <? amax)%Z with true by (symmetry; apply Z.ltb_lt; lia).
      log_lines. reflexivity.
  - cbn [bind]. rewrite (py_div_nonzero _ (sample_rate self)) by assumption.
    cbn [bind]. rewrite Hmax. cbn [bind]. log_lines. reflexivity.
Qed.

(** What [create_buffer] returns, by cases, once nothing can raise. *)
Lemma create_buffer_eval (self : SoapyPower) (bins repeats base maxb size : Z) :
  (0 < bins)%Z -> (0 < repeats)%Z -> (0 < base)%Z -> ~ sample_rate self == 0 ->
  align_up (bins * repeats) base = Ok size ->
  create_buffer self bins repeats base maxb =
    if (0 <? effective_max maxb)%Z then
      match align_up (effective_max maxb) base with
      | Ok amax =>
          if (amax <? size)%Z
          then Ok (math_ceil (inject_Z size / inject_Z amax), amax)
          else Ok (1%Z, size)
      | Raise e => Raise e
      end
    else Ok (1%Z, size).
Proof.
  intros Hbins Hrep Hbase Hrate Hsize.
  rewrite (create_buffer_eval_nonzero self bins repeats base maxb size)
    by (try assumption; lia).
  pose proof (align_up_bounds _ _ _ Hbase Hsize) as [Hs _].
  assert (Hbr : (0 < bins * repeats)%Z) by (apply Z.mul_pos_pos; assumption).
  rewrite zeros_ok by lia. reflexivity.
Qed.

(** *** The sizes as Python computes them *)

Lemma Qeq_bool_inject_Z (b : Z) : Qeq_bool (inject_Z b) 0 = (b =? 0)%Z.
Proof.
  destruct (Z.eq_dec b 0) as [->|Hb]; [reflexivity|].
  rewrite Qeq_bool_inject_Z_0 by exact Hb. symmetry. apply Z.eqb_neq. exact Hb.
Qed.

Lemma int_truediv_nonzero (a b : Z) :
  b <> 0%Z -> int_truediv a b = Ok (float_round (inject_Z a / inject_Z b)).
Proof.
  intros Hb. unfold int_truediv.
  replace (b =? 0)%Z with false by (symmetry; apply Z.eqb_neq; exact Hb).
  reflexivity.
Qed.

(** Below [2^53] the rounding of the quotient does not change the aligned
    size. *)
Lemma align_up_float_exact (n base : Z) :
  (0 < base <= 2 ^ 1000)%Z -> (Z.abs n < 2 ^ 53)%Z ->
  align_up_float n base = align_up n base.
Proof.
  intros Hb Hn. unfold align_up_float, align_up.
  rewrite int_truediv_nonzero, py_div_Z by lia. cbn [bind].
  rewrite ceil_float_div by assumption. reflexivity.
Qed.

Lemma align_default_float_exact (base : Z) :
  (0 < base <= 2 ^ 53)%Z ->
  align_default_float base = align_up default_max_buffer_size base.
Proof.
  intros Hb. unfold align_default_float, align_up, float_of_int.
  assert (Hf : float_round (inject_Z base) == inject_Z base)
    by (apply float_round_Z; lia).
  assert (Hbq : 0 < inject_Z base).
  { change 0 with (inject_Z 0). rewrite <- Zlt_Qlt. lia. }
  rewrite float_div_nonzero by (rewrite Hf; lra).
  rewrite py_div_Z by lia. cbn [bind]. f_equal. f_equal.
  assert (Hq : inject_Z default_max_buffer_size / float_round (inject_Z base)
               == inject_Z default_max_buffer_size / inject_Z base)
    by (rewrite Hf; reflexivity).
  unfold math_ceil. rewrite (Qceiling_comp _ _ (float_round_comp _ _ Hq)).
  apply ceil_float_div; [lia | vm_compute; reflexivity].
Qed.

(** Within these bounds [create_buffer_float] and [create_buffer] agree. *)
Lemma create_buffer_float_exact (self : SoapyPower) (bins repeats base maxb : Z) :
  (0 < base)%Z -> (Z.abs (bins * repeats) + base <= 2 ^ 53)%Z -> (maxb < 2 ^ 53)%Z ->
  create_buffer_float self bins repeats base maxb
    = create_buffer self bins repeats base maxb.
Proof.
  intros Hbase Hsamples Hmaxb.
  assert (Hb53 : (base <= 2 ^ 53)%Z) by lia.
  assert (Hp : (2 ^ 53 < 2 ^ 1000)%Z) by (apply Z.pow_lt_mono_r; lia).
  unfold create_buffer_float, create_buffer. cbv zeta.
  rewrite align_up_float_exact by lia.
  pose proof (align_up_ok (bins * repeats) base Hbase) as Hsize.
  set (size := (math_ceil (inject_Z (bins * repeats) / inject_Z base) * base)%Z) in *.
  pose proof (align_up_bounds _ _ _ Hbase Hsize) as [Hs _].
  rewrite Hsize. cbn [bind].
  assert (Hlog : forall br bs mx : Z,
    (let? _ := float_div (float_of_int (bins * repeats)) (sample_rate self) in
     let? _ :=
       if (0 <? mx)%Z then
         let? _ := int_truediv mx bins in
         float_div (float_of_int mx) (sample_rate self)
       else Ok 0 in
     let? _ := int_truediv bs bins in
     let? _ := float_div (float_of_int bs) (sample_rate self) in
     let? buffer := zeros bs in Ok (br, buffer))
    =
    (let? _ := py_div (inject_Z (bins * repeats)) (sample_rate self) in
     let? _ :=
       if (0 <? mx)%Z then
         let? _ := py_div (inject_Z mx) (inject_Z bins) in
         py_div (inject_Z mx) (sample_rate self)
       else Ok 0 in
     let? _ := py_div (inject_Z bs) (inject_Z bins) in
     let? _ := py_div (inject_Z bs) (sample_rate self) in
     let? buffer := zeros bs in Ok (br, buffer))).
  { intros br bs mx. unfold float_div, int_truediv, py_div.
    rewrite !Qeq_bool_inject_Z.
    destruct (Qeq_bool (sample_rate self) 0); [reflexivity|].
    destruct (bins =? 0)%Z; destruct (0 <? mx)%Z; reflexivity. }
  destruct (0 <? effective_max maxb)%Z eqn:Hmax.
  - apply Z.ltb_lt in Hmax.
    assert (Hamaxf :
      (if (maxb =? 0)%Z then align_default_float base
       else align_up_float (effective_max maxb) base)
      = align_up (effective_max maxb) base).
    { unfold effective_max in *. destruct (maxb =? 0)%Z.
      - apply align_default_float_exact. lia.
      - apply align_up_float_exact; lia. }
    rewrite Hamaxf.
    pose proof (align_up_ok (effective_max maxb) base Hbase) as Hamax.
    set (amax := (math_ceil (inject_Z (effective_max maxb) / inject_Z base)
                  * base)%Z) in *.
    pose proof (align_up_bounds _ _ _ Hbase Hamax) as [Ha _].
    assert (He : (effective_max maxb < 2 ^ 53)%Z).
    { unfold effective_max. destruct (maxb =? 0)%Z; [reflexivity | exact Hmaxb]. }
    rewrite Hamax. cbn [bind].
    destruct (amax <? size)%Z eqn:Hcl.
    + apply Z.ltb_lt in Hcl.
      rewrite int_truediv_nonzero, py_div_Z by lia. cbn [bind].
      rewrite ceil_float_div by lia. apply Hlog.
    + cbn [bind]. apply Hlog.
  - cbn [bind]. apply Hlog.
Qed.

(** C5 fails as stated: the required size is the ceiling of a float
    quotient, and above [2^53] the quotient of two [int]s is not exact.
    With [bins = 2^53 + 1] and [repeats = base_buffer_size = 1] the quotient
    rounds down to [2^53]; with [max_buffer_size = 1] the buffer is clamped
    to one sample, read [2^53] times, which is less than [bins * repeats]. *)
Lemma create_buffer_rounds_down :
  let self := mkSoapyPower 2000000 (-85) 1 0 0 false in
  create_buffer_float self (2 ^ 53 + 1) 1 1 1 = Ok (2 ^ 53, 1)%Z /\
  align_up_float (2 ^ 53 + 1) 1 = Ok (2 ^ 53)%Z /\
  (0 < effective_max 1)%Z /\ align_up_float 1 1 = Ok 1%Z /\ (1 < 2 ^ 53)%Z /\
  (2 ^ 53 * 1 < (2 ^ 53 + 1) * 1)%Z.
Proof.
  cbv zeta.
  split; [vm_compute; reflexivity|].
  split; [vm_compute; reflexivity|].
  split; [reflexivity|].
  split; [vm_compute; reflexivity|].
  split; reflexivity.
Qed.

(** C5, amended: for positive [bins], [repeats] and [base_buffer_size] with
    [bins * repeats + base_buffer_size <= 2^53] and [max_buffer_size < 2^53]
    (and a sample rate that is not zero, so that the log lines do not
    raise), [create_buffer] returns, and what it returns with its float
    quotients is what the exact quotients give; [buffer_size] is a multiple
    of [base_buffer_size]; without clamping [buffer_size * buffer_repeats] is
    at least [bins * repeats]; with clamping [buffer_size] is at most the
    aligned maximum and [buffer_repeats * buffer_size] is at least
    [bins * repeats]. *)
Theorem create_buffer_sizing (self : SoapyPower) (bins repeats base maxb : Z) :
  (0 < bins)%Z -> (0 < repeats)%Z -> (0 < base)%Z ->
  (bins * repeats + base <= 2 ^ 53)%Z -> (maxb < 2 ^ 53)%Z ->
  ~ sample_rate self == 0 ->
  exists buffer_repeats buffer_size,
    create_buffer_float self bins repeats base maxb
      = Ok (buffer_repeats, buffer_size) /\
    create_buffer self bins repeats base maxb = Ok (buffer_repeats, buffer_size) /\
    (exists k, buffer_size = k * base)%Z /\
    (clamped bins repeats base maxb = false ->
       (bins * repeats <= buffer_size * buffer_repeats)%Z) /\
    (clamped bins repeats base maxb = true ->
       exists amax, align_up (effective_max maxb) base = Ok amax /\
         (buffer_size <= amax)%Z /\
         (bins * repeats <= buffer_repeats * buffer_size)%Z).
Proof.
  intros Hbins Hrep Hbase Hbound Hmaxb Hrate.
  assert (Hbr : (0 < bins * repeats)%Z) by (apply Z.mul_pos_pos; assumption).
  rewrite create_buffer_float_exact by lia.
  pose proof (align_up_ok (bins * repeats) base Hbase) as Hsize.
  set (size := (math_ceil (inject_Z (bins * repeats) / inject_Z base) * base)%Z) in *.
  pose proof (align_up_bounds _ _ _ Hbase Hsize) as [Hs [ks Hks]].
  pose proof (align_up_ok (effective_max maxb) base Hbase) as Hamax.
  set (amax := (math_ceil (inject_Z (effective_max maxb) / inject_Z base) * base)%Z) in *.
  pose proof (align_up_bounds _ _ _ Hbase Hamax) as [Ha [ka Hka]].
  rewrite (create_buffer_eval self bins repeats base maxb size) by assumption.
  unfold clamped. rewrite Hsize, Hamax.
  destruct (0 <? effective_max maxb)%Z eqn:Hmax; cbn [andb].
  - apply Z.ltb_lt in Hmax.
    destruct (amax <? size)%Z eqn:Hcl.
    + apply Z.ltb_lt in Hcl.
      pose proof (ceil_div_bounds size amax ltac:(lia)) as Hc.
      eexists _, _. split; [reflexivity|]. split; [reflexivity|].
      split; [exists ka; exact Hka|].
      split; [discriminate|]. intros _.
      exists amax. split; [reflexivity|]. split; lia.
    + apply Z.ltb_ge in Hcl.
      eexists _, _. split; [reflexivity|]. split; [reflexivity|].
      split; [exists ks; exact Hks|].
      split; [intros _; lia | discriminate].
  - eexists _, _. split; [reflexivity|]. split; [reflexivity|].
    split; [exists ks; exact Hks|].
    split; [intros _; lia | discriminate].
Qed.

(** The theorem at the sizing of scenario S4 with the smaller maximum. *)
Lemma create_buffer_sizing_witness :
  exists buffer_repeats buffer_size,
    create_buffer_float (mkSoapyPower 2000000 (-85) 1 0 0 false) 8192 10 16384 65536
      = Ok (buffer_repeats, buffer_size) /\
    create_buffer (mkSoapyPower 2000000 (-85) 1 0 0 false) 8192 10 16384 65536
      = Ok (buffer_repeats, buffer_size) /\
    (exists k, buffer_size = k * 16384)%Z /\
    (clamped 8192 10 16384 65536 = false ->
       (8192 * 10 <= buffer_size * buffer_repeats)%Z) /\
    (clamped 8192 10 16384 65536 = true ->
       exists amax, align_up (effective_max 65536) 16384 = Ok amax /\
         (buffer_size <= amax)%Z /\
         (8192 * 10 <= buffer_repeats * buffer_size)%Z).
Proof.
  apply (create_buffer_sizing (mkSoapyPower 2000000 (-85) 1 0 0 false)
           8192 10 16384 65536); try lia.
  simpl. intro H. discriminate H.
Defined.




(** ** Hop planner *)










Example freq_plan_S3 :
  exists l, freq_plan (mkSoapyPower 2000000 (-85) 1 0 0 false)
              88000000 108000000 1024 (1 # 4) = Ok l /\
            length l = 14%nat /\
            Forall2 Qeq (firstn 2 l) [88750000; 90250000].
Proof.
  eexists. split; [vm_compute; reflexivity|].
  split; [reflexivity|].
  repeat constructor.
Qed.

(** ** Burst detector *)

Lemma Qltb_lt (a b : Q) : Qltb a b = true <-> a < b.
Proof.
  unfold Qltb. rewrite negb_true_iff. split.
  - intros H. apply Qnot_le_lt. intro Hle. apply Qle_bool_iff in Hle. congruence.
  - intros H. destruct (Qle_bool b a) eqn:E; [|reflexivity].
    apply Qle_bool_iff in E. exfalso. apply (Qlt_not_le _ _ H E).
Qed.

Lemma Qltb_ge (a b : Q) : Qltb a b = false <-> b <= a.
Proof.
  unfold Qltb. rewrite negb_false_iff. apply Qle_bool_iff.
Qed.

(** [numpy.where] lists exactly the indices where the condition holds. *)
Lemma where_from_spec (p : Q -> bool) (l : list Q) :
  forall k i,
    In i (where_from k p l) <->
    (k <= i)%Z /\ exists x, nth_error l (Z.to_nat (i - k)) = Some x /\ p x = true.
Proof.
  induction l as [|y t IH]; intros k i; cbn [where_from].
  - split; [intros []|]. intros [_ [x [H _]]].
    destruct (Z.to_nat (i - k)); discriminate H.
  - assert (Htail : In i (where_from (k + 1) p t) <->
                    (k < i)%Z /\ exists x,
                      nth_error (y :: t) (Z.to_nat (i - k)) = Some x /\ p x = true).
    { rewrite IH. split.
      - intros [Hk [x [Hx Hp]]]. split; [lia|]. exists x. split; [|exact Hp].
        replace (Z.to_nat (i - k)) with (S (Z.to_nat (i - (k + 1)))) by lia.
        exact Hx.
      - intros [Hk [x [Hx Hp]]]. split; [lia|]. exists x. split; [|exact Hp].
        replace (Z.to_nat (i - k)) with (S (Z.to_nat (i - (k + 1)))) in Hx by lia.
        exact Hx. }
    destruct (p y) eqn:Hy.
    + cbn [In]. rewrite Htail. split.
      * intros [<- | [Hk H]].
        -- split; [lia|]. exists y. rewrite Z.sub_diag. split; [reflexivity|exact Hy].
        -- split; [lia | exact H].
      * intros [Hk H]. destruct (Z.eq_dec k i) as [->|Hne]; [left; reflexivity|].
        right. split; [lia | exact H].
    + rewrite Htail. split.
      * intros [Hk H]. split; [lia | exact H].
      * intros [Hk [x [Hx Hp]]]. split.
        -- destruct (Z.eq_dec k i) as [->|Hne]; [|lia].
           rewrite Z.sub_diag in Hx. cbn in Hx. injection Hx as <-. congruence.
        -- exists x. split; assumption.
Qed.

Lemma where_from_sorted (p : Q -> bool) (l : list Q) :
  forall k, StronglySorted Z.lt (where_from k p l).
Proof.
  induction l as [|y t IH]; intros k; cbn [where_from].
  - constructor.
  - destruct (p y); [|apply IH].
    constructor; [apply IH|].
    apply Forall_forall. intros i Hi. apply where_from_spec in Hi. lia.
Qed.

Lemma numpy_where_above (absThreshold : Q) (iq : list Q) (i : Z) :
  In i (numpy_where (fun v => Qltb absThreshold (Qabs v)) iq) <->
  above absThreshold iq i.
Proof.
  unfold numpy_where, above. rewrite where_from_spec. rewrite Z.sub_0_r.
  split; intros [H0 [x [Hx Hp]]]; (split; [exact H0|]); exists x;
    (split; [exact Hx|]); apply Qltb_lt; exact Hp.
Qed.

Lemma above_lt_length (absThreshold : Q) (iq : list Q) (i : Z) :
  above absThreshold iq i -> (i < Z.of_nat (length iq))%Z.
Proof.
  intros [H0 [x [Hx _]]].
  assert (Z.to_nat i < length iq)%nat by (apply nth_error_Some; congruence).
  lia.
Qed.

(** [numpy.max] is an element and an upper bound. *)
Lemma fold_max_spec (t : list Q) :
  forall x, let m := fold_left (fun m y => if Qltb m y then y else m) t x in
            In m (x :: t) /\ x <= m /\ Forall (fun y => y <= m) t.
Proof.
  induction t as [|y t IH]; intros x; cbn [fold_left].
  - split; [left; reflexivity|]. split; [apply Qle_refl | constructor].
  - destruct (Qltb x y) eqn:E.
    + apply Qltb_lt in E. destruct (IH y) as (Hin & Hle & Hall).
      split; [right; exact Hin|]. split; [lra|].
      constructor; assumption.
    + apply Qltb_ge in E. destruct (IH x) as (Hin & Hle & Hall).
      split; [destruct Hin as [<-|Hin]; [left; reflexivity | right; right; exact Hin]|].
      split; [exact Hle|]. constructor; [lra | exact Hall].
Qed.

Lemma numpy_max_spec (l : list Q) (m : Q) :
  numpy_max l = Ok m -> In m l /\ Forall (fun y => y <= m) l.
Proof.
  destruct l as [|x t]; [discriminate|]. cbn [numpy_max]. intros [= <-].
  destruct (fold_max_spec t x) as (Hin & Hle & Hall).
  split; [exact Hin | constructor; assumption].
Qed.

(** The stop scan on ascending indices. *)
Lemma scan_stop_spec (m : Z) :
  (0 <= m)%Z ->
  forall l last,
    StronglySorted Z.lt (last :: l) ->
    let s := scan_stop m last l in
    In s (last :: l) /\
    (forall i, In i (last :: l) -> (i < s)%Z ->
               exists j, In j l /\ (i < j <= i + m)%Z /\ (j <= s)%Z) /\
    (forall j, In j l -> (s < j)%Z -> (s + m < j)%Z).
Proof.
  intros Hm. induction l as [|x rest IH]; intros last Hs; cbn [scan_stop].
  - split; [left; reflexivity|]. split.
    + intros i [<-|[]] Hlt. lia.
    + intros j [].
  - apply StronglySorted_inv in Hs. destruct Hs as [Hs Hall].
    pose proof (proj1 (Forall_forall _ _) Hall) as Hgt.
    destruct (m <? x - last)%Z eqn:E.
    + apply Z.ltb_lt in E. split; [left; reflexivity|]. split.
      * intros i [<-|Hi] Hlt; [lia|]. specialize (Hgt i Hi). lia.
      * intros j Hj _. destruct Hj as [<-|Hj]; [lia|].
        apply StronglySorted_inv in Hs. destruct Hs as [_ Hx].
        pose proof (proj1 (Forall_forall _ _) Hx j Hj). lia.
    + apply Z.ltb_ge in E. specialize (IH x Hs). cbn zeta in IH.
      destruct IH as (Hin & Hchain & Hgap).
      assert (Hxs : (x <= scan_stop m x rest)%Z).
      { destruct Hin as [<-|Hin]; [lia|].
        apply StronglySorted_inv in Hs. destruct Hs as [_ Hx].
        pose proof (proj1 (Forall_forall _ _) Hx _ Hin). lia. }
      pose proof (Hgt x (or_introl eq_refl)) as Hlx.
      split; [right; exact Hin|]. split.
      * intros i [<-|Hi] Hlt.
        -- exists x. split; [left; reflexivity|]. lia.
        -- destruct (Hchain i Hi Hlt) as (j & Hj & Hb & Hjs).
           exists j. split; [right; exact Hj|]. lia.
      * intros j [<-|Hj] Hlt; [lia|]. apply Hgap; assumption.
Qed.

Lemma minBurst_floor (self : SoapyPower) :
  0 <= sample_rate self ->
  minBurst_of self = Qfloor ((5 # 1000000) * sample_rate self) /\
  (0 <= minBurst_of self)%Z.
Proof.
  intros Hr. unfold minBurst_of, py_int.
  set (x := (5 # 1000000) * sample_rate self).
  assert (Hx : 0 <= x) by (unfold x; apply Qmult_le_0_compat; [discriminate | exact Hr]).
  destruct x as [n d]. cbn [Qnum Qden Qfloor].
  assert (Hn : (0 <= n)%Z).
  { unfold Qle in Hx. cbn in Hx. lia. }
  rewrite Z.quot_div_nonneg by lia.
  split; [reflexivity|]. apply Z.div_pos; lia.
Qed.

(** The code's [start] and [stop], whenever it gets to compute them. *)
Lemma detect_first_burst (minBurst : Z) (absThreshold : Q) (iq : list Q)
    (start : Z) (rest : list Z) :
  (0 <= minBurst)%Z ->
  numpy_where (fun v => Qltb absThreshold (Qabs v)) iq = start :: rest ->
  scan_stop minBurst start (start :: rest) = scan_stop minBurst start rest /\
  first_burst absThreshold minBurst iq start (scan_stop minBurst start rest).
Proof.
  intros Hm Hw.
  assert (Hsorted : StronglySorted Z.lt (start :: rest)).
  { rewrite <- Hw. apply where_from_sorted. }
  assert (Hin : forall i, In i (start :: rest) <-> above absThreshold iq i).
  { intros i. rewrite <- Hw. apply numpy_where_above. }
  destruct (scan_stop_spec minBurst Hm rest start Hsorted) as (Hs & Hchain & Hgap).
  pose proof Hsorted as Hs2. apply StronglySorted_inv in Hs2. destruct Hs2 as [_ Hall].
  pose proof (proj1 (Forall_forall _ _) Hall) as Hgt.
  split.
  - cbn [scan_stop]. rewrite Z.sub_diag.
    replace (minBurst <? 0)%Z with false by (symmetry; apply Z.ltb_ge; lia).
    reflexivity.
  - split; [apply Hin; left; reflexivity|].
    split.
    { intros i Hi. apply Hin in Hi. destruct Hi as [<-|Hi]; [lia|].
      specialize (Hgt i Hi). lia. }
    split; [apply Hin; exact Hs|].
    split.
    + intros i Hi Hrange. apply Hin in Hi.
      destruct (Hchain i Hi ltac:(lia)) as (j & Hj & Hb & Hjs).
      exists j. split; [apply Hin; right; exact Hj|]. split; assumption.
    + intros j Hj Hlt. apply Hin in Hj. destruct Hj as [<-|Hj].
      * exfalso. destruct Hs as [Hs|Hs]; [lia|]. specialize (Hgt _ Hs). lia.
      * apply Hgap; assumption.
Qed.

(** The first burst of a buffer is unique. *)
Lemma first_burst_unique (absThreshold : Q) (minBurst : Z) (iq : list Q)
    (s1 t1 s2 t2 : Z) :
  (0 <= minBurst)%Z ->
  first_burst absThreshold minBurst iq s1 t1 ->
  first_burst absThreshold minBurst iq s2 t2 ->
  s1 = s2 /\ t1 = t2.
Proof.
  intros Hm (Ha1 & Hmin1 & Hb1 & Hc1 & Hg1) (Ha2 & Hmin2 & Hb2 & Hc2 & Hg2).
  assert (Hs : s1 = s2).
  { specialize (Hmin1 _ Ha2). specialize (Hmin2 _ Ha1). lia. }
  subst s2. split; [reflexivity|].
  pose proof (Hmin1 _ Hb1). pose proof (Hmin1 _ Hb2).
  destruct (Z.lt_trichotomy t1 t2) as [Hlt|[Heq|Hgt]]; [|exact Heq|].
  - exfalso. destruct (Hc2 t1 Hb1 ltac:(lia)) as (j & Hj & Hjb & _).
    specialize (Hg1 j Hj ltac:(lia)). lia.
  - exfalso. destruct (Hc1 t2 Hb2 ltac:(lia)) as (j & Hj & Hjb & _).
    specialize (Hg2 j Hj ltac:(lia)). lia.
Qed.

Lemma detect_total (minBurst : Z) (absThreshold : Q) (iq : list Q) :
  iq <> [] -> exists r, detect minBurst absThreshold iq = Ok r.
Proof.
  intros Hne. unfold detect.
  destruct (numpy_max iq) as [m|e] eqn:Hmax.
  2:{ destruct iq; [contradiction | discriminate]. }
  cbn [bind]. destruct (Qltb absThreshold m) eqn:Hthr; [|eexists; reflexivity].
  apply Qltb_lt in Hthr.
  destruct (numpy_max_spec _ _ Hmax) as [Hin _].
  destruct (In_nth_error _ _ Hin) as [n Hn].
  assert (Hab : above absThreshold iq (Z.of_nat n)).
  { split; [lia|]. exists m. rewrite Nat2Z.id. split; [exact Hn|].
    apply Qlt_le_trans with m; [exact Hthr | apply Qle_Qabs]. }
  apply numpy_where_above in Hab.
  destruct (numpy_where (fun v => Qltb absThreshold (Qabs v)) iq) as [|start rest];
    [destruct Hab|].
  unfold py_index. cbn [Z.to_nat nth_error bind].
  destruct (minBurst <? _)%Z; eexists; reflexivity.
Qed.

(** C6: with [minBurst = floor(5e-6 * sample_rate)] for a sample rate that is
    not negative, the detector returns on every non-empty buffer, and every
    burst it emits has: [start] the smallest index above the threshold; [stop]
    the last index above the threshold before the first gap of more than
    [minBurst] samples between consecutive such indices, or the last such
    index when there is no such gap; [stop - start > minBurst];
    [safe_start = max(0, start - minBurst)];
    [safe_stop = min(|iq| - 1, stop + minBurst)]; and
    [0 <= safe_start <= start < stop <= safe_stop < |iq|].  No burst is
    emitted when [max(iq) <= absThreshold], or when [stop - start <= minBurst]. *)
Theorem detect_burst (self : SoapyPower) (absThreshold : Q) (iq : list Q) :
  0 <= sample_rate self ->
  let minBurst := minBurst_of self in
  let len := Z.of_nat (length iq) in
  minBurst = Qfloor ((5 # 1000000) * sample_rate self) /\
  (iq <> [] -> exists r, detect minBurst absThreshold iq = Ok r) /\
  (forall b, detect minBurst absThreshold iq = Ok (Some b) ->
     first_burst absThreshold minBurst iq (b_start b) (b_stop b) /\
     (minBurst < b_stop b - b_start b)%Z /\
     b_safestart b = Z.max 0 (b_start b - minBurst) /\
     b_safestop b = Z.min (len - 1) (b_stop b + minBurst) /\
     (0 <= b_safestart b <= b_start b)%Z /\
     (b_start b < b_stop b)%Z /\
     (b_stop b <= b_safestop b < len)%Z) /\
  (forall m, numpy_max iq = Ok m -> m <= absThreshold ->
     detect minBurst absThreshold iq = Ok None) /\
  (forall start stop, first_burst absThreshold minBurst iq start stop ->
     (stop - start <= minBurst)%Z ->
     detect minBurst absThreshold iq = Ok None).
Proof.
  intros Hrate minBurst len.
  destruct (minBurst_floor self Hrate) as [Hfloor Hm].
  fold minBurst in Hfloor, Hm.
  assert (Hsome : forall b, detect minBurst absThreshold iq = Ok (Some b) ->
     first_burst absThreshold minBurst iq (b_start b) (b_stop b) /\
     (minBurst < b_stop b - b_start b)%Z /\
     b_safestart b = Z.max 0 (b_start b - minBurst) /\
     b_safestop b = Z.min (len - 1) (b_stop b + minBurst) /\
     (0 <= b_safestart b <= b_start b)%Z /\
     (b_start b < b_stop b)%Z /\
     (b_stop b <= b_safestop b < len)%Z).
  { intros b. unfold detect.
    destruct (numpy_max iq) as [m|e]; [|discriminate]. cbn [bind].
    destruct (Qltb absThreshold m); [|discriminate].
    destruct (numpy_where (fun v => Qltb absThreshold (Qabs v)) iq)
      as [|start rest] eqn:Hw; [discriminate|].
    unfold py_index. cbn [Z.to_nat nth_error bind].
    destruct (detect_first_burst minBurst absThreshold iq start rest Hm Hw)
      as [Hscan Hfb].
    rewrite Hscan. set (stop := scan_stop minBurst start rest) in *.
    destruct (minBurst <? stop - start)%Z eqn:Hlen; [|discriminate].
    apply Z.ltb_lt in Hlen. intros [= <-]. cbn [b_start b_stop b_safestart b_safestop].
    fold len.
    pose proof Hfb as (Ha & _ & Hb & _).
    pose proof (above_lt_length _ _ _ Hb) as Hstop. fold len in Hstop.
    destruct Ha as [Hstart0 _].
    split; [exact Hfb|]. split; [exact Hlen|].
    destruct (minBurst <? start)%Z eqn:E1;
      [apply Z.ltb_lt in E1 | apply Z.ltb_ge in E1];
      (destruct (minBurst <? len - 1 - stop)%Z eqn:E2;
        [apply Z.ltb_lt in E2 | apply Z.ltb_ge in E2]);
      repeat split; lia. }
  split; [exact Hfloor|].
  split; [apply detect_total|].
  split; [exact Hsome|].
  split.
  - intros m Hmax Hle. unfold detect. rewrite Hmax. cbn [bind].
    replace (Qltb absThreshold m) with false
      by (symmetry; apply Qltb_ge; exact Hle).
    reflexivity.
  - intros start stop Hfb Hshort.
    assert (Hne : iq <> []).
    { destruct Hfb as ([_ [x [Hx _]]] & _). intros ->.
      destruct (Z.to_nat start); discriminate Hx. }
    destruct (detect_total minBurst absThreshold iq Hne) as [[b|] Hr];
      [exfalso | exact Hr].
    destruct (Hsome b Hr) as (Hfb' & Hlong & _).
    destruct (first_burst_unique _ _ _ _ _ _ _ Hm Hfb Hfb') as [-> ->]. lia.
Qed.

Example detect_example :
  detect 2 1 [0; 5; 5; 0; 5; 5; 0; 0; 0; 5] = Ok (Some (mkBurst 1 5 0 7)).
Proof. vm_compute. reflexivity. Qed.

(** The theorem at a sample rate of 400 kHz ([minBurst = 2]), threshold 1 and
    a ten-sample buffer. *)
Lemma detect_burst_witness :
  let self := mkSoapyPower 400000 (-85) 1 10 0 false in
  let absThreshold := 1 in
  let iq := [0; 5; 5; 0; 5; 5; 0; 0; 0; 5] in
  let minBurst := minBurst_of self in
  let len := Z.of_nat (length iq) in
  minBurst = Qfloor ((5 # 1000000) * sample_rate self) /\
  (iq <> [] -> exists r, detect minBurst absThreshold iq = Ok r) /\
  (forall b, detect minBurst absThreshold iq = Ok (Some b) ->
     first_burst absThreshold minBurst iq (b_start b) (b_stop b) /\
     (minBurst < b_stop b - b_start b)%Z /\
     b_safestart b = Z.max 0 (b_start b - minBurst) /\
     b_safestop b = Z.min (len - 1) (b_stop b + minBurst) /\
     (0 <= b_safestart b <= b_start b)%Z /\
     (b_start b < b_stop b)%Z /\
     (b_stop b <= b_safestop b < len)%Z) /\
  (forall m, numpy_max iq = Ok m -> m <= absThreshold ->
     detect minBurst absThreshold iq = Ok None) /\
  (forall start stop, first_burst absThreshold minBurst iq start stop ->
     (stop - start <= minBurst)%Z ->
     detect minBurst absThreshold iq = Ok None).
Proof.
  intros self absThreshold iq.
  apply (detect_burst self absThreshold iq).
  vm_compute. discriminate.
Defined.

(** ** Measurement reducer *)

(** [numpy.argmax] returns an index of the array. *)
Lemma argmax_from_valid (t : list Q) :
  forall (pre : list Q) (best : Z) (m : Q),
    nth_error pre (Z.to_nat best) = Some m -> (0 <= best)%Z ->
    let r := argmax_from (Z.of_nat (length pre)) best m t in
    (0 <= r)%Z /\ exists x, nth_error (pre ++ t) (Z.to_nat r) = Some x.
Proof.
  induction t as [|y t IH]; intros pre best m Hbest H0; cbn [argmax_from].
  - split; [exact H0|]. exists m. rewrite app_nil_r. exact Hbest.
  - assert (Hlen : (Z.of_nat (length pre) + 1)%Z = Z.of_nat (length (pre ++ [y]))).
    { rewrite length_app. cbn [length]. lia. }
    assert (Happ : pre ++ y :: t = (pre ++ [y]) ++ t).
    { rewrite <- app_assoc. reflexivity. }
    destruct (Qltb m y).
    + rewrite Hlen, Happ. apply IH; [|lia].
      rewrite Nat2Z.id. rewrite nth_error_app2 by lia.
      rewrite Nat.sub_diag. reflexivity.
    + rewrite Hlen, Happ. apply IH; [|exact H0].
      rewrite nth_error_app1; [exact Hbest|].
      apply nth_error_Some. congruence.
Qed.

Lemma numpy_argmax_valid (l : list Q) :
  l <> [] ->
  exists peak rssi,
    numpy_argmax l = Ok peak /\ py_index l peak = Ok rssi /\ (0 <= peak)%Z.
Proof.
  destruct l as [|x t]; [contradiction|]. intros _. cbn [numpy_argmax].
  destruct (argmax_from_valid t [x] 0 x eq_refl ltac:(lia)) as [H0 [v Hv]].
  cbn [length Z.of_nat Pos.of_succ_nat app] in *.
  exists (argmax_from 1 0 x t), v. split; [reflexivity|].
  split; [|exact H0]. unfold py_index. change (Z.pos 1) with 1%Z in Hv.
  rewrite Hv. reflexivity.
Qed.

(** First and last element of an ascending index list. *)
Lemma py_last_In {A : Type} (l : list A) (x : A) : py_last l = Ok x -> In x l.
Proof.
  unfold py_last. destruct (rev l) as [|y r] eqn:E; [discriminate|].
  intros [= <-]. apply in_rev. rewrite E. left. reflexivity.
Qed.

Lemma py_last_total {A : Type} (l : list A) : l <> [] -> exists x, py_last l = Ok x.
Proof.
  intros Hne. unfold py_last. destruct (rev l) as [|y r] eqn:E.
  - exfalso. apply Hne. rewrite <- (rev_involutive l), E. reflexivity.
  - eexists. reflexivity.
Qed.

Lemma sorted_first_le_last (l : list Z) (a b : Z) :
  StronglySorted Z.lt l -> py_index l 0 = Ok a -> py_last l = Ok b -> (a <= b)%Z.
Proof.
  intros Hs Ha Hb. apply py_last_In in Hb.
  destruct l as [|x t]; [destruct Hb|].
  unfold py_index in Ha. cbn in Ha. injection Ha as <-.
  destruct Hb as [<-|Hb]; [lia|].
  apply StronglySorted_inv in Hs. destruct Hs as [_ Hall].
  pose proof (proj1 (Forall_forall _ _) Hall b Hb). lia.
Qed.

Lemma edges_bounds (halfPower : Q) (pwr_array : list Q) (leftEdge rightEdge : Z) :
  let edges := numpy_where (fun v => Qltb halfPower v) pwr_array in
  py_index edges 0 = Ok leftEdge -> py_last edges = Ok rightEdge ->
  (0 <= leftEdge <= rightEdge)%Z /\ (rightEdge < Z.of_nat (length pwr_array))%Z.
Proof.
  intros edges Hl Hr.
  pose proof (sorted_first_le_last edges _ _ (where_from_sorted _ _ 0) Hl Hr) as Hle.
  assert (Hleft : In leftEdge edges).
  { unfold py_index in Hl. destruct edges as [|x t]; cbn in Hl; [discriminate|].
    injection Hl as <-. left. reflexivity. }
  apply py_last_In in Hr.
  apply where_from_spec in Hleft, Hr.
  destruct Hleft as [H0 _]. destruct Hr as [_ [x [Hx _]]].
  rewrite Z.sub_0_r in Hx.
  assert (Z.to_nat rightEdge < length pwr_array)%nat
    by (apply nth_error_Some; congruence).
  lia.
Qed.

Lemma py_index_nth {A : Type} (l : list A) (i : Z) (x : A) :
  py_index l i = Ok x -> nth_error l (Z.to_nat i) = Some x.
Proof.
  unfold py_index. destruct (nth_error l (Z.to_nat i)); [|discriminate].
  intros [= <-]. reflexivity.
Qed.

(** What [measurements] returns for a power array that is not empty and a
    signal that carries a burst. *)
Lemma measurements_eval (self : SoapyPower) (pwr_array : list Q) (samples : Z)
    (signal : Signal) (keys : BurstKeys) :
  pwr_array <> [] -> sig_burst signal = Some keys ->
  exists peak rssi leftEdge rightEdge,
    numpy_argmax pwr_array = Ok peak /\
    py_index pwr_array peak = Ok rssi /\
    (0 <= leftEdge <= rightEdge)%Z /\
    (rightEdge < Z.of_nat (length pwr_array))%Z /\
    measurements self pwr_array samples signal =
      if Qltb rssi (threshold self) then Ok None else
      let len := inject_Z (Z.of_nat (length pwr_array)) in
      let resolution := sig_rate keys / len in
      Ok (Some (mkMeasurement (sig_reportTime keys)
                  ((sig_freq keys
                    + offset_of resolution (len / 2)
                        (inject_Z (leftEdge + rightEdge) / 2)) / 1000000)
                  (resolution * inject_Z (rightEdge - leftEdge) / 1000)
                  (map py_int pwr_array)
                  ((sig_freq keys - sample_rate self / 2) / 1000000,
                   (sig_freq keys + sample_rate self / 2) / 1000000)
                  (sig_duration signal * 1000) rssi)).
Proof.
  intros Hne Hkeys.
  destruct (numpy_argmax_valid pwr_array Hne) as (peak & rssi & Hpeak & Hrssi & Hp0).
  set (edges := numpy_where (fun v => Qltb (rssi - 3) v) pwr_array).
  assert (Hin : In peak edges).
  { apply where_from_spec. split; [exact Hp0|]. exists rssi.
    rewrite Z.sub_0_r. split; [apply py_index_nth; exact Hrssi|].
    apply Qltb_lt. lra. }
  assert (Hl : exists leftEdge, py_index edges 0 = Ok leftEdge).
  { destruct edges as [|e es]; [destruct Hin|]. exists e. reflexivity. }
  destruct Hl as [leftEdge Hl].
  assert (Hr : exists rightEdge, py_last edges = Ok rightEdge).
  { apply py_last_total. intro E. rewrite E in Hin. destruct Hin. }
  destruct Hr as [rightEdge Hr].
  destruct (edges_bounds (rssi - 3) pwr_array leftEdge rightEdge Hl Hr) as [Hb1 Hb2].
  exists peak, rssi, leftEdge, rightEdge.
  split; [exact Hpeak|]. split; [exact Hrssi|].
  split; [exact Hb1|]. split; [exact Hb2|].
  unfold measurements. rewrite Hpeak, Hrssi.
  destruct (Qltb rssi (threshold self)); [reflexivity|].
  fold edges. rewrite Hl, Hr, Hkeys. cbn [bind key].
  rewrite py_div_Z.
  - reflexivity.
  - destruct pwr_array; [contradiction | cbn [length]; lia].
Qed.

(** The refinement offset is [resolution * (centre - midpoint)], signed. *)
Lemma offset_of_signed (resolution midpoint centreFreq : Q) :
  offset_of resolution midpoint centreFreq == resolution * (centreFreq - midpoint).
Proof. unfold offset_of. destruct (Qle_bool centreFreq midpoint); ring. Qed.

(** C7: for a sample rate that is not negative, a power array that is not
    empty and a signal carrying a burst, [measurements] returns; it returns a
    record exactly when the peak power is not below the threshold, and every
    record has [bandwidth >= 0] and
    [|frequencyMHz - freq_hop/1e6| <= rate / (2 * 1e6)]. *)
Theorem measurements_bounds (self : SoapyPower) (pwr_array : list Q) (samples : Z)
    (signal : Signal) (keys : BurstKeys) :
  0 <= sig_rate keys -> pwr_array <> [] -> sig_burst signal = Some keys ->
  (exists peak rssi,
     numpy_argmax pwr_array = Ok peak /\ py_index pwr_array peak = Ok rssi /\
     (rssi < threshold self -> measurements self pwr_array samples signal = Ok None) /\
     (threshold self <= rssi ->
        exists m, measurements self pwr_array samples signal = Ok (Some m))) /\
  (forall m, measurements self pwr_array samples signal = Ok (Some m) ->
     0 <= m_bandwidthKHz m /\
     Qabs (m_frequencyMHz m - sig_freq keys / 1000000)
       <= sig_rate keys / (2 * 1000000)).
Proof.
  intros Hrate Hne Hkeys.
  destruct (measurements_eval self pwr_array samples signal keys Hne Hkeys)
    as (peak & rssi & leftEdge & rightEdge & Hpeak & Hrssi & Hb1 & Hb2 & Heval).
  split.
  - exists peak, rssi. split; [exact Hpeak|]. split; [exact Hrssi|]. split.
    + intros Hlow. rewrite Heval.
      replace (Qltb rssi (threshold self)) with true
        by (symmetry; apply Qltb_lt; exact Hlow).
      reflexivity.
    + intros Hhigh. rewrite Heval.
      replace (Qltb rssi (threshold self)) with false
        by (symmetry; apply Qltb_ge; exact Hhigh).
      eexists. reflexivity.
  - intros m Hm. rewrite Heval in Hm.
    destruct (Qltb rssi (threshold self)); [discriminate|].
    cbn zeta in Hm. injection Hm as <-.
    cbn [m_bandwidthKHz m_frequencyMHz].
    set (len := inject_Z (Z.of_nat (length pwr_array))).
    assert (Hlen : 0 < len).
    { unfold len. change 0 with (inject_Z 0). rewrite <- Zlt_Qlt.
      destruct pwr_array; [contradiction | cbn [length]; lia]. }
    set (res := sig_rate keys / len).
    assert (Hres : 0 <= res).
    { unfold res. apply Qle_shift_div_l; [exact Hlen | lra]. }
    assert (Hresl : res * len == sig_rate keys) by (unfold res; field; lra).
    assert (Hl0 : 0 <= inject_Z leftEdge).
    { change 0 with (inject_Z 0). rewrite <- Zle_Qle. lia. }
    assert (Hlr : inject_Z leftEdge <= inject_Z rightEdge).
    { rewrite <- Zle_Qle. lia. }
    assert (Hrn : inject_Z rightEdge <= len - 1).
    { assert (H : inject_Z rightEdge + inject_Z 1 <= len).
      { unfold len. rewrite <- inject_Z_plus, <- Zle_Qle. lia. }
      change (inject_Z 1) with 1 in H. lra. }
    split.
    + unfold Z.sub. rewrite inject_Z_plus, inject_Z_opp.
      apply Qle_shift_div_l; [reflexivity|].
      setoid_replace (0 * 1000) with 0 by ring.
      apply Qmult_le_0_compat; [exact Hres | lra].
    + set (c := inject_Z (leftEdge + rightEdge) / 2).
      assert (Hc : c == (inject_Z leftEdge + inject_Z rightEdge) / 2).
      { unfold c. rewrite inject_Z_plus. reflexivity. }
      pose proof (offset_of_signed res (len / 2) c) as Hoff.
      set (o := offset_of res (len / 2) c) in *.
      set (d := c - len / 2) in *.
      clear Heval. clearbody o. clearbody c. clearbody res. clearbody len.
      unfold d in *. clear d.
      assert (H1 : res * (c - len / 2) <= res * (len / 2)).
      { rewrite !(Qmult_comm res). apply Qmult_le_compat_r; [|exact Hres].
        div_consts. lra. }
      assert (H2 : res * - (len / 2) <= res * (c - len / 2)).
      { rewrite !(Qmult_comm res). apply Qmult_le_compat_r; [|exact Hres].
        div_consts. lra. }
      assert (H3 : res * (len / 2) == sig_rate keys / 2).
      { rewrite <- Hresl. field. }
      assert (H4 : res * - (len / 2) == - (sig_rate keys / 2)).
      { rewrite <- Hresl. field. }
      rewrite H3 in H1. rewrite H4 in H2.
      apply Qabs_Qle_condition. div_consts. split; lra.
Qed.

(** The theorem at a five-bin spectrum peaking at bin 2, 2 MHz sample rate. *)
Lemma measurements_bounds_witness :
  let self := mkSoapyPower 2000000 (-85) 1 10 0 false in
  let pwr_array := [-90; -40; -38; -41; -90] in
  let keys := mkBurstKeys 100000000 [] 0 2000000 in
  let signal := mkSignal 3 9 6 (6 # 2000000) (Some keys) in
  (exists peak rssi,
     numpy_argmax pwr_array = Ok peak /\ py_index pwr_array peak = Ok rssi /\
     (rssi < threshold self -> measurements self pwr_array 10 signal = Ok None) /\
     (threshold self <= rssi ->
        exists m, measurements self pwr_array 10 signal = Ok (Some m))) /\
  (forall m, measurements self pwr_array 10 signal = Ok (Some m) ->
     0 <= m_bandwidthKHz m /\
     Qabs (m_frequencyMHz m - sig_freq keys / 1000000)
       <= sig_rate keys / (2 * 1000000)).
Proof.
  intros self pwr_array keys signal.
  apply (measurements_bounds self pwr_array 10 signal keys).
  - vm_compute. discriminate.
  - discriminate.
  - reflexivity.
Defined.

Example measurements_example :
  exists m,
    measurements (mkSoapyPower 2000000 (-85) 1 10 0 false)
      [-90; -40; -38; -41; -90] 10
      (mkSignal 3 9 6 (6 # 2000000) (Some (mkBurstKeys 100000000 [] 0 2000000)))
    = Ok (Some m) /\
    m_frequencyMHz m == 996 # 10 /\ m_bandwidthKHz m == 400 /\
    fst (m_spanMHz m) == 99 /\ snd (m_spanMHz m) == 101 /\
    m_psd m = [-90; -40; -38; -41; -90]%Z.
Proof.
  eexists. split; [vm_compute; reflexivity|].
  repeat split; vm_compute; reflexivity.
Qed.

(** [psd] records the hop frequency it was called with. *)
Lemma signal_of_freq (self : SoapyPower) (freq : Q) (iq : list Q) (t : Z) (b : Burst) :
  exists keys, sig_burst (signal_of self freq iq t b) = Some keys /\
               sig_freq keys = freq /\ sig_rate keys = sample_rate self.
Proof. eexists. split; [reflexivity|]. split; reflexivity. Qed.

(** C10: in every record of [measurements], the span endpoints are the hop
    frequency recorded by [psd] minus and plus half the sample rate, in MHz:
    they are taken before the refinement offset is added, so the span is
    centred on the hop frequency while [frequencyMHz] is the hop frequency
    plus the offset. *)
Theorem measurements_span (self : SoapyPower) (pwr_array : list Q) (samples : Z)
    (signal : Signal) (keys : BurstKeys) (freq : Q) (m : Measurement) :
  sig_burst signal = Some keys -> sig_freq keys = freq ->
  measurements self pwr_array samples signal = Ok (Some m) ->
  m_spanMHz m = ((freq - sample_rate self / 2) / 1000000,
                 (freq + sample_rate self / 2) / 1000000) /\
  (fst (m_spanMHz m) + snd (m_spanMHz m)) / 2 == freq / 1000000 /\
  exists leftEdge rightEdge,
    let len := inject_Z (Z.of_nat (length pwr_array)) in
    let offset := offset_of (sig_rate keys / len) (len / 2)
                    (inject_Z (leftEdge + rightEdge) / 2) in
    m_frequencyMHz m = (freq + offset) / 1000000 /\
    m_frequencyMHz m - (fst (m_spanMHz m) + snd (m_spanMHz m)) / 2
      == offset / 1000000.
Proof.
  intros Hkeys Hfreq Hm.
  assert (Hne : pwr_array <> []).
  { intros ->. cbn in Hm. discriminate Hm. }
  destruct (measurements_eval self pwr_array samples signal keys Hne Hkeys)
    as (peak & rssi & leftEdge & rightEdge & _ & _ & _ & _ & Heval).
  rewrite Heval in Hm. destruct (Qltb rssi (threshold self)); [discriminate|].
  cbn zeta in Hm. injection Hm as <-. subst freq.
  cbn [m_spanMHz m_frequencyMHz fst snd].
  split; [reflexivity|]. split; [field|].
  exists leftEdge, rightEdge. cbn zeta. split; [reflexivity | field].
Qed.

Lemma measurements_span_witness :
  let self := mkSoapyPower 2000000 (-85) 1 10 0 false in
  let pwr_array := [-90; -40; -38; -41; -90] in
  let keys := mkBurstKeys 100000000 [] 0 2000000 in
  let signal := mkSignal 3 9 6 (6 # 2000000) (Some keys) in
  exists m,
    measurements self pwr_array 10 signal = Ok (Some m) /\
    m_spanMHz m = ((100000000 - sample_rate self / 2) / 1000000,
                   (100000000 + sample_rate self / 2) / 1000000) /\
    (fst (m_spanMHz m) + snd (m_spanMHz m)) / 2 == 100000000 / 1000000 /\
    exists leftEdge rightEdge,
      let len := inject_Z (Z.of_nat (length pwr_array)) in
      let offset := offset_of (sig_rate keys / len) (len / 2)
                      (inject_Z (leftEdge + rightEdge) / 2) in
      m_frequencyMHz m = (100000000 + offset) / 1000000 /\
      m_frequencyMHz m - (fst (m_spanMHz m) + snd (m_spanMHz m)) / 2
        == offset / 1000000.
Proof.
  intros self pwr_array keys signal.
  eexists. split; [vm_compute; reflexivity|].
  apply (measurements_span self pwr_array 10 signal keys 100000000).
  - reflexivity.
  - reflexivity.
  - vm_compute. reflexivity.
Defined.

(** ** The adaptive threshold *)

Lemma noise_of_nonneg (iq : list Q) : 0 <= noise_of iq.
Proof. unfold noise_of. apply Qabs_nonneg. Qed.

Lemma update_threshold_cases (a noise : Q) :
  (a <= noise /\ update_threshold a noise = a) \/
  (noise < a /\ update_threshold a noise = noise * 100).
Proof.
  unfold update_threshold. destruct (Qltb noise a) eqn:E.
  - right. split; [apply Qltb_lt; exact E | reflexivity].
  - left. split; [apply Qltb_ge; exact E | reflexivity].
Qed.

(** The threshold that a repeat leaves is the updated one, burst or not. *)
Lemma acquisition_threshold (self : SoapyPower) (freq : Q) (hs hs' : HopState)
    (buffer : list complex) (t0 t1 : Z) :
  acquisition self freq hs buffer t0 t1 = Ok hs' ->
  absThreshold hs' = update_threshold (absThreshold hs) (noise_of (iq_of buffer)).
Proof.
  unfold acquisition.
  destruct (detect _ _ _) as [[b|]|e]; cbn [bind]; try discriminate;
    intros [= <-]; reflexivity.
Qed.

Lemma fold_acq_threshold_bound (self : SoapyPower) (freq : Q)
    (reads : list (list complex * Z * Z)) :
  forall hs hs',
    0 <= absThreshold hs ->
    fold_acq self freq hs reads = Ok hs' ->
    0 <= absThreshold hs' /\
    absThreshold hs' <= inject_Z (100 ^ Z.of_nat (length reads)) * absThreshold hs.
Proof.
  induction reads as [|[[buffer t0] t1] rest IH]; intros hs hs' H0 Hf.
  - cbn in Hf. injection Hf as <-. split; [exact H0|].
    change (inject_Z (100 ^ Z.of_nat (length (@nil (list complex * Z * Z))))) with 1.
    lra.
  - cbn [fold_acq] in Hf.
    destruct (acquisition self freq hs buffer t0 t1) as [hs1|e] eqn:Ha;
      cbn [bind] in Hf; [|discriminate].
    pose proof (acquisition_threshold _ _ _ _ _ _ _ Ha) as Hth.
    pose proof (noise_of_nonneg (iq_of buffer)) as Hn.
    assert (H1 : 0 <= absThreshold hs1 /\ absThreshold hs1 <= 100 * absThreshold hs).
    { rewrite Hth.
      destruct (update_threshold_cases (absThreshold hs) (noise_of (iq_of buffer)))
        as [[Hc ->]|[Hc ->]]; split; lra. }
    destruct H1 as [H1 H2].
    destruct (IH hs1 hs' H1 Hf) as [H3 H4].
    split; [exact H3|].
    cbn [length]. rewrite Nat2Z.inj_succ, Z.pow_succ_r by lia.
    rewrite inject_Z_mult. change (inject_Z 100) with 100.
    set (p := inject_Z (100 ^ Z.of_nat (length rest))) in *.
    assert (Hp : 0 <= p).
    { unfold p. change 0 with (inject_Z 0). rewrite <- Zle_Qle.
      apply Z.pow_nonneg. lia. }
    assert (H5 : p * absThreshold hs1 <= p * (100 * absThreshold hs)).
    { rewrite !(Qmult_comm p). apply Qmult_le_compat_r; assumption. }
    setoid_replace (100 * p * absThreshold hs) with (p * (100 * absThreshold hs))
      by ring.
    lra.
Qed.

(** ** The repeat loop and the hop *)

Section SweepProperties.

Variable pow10 : Q -> Q.
Variable read_stream_into_buffer : nat -> list complex.
Variable utcnow : nat -> Z.
Variable psd_result : PsdState -> list Q.
Variable sendto_ok : nat -> bool.
Variable shutdown_at : nat.
Variable time_limit_exceeded : Z -> bool.
Variable start_stream : Z -> Z.

Local Abbreviation flag := (shutdown_set shutdown_at).
Local Abbreviation repeat_loop' := (repeat_loop read_stream_into_buffer utcnow shutdown_at).
Local Abbreviation psd' := (psd pow10 read_stream_into_buffer utcnow shutdown_at).
Local Abbreviation hop' :=
  (hop pow10 read_stream_into_buffer utcnow psd_result sendto_ok shutdown_at).
Local Abbreviation hop_loop' :=
  (hop_loop pow10 read_stream_into_buffer utcnow psd_result sendto_ok shutdown_at).
Local Abbreviation run_loop' :=
  (run_loop pow10 read_stream_into_buffer utcnow psd_result sendto_ok shutdown_at
     time_limit_exceeded).
Local Abbreviation sweep' :=
  (sweep pow10 read_stream_into_buffer utcnow psd_result sendto_ok shutdown_at
     time_limit_exceeded start_stream).
Local Abbreviation reads' := (reads_from read_stream_into_buffer utcnow).

Lemma acquisition_times (self : SoapyPower) (freq : Q) (hs hs' : HopState)
    (buffer : list complex) (t0 t1 : Z) :
  acquisition self freq hs buffer t0 t1 = Ok hs' -> acq_times hs' = Some (t0, t1).
Proof.
  unfold acquisition.
  destruct (detect _ _ _) as [[b|]|e]; cbn [bind]; try discriminate;
    intros [= <-]; reflexivity.
Qed.

Lemma reads_from_S (k m : nat) :
  reads' k (S m) =
    (read_stream_into_buffer k, utcnow (2 * k)%nat, utcnow (2 * k + 1)%nat)
      :: reads' (S k) m.
Proof. reflexivity. Qed.

(** The repeat loop is the fold of its body over the buffers it reads; it
    reads every buffer unless the flag is set meanwhile; it only adds
    acquisitions and flag reads to the trace. *)
Lemma repeat_loop_fold (self : SoapyPower) (freq : Q) (n : nat) :
  forall hs w r w',
    repeat_loop' self freq n hs w = (r, w') ->
    exists m es,
      (m <= n)%nat /\
      acquisitions w' = (acquisitions w + m)%nat /\
      count w' = count w /\ is_streaming w' = is_streaming w /\
      device_freq w' = device_freq w /\
      trace w' = trace w ++ es /\
      Forall repeat_event es /\
      (forall hs', r = Ok hs' ->
         fold_acq self freq hs (reads' (acquisitions w) m) = Ok hs' /\
         (n <> O -> acq_times hs' <> None) /\
         ((length (trace w') <= shutdown_at)%nat -> m = n)).
Proof.
  induction n as [|n IH]; intros hs w r w' H.
  - cbn in H. injection H as <- <-. exists O, [].
    rewrite Nat.add_0_r, app_nil_r.
    repeat (split; [reflexivity || constructor|]).
    intros hs' [= <-]. split; [reflexivity|]. split; [congruence | reflexivity].
  - cbn [repeat_loop] in H. unfold bindM at 1 in H.
    unfold read_buffer in H. cbn [fst snd] in H.
    set (k := acquisitions w) in *.
    set (w1 := mkWorld (trace w ++ [EvAcquire k]) (S k) (count w) (device_freq w)
                 (is_streaming w)) in *.
    unfold bindM at 1 in H. unfold lift in H.
    destruct (acquisition self freq hs (read_stream_into_buffer k)
                (utcnow (2 * k)%nat) (utcnow (2 * k + 1)%nat)) as [hs1|e] eqn:Ha.
    + unfold bindM, read_shutdown in H.
      set (w2 := mkWorld (trace w1 ++ [EvCheck AtRepeat (flag w1)]) (acquisitions w1)
                   (count w1) (device_freq w1) (is_streaming w1)) in *.
      destruct (flag w1) eqn:Hb.
      * cbn in H. injection H as <- <-. exists 1%nat, [EvAcquire k; EvCheck AtRepeat true].
        split; [lia|]. split; [cbn; lia|].
        split; [reflexivity|]. split; [reflexivity|]. split; [reflexivity|].
        split; [cbn; rewrite <- app_assoc; reflexivity|].
        split; [repeat constructor|].
        intros hs' [= <-]. rewrite reads_from_S. cbn [fold_acq]. fold k.
        rewrite Ha. cbn [bind reads_from seq map fold_acq].
        split; [reflexivity|].
        split; [intros _; rewrite (acquisition_times _ _ _ _ _ _ _ Ha); discriminate|].
        intros Hlen. exfalso. unfold shutdown_set in Hb. apply Nat.leb_le in Hb.
        unfold w2 in Hlen. cbn [trace] in Hlen.
        rewrite length_app in Hlen. cbn [length] in Hlen. lia.
      * destruct (IH hs1 w2 r w' H)
          as (m & es & Hm & Hacq & Hcount & Hstr & Hdev & Htr & Hes & Hok).
        exists (S m), (EvAcquire k :: EvCheck AtRepeat false :: es).
        split; [lia|]. split; [rewrite Hacq; cbn; lia|].
        split; [rewrite Hcount; reflexivity|]. split; [rewrite Hstr; reflexivity|].
        split; [rewrite Hdev; reflexivity|].
        split; [rewrite Htr; cbn; rewrite <- !app_assoc; reflexivity|].
        split; [repeat constructor; exact Hes|].
        intros hs' Hr. destruct (Hok hs' Hr) as (Hf & Ht & Hall).
        rewrite reads_from_S. cbn [fold_acq]. fold k. rewrite Ha. cbn [bind].
        split; [exact Hf|]. split.
        -- intros _. destruct n as [|n'].
           ++ cbn in H. injection H as H1 H2. rewrite Hr in H1. injection H1 as <-.
              rewrite (acquisition_times _ _ _ _ _ _ _ Ha). discriminate.
           ++ apply Ht. discriminate.
        -- intros Hlen. rewrite (Hall Hlen). reflexivity.
    + injection H as <- <-. exists 1%nat, [EvAcquire k].
      split; [lia|]. split; [cbn; lia|].
      split; [reflexivity|]. split; [reflexivity|]. split; [reflexivity|].
      split; [reflexivity|]. split; [repeat constructor|].
      intros hs' Hr. discriminate Hr.
Qed.

(** [psd] on a running stream: one [EvHop], then the repeat loop from the
    initial locals. *)
Lemma psd_fold (self : SoapyPower) (freq : Q) (w : World) r w' :
  is_streaming w = true ->
  psd' self freq w = (r, w') ->
  exists m es,
    (m <= Z.to_nat (_buffer_repeats self))%nat /\
    acquisitions w' = (acquisitions w + m)%nat /\
    count w' = count w /\ is_streaming w' = true /\
    trace w' = trace w ++ EvHop freq :: es /\
    Forall repeat_event es /\
    (forall ps t0 t1 sig, r = Ok (ps, t0, t1, sig) ->
       exists hs',
         fold_acq self freq (psd_init pow10 self freq) (reads' (acquisitions w) m)
           = Ok hs' /\
         sig = signal hs' /\ ps = psd_state hs' /\ (1 <= m)%nat /\
         ((length (trace w') <= shutdown_at)%nat ->
            m = Z.to_nat (_buffer_repeats self))).
Proof.
  intros Hstr H. unfold psd in H. rewrite Hstr in H. cbn [negb] in H.
  unfold bindM at 1 in H. unfold emit in H.
  unfold bindM at 1 in H. unfold tune in H. cbn [trace acquisitions count
    device_freq is_streaming] in H.
  set (w1 := mkWorld (trace w ++ [EvHop freq]) (acquisitions w) (count w)
               (Some freq) (is_streaming w)) in *.
  unfold bindM in H.
  destruct (repeat_loop' self freq (Z.to_nat (_buffer_repeats self))
              (psd_init pow10 self freq) w1) as [r1 w2] eqn:Hloop.
  destruct (repeat_loop_fold _ _ _ _ _ _ _ Hloop)
    as (m & es & Hm & Hacq & Hcount & Hs & _ & Htr & Hes & Hok).
  assert (Hw' : w' = w2).
  { destruct r1 as [hs'|e]; [|injection H as _ <-; reflexivity].
    destruct (acq_times hs') as [[t0 t1]|]; injection H as _ <-; reflexivity. }
  subst w'. exists m, es.
  split; [exact Hm|]. split; [exact Hacq|]. split; [exact Hcount|].
  split; [rewrite Hs; exact Hstr|].
  split; [rewrite Htr; cbn [trace w1]; rewrite <- app_assoc; reflexivity|].
  split; [exact Hes|].
  intros ps t0 t1 sig Hr.
  destruct r1 as [hs'|e]; [|rewrite Hr in H; discriminate H].
  destruct (Hok hs' eq_refl) as (Hf & Ht & Hall).
  destruct (acq_times hs') as [[a0 a1]|] eqn:Hat;
    [|rewrite Hr in H; discriminate H].
  rewrite Hr in H. injection H as <- <- <- <-.
  exists hs'. split; [exact Hf|]. split; [reflexivity|]. split; [reflexivity|].
  split; [|exact Hall].
  destruct m as [|m']; [|lia]. cbn in Hf. injection Hf as <-. discriminate Hat.
Qed.

(** [fold_acq] over a concatenation. *)
Lemma fold_acq_app (self : SoapyPower) (freq : Q)
    (r1 r2 : list (list complex * Z * Z)) :
  forall hs,
    fold_acq self freq hs (r1 ++ r2) =
      let? hs1 := fold_acq self freq hs r1 in fold_acq self freq hs1 r2.
Proof.
  induction r1 as [|[[x t0] t1] r1 IH]; intros hs; cbn [app fold_acq bind].
  - reflexivity.
  - destruct (acquisition self freq hs x t0 t1) as [hs1|e]; cbn [bind];
      [apply IH | reflexivity].
Qed.

(** A repeat that detects a burst overwrites [signal]; one that does not
    leaves it. *)
Lemma acquisition_signal (self : SoapyPower) (freq : Q) (hs hs' : HopState)
    (buffer : list complex) (t0 t1 : Z) :
  acquisition self freq hs buffer t0 t1 = Ok hs' ->
  (forall b, detected self hs buffer = Ok (Some b) ->
             signal hs' = signal_of self freq (iq_of buffer) t0 b) /\
  (detected self hs buffer = Ok None -> signal hs' = signal hs).
Proof.
  unfold acquisition, detected.
  destruct (detect _ _ _) as [[b|]|e]; cbn [bind]; try discriminate;
    intros [= <-]; cbn [signal]; split; intros; congruence.
Qed.

Lemma no_burst_in_signal (self : SoapyPower) (freq : Q)
    (reads : list (list complex * Z * Z)) :
  forall hs hs',
    no_burst_in self freq hs reads ->
    fold_acq self freq hs reads = Ok hs' -> signal hs' = signal hs.
Proof.
  induction reads as [|[[x t0] t1] rest IH]; intros hs hs' Hq Hf.
  - cbn in Hf. injection Hf as <-. reflexivity.
  - cbn [fold_acq] in Hf. destruct Hq as [Hd Hrest].
    destruct (acquisition self freq hs x t0 t1) as [hs1|e] eqn:Ha;
      cbn [bind] in Hf; [|discriminate].
    rewrite (IH hs1 hs' (Hrest hs1 eq_refl) Hf).
    apply (acquisition_signal _ _ _ _ _ _ _ Ha). exact Hd.
Qed.

(** The burst recorded at the end of the repeats is the last one detected. *)
Lemma last_burst_wins (self : SoapyPower) (freq : Q)
    (pre post : list (list complex * Z * Z)) (x : list complex) (t0 t1 : Z)
    (hs hs1 hs' : HopState) (b : Burst) :
  fold_acq self freq hs (pre ++ (x, t0, t1) :: post) = Ok hs' ->
  fold_acq self freq hs pre = Ok hs1 ->
  detected self hs1 x = Ok (Some b) ->
  (forall hs2, acquisition self freq hs1 x t0 t1 = Ok hs2 ->
               no_burst_in self freq hs2 post) ->
  signal hs' = signal_of self freq (iq_of x) t0 b.
Proof.
  intros Hf Hpre Hd Hq. rewrite fold_acq_app, Hpre in Hf. cbn [bind fold_acq] in Hf.
  destruct (acquisition self freq hs1 x t0 t1) as [hs2|e] eqn:Ha;
    cbn [bind] in Hf; [|discriminate].
  rewrite (no_burst_in_signal _ _ _ _ _ (Hq hs2 eq_refl) Hf).
  apply (acquisition_signal _ _ _ _ _ _ _ Ha). exact Hd.
Qed.

(** The events of one hop: those of [psd], then one of six endings.  A read
    of the flag returns what the flag is at that point of the trace. *)
Lemma hop_shape (self : SoapyPower) (freq : Q) (w : World) r w' :
  hop' self freq w = (r, w') ->
  exists r1 w1 tail,
    psd' self freq w = (r1, w1) /\
    trace w' = trace w1 ++ tail /\
    is_streaming w' = is_streaming w1 /\
    let sent m :=
      exists ps t0 t1 sig,
        r1 = Ok (ps, t0, t1, sig) /\
        measurements self (psd_result ps)
          (_buffer_len self * _buffer_repeats self) sig = Ok (Some m) in
    let flag_after (c : nat) := (shutdown_at <=? length (trace w1) + c)%nat in
    ((tail = [] /\ exists e, r = Raise e /\ r1 = Raise e) \/
     (exists v, r1 = Ok v) /\
     ((tail = [EvCheck AtHop (flag_after 0%nat)] /\ r = Ok (flag_after 0%nat)) \/
      (tail = [EvMeasure] /\ exists e, r = Raise e) \/
      (tail = [EvMeasure; EvCheck AtHop (flag_after 1%nat)] /\
       r = Ok (flag_after 1%nat)) \/
      (exists m, tail = [EvMeasure; EvSend m; EvCheck AtHop (flag_after 2%nat)] /\
                 r = Ok (flag_after 2%nat) /\ sent m) \/
      (exists m, tail = [EvMeasure; EvSendFail m] /\ r = Raise OSError /\ sent m))).
Proof.
  intros H. unfold hop in H. unfold bindM at 1 in H.
  destruct (psd' self freq w) as [r1 w1] eqn:Hpsd.
  exists r1, w1.
  destruct r1 as [[[[ps t0] t1] sig]|e].
  2:{ injection H as <- <-. exists []. rewrite app_nil_r.
      split; [reflexivity|]. split; [reflexivity|]. split; [reflexivity|].
      left. split; [reflexivity | eexists; split; reflexivity]. }
  unfold bindM at 1 in H.
  destruct (-1 <? sig_start sig)%Z.
  - unfold bindM at 1 in H. unfold emit in H. unfold bindM at 1 in H.
    unfold lift in H.
    destruct (measurements self (psd_result ps)
                (_buffer_len self * _buffer_repeats self) sig) as [[mm|]|e] eqn:Hm.
    + unfold sendto in H. cbn [count trace acquisitions device_freq is_streaming] in H.
      destruct (sendto_ok (count w1)).
      * unfold read_shutdown, shutdown_set in H. injection H as <- <-.
        cbn [trace is_streaming]. rewrite !length_app. cbn [length].
        replace (length (trace w1) + 1 + 1)%nat with (length (trace w1) + 2)%nat by lia.
        eexists. split; [reflexivity|].
        split; [repeat rewrite <- app_assoc; cbn [app]; reflexivity|].
        split; [reflexivity|].
        right. split; [eexists; reflexivity|]. right. right. right. left.
        exists mm. split; [reflexivity|]. split; [reflexivity|].
        exists ps, t0, t1, sig. split; [reflexivity | exact Hm].
      * injection H as <- <-. cbn [trace is_streaming].
        eexists. split; [reflexivity|].
        split; [repeat rewrite <- app_assoc; cbn [app]; reflexivity|].
        split; [reflexivity|].
        right. split; [eexists; reflexivity|]. right. right. right. right.
        exists mm. split; [reflexivity|]. split; [reflexivity|].
        exists ps, t0, t1, sig. split; [reflexivity | exact Hm].
    + unfold ret, read_shutdown, shutdown_set in H. injection H as <- <-.
      cbn [trace is_streaming]. rewrite !length_app. cbn [length].
      eexists. split; [reflexivity|].
      split; [repeat rewrite <- app_assoc; cbn [app]; reflexivity|].
      split; [reflexivity|].
      right. split; [eexists; reflexivity|]. right. right. left.
      split; reflexivity.
    + injection H as <- <-. cbn [trace is_streaming].
      eexists. split; [reflexivity|].
      split; [reflexivity|]. split; [reflexivity|].
      right. split; [eexists; reflexivity|]. right. left.
      split; [reflexivity | eexists; reflexivity].
  - unfold ret, read_shutdown, shutdown_set in H. injection H as <- <-.
    cbn [trace is_streaming]. rewrite Nat.add_0_r.
    eexists. split; [reflexivity|].
    split; [reflexivity|]. split; [reflexivity|].
    right. split; [eexists; reflexivity|]. left. split; reflexivity.
Qed.

(** ** Events after the shutdown flag is set *)

Lemma late_app_one (k : kind) (tr : list event) (e : event) :
  late shutdown_at k (tr ++ [e]) =
    (late shutdown_at k tr +
     if (shutdown_at <=? length tr)%nat
     then (if has_kind k e then 1 else 0) else 0)%nat.
Proof.
  unfold late, after_shutdown, count_kind.
  rewrite skipn_app, filter_app, length_app.
  destruct (shutdown_at <=? length tr)%nat eqn:E.
  - apply Nat.leb_le in E.
    replace (shutdown_at - length tr)%nat with O by lia.
    cbn [skipn filter]. destruct (has_kind k e); reflexivity.
  - apply Nat.leb_gt in E.
    destruct (shutdown_at - length tr)%nat as [|d] eqn:Ed; [lia|].
    cbn [skipn]. rewrite skipn_nil. reflexivity.
Qed.

Lemma late_app_other (k : kind) (tr : list event) (e : event) :
  has_kind k e = false -> late shutdown_at k (tr ++ [e]) = late shutdown_at k tr.
Proof.
  intros H. rewrite late_app_one, H. destruct (shutdown_at <=? length tr)%nat; lia.
Qed.

Lemma late_app_le (k : kind) (tr : list event) (e : event) :
  (late shutdown_at k (tr ++ [e]) <= late shutdown_at k tr + 1)%nat.
Proof.
  rewrite late_app_one.
  destruct (shutdown_at <=? length tr)%nat; [destruct (has_kind k e)|]; lia.
Qed.

(** Before the flag is set nothing is late. *)
Lemma late_clean (k : kind) (tr : list event) :
  (length tr <= shutdown_at)%nat -> late shutdown_at k tr = O.
Proof.
  intros H. unfold late, after_shutdown. rewrite skipn_all2 by exact H. reflexivity.
Qed.

Lemma seen_app_one (tr : list event) (e : event) :
  seen (tr ++ [e]) = seen tr || observed e.
Proof. unfold seen. rewrite existsb_app. cbn. rewrite orb_false_r. reflexivity. Qed.

Lemma calm_nil : calm [].
Proof.
  intros pre s post H. destruct pre; discriminate H.
Qed.

Lemma seen_mid (pre post : list event) (s : site) :
  seen (pre ++ EvCheck s true :: post) = true.
Proof.
  unfold seen. rewrite existsb_app. cbn. apply orb_true_r.
Qed.

Lemma calm_app_one (tr : list event) (e : event) :
  calm tr -> (seen tr = true -> is_start e = false) -> calm (tr ++ [e]).
Proof.
  intros Hc He pre s post Heq.
  induction post as [|x post' _] using rev_ind; [constructor|].
  assert (H : tr ++ [e] = (pre ++ EvCheck s true :: post') ++ [x]).
  { rewrite Heq, <- app_assoc. reflexivity. }
  apply app_inj_tail in H. destruct H as [Htr <-].
  apply Forall_app. split.
  - apply (Hc pre s post' Htr).
  - constructor; [|constructor]. apply He. rewrite Htr. apply seen_mid.
Qed.

(** The repeat loop, entered before any read found the flag set: at most one
    acquisition begins once the flag is set, and the loop ends right after a
    read of the flag. *)
Lemma repeat_loop_shutdown (self : SoapyPower) (freq : Q) (n : nat) :
  forall hs w r w',
    repeat_loop' self freq n hs w = (r, w') ->
    seen (trace w) = false -> calm (trace w) ->
    late shutdown_at KAcquire (trace w) = O ->
    calm (trace w') /\
    (late shutdown_at KAcquire (trace w') <= 1)%nat /\
    (forall k, k <> KAcquire ->
               late shutdown_at k (trace w') = late shutdown_at k (trace w)) /\
    (forall hs', r = Ok hs' -> n <> O -> settled shutdown_at (trace w')).
Proof.
  induction n as [|n IH]; intros hs w r w' H Hseen Hcalm Hlate.
  - cbn in H. injection H as <- <-.
    split; [exact Hcalm|]. split; [lia|]. split; [reflexivity|].
    intros hs' _ Hn. contradiction.
  - cbn [repeat_loop] in H. unfold bindM at 1 in H.
    unfold read_buffer in H. cbn [fst snd] in H.
    set (k := acquisitions w) in *.
    set (w1 := mkWorld (trace w ++ [EvAcquire k]) (S k) (count w) (device_freq w)
                 (is_streaming w)) in *.
    assert (Hseen1 : seen (trace w1) = false).
    { cbn [trace w1]. rewrite seen_app_one, Hseen. reflexivity. }
    assert (Hcalm1 : calm (trace w1)).
    { cbn [trace w1]. apply calm_app_one; [exact Hcalm | congruence]. }
    assert (Hlate1 : (late shutdown_at KAcquire (trace w1) <= 1)%nat).
    { cbn [trace w1]. pose proof (late_app_le KAcquire (trace w) (EvAcquire k)). lia. }
    assert (Hoth1 : forall k', k' <> KAcquire ->
              late shutdown_at k' (trace w1) = late shutdown_at k' (trace w)).
    { intros k' Hk. cbn [trace w1]. apply late_app_other.
      destruct k'; try reflexivity. contradiction. }
    unfold bindM at 1 in H. unfold lift in H.
    destruct (acquisition self freq hs (read_stream_into_buffer k)
                (utcnow (2 * k)%nat) (utcnow (2 * k + 1)%nat)) as [hs1|e] eqn:Ha.
    + unfold bindM, read_shutdown in H.
      set (w2 := mkWorld (trace w1 ++ [EvCheck AtRepeat (flag w1)]) (acquisitions w1)
                   (count w1) (device_freq w1) (is_streaming w1)) in *.
      assert (Hcalm2 : calm (trace w2)).
      { cbn [trace w2]. apply calm_app_one; [exact Hcalm1 | reflexivity]. }
      assert (Hoth2 : forall k', late shutdown_at k' (trace w2)
                                 = late shutdown_at k' (trace w1)).
      { intros k'. cbn [trace w2]. apply late_app_other. destruct k'; reflexivity. }
      destruct (flag w1) eqn:Hb.
      * cbn in H. injection H as <- <-.
        split; [exact Hcalm2|]. split; [rewrite Hoth2; exact Hlate1|].
        split; [intros k' Hk; rewrite Hoth2; apply Hoth1; exact Hk|].
        intros hs' _ _. left. unfold shutdown_set in Hb. apply Nat.leb_le in Hb.
        split.
        -- unfold w2. cbn [trace]. rewrite seen_app_one. apply orb_true_r.
        -- unfold w2. cbn [trace]. rewrite length_app. lia.
      * unfold shutdown_set in Hb. apply Nat.leb_gt in Hb.
        assert (Hlen2 : (length (trace w2) <= shutdown_at)%nat).
        { unfold w2. cbn [trace]. rewrite length_app. cbn [length]. lia. }
        assert (Hseen2 : seen (trace w2) = false).
        { unfold w2. cbn [trace]. rewrite seen_app_one, Hseen1. reflexivity. }
        destruct (IH hs1 w2 r w' H Hseen2 Hcalm2 (late_clean _ _ Hlen2))
          as (Hc & Hl & Ho & Hok).
        split; [exact Hc|]. split; [exact Hl|].
        split; [intros k' Hk; rewrite (Ho k' Hk), Hoth2; apply Hoth1; exact Hk|].
        intros hs' Hr _. destruct n as [|n'].
        -- cbn in H. injection H as _ <-. right. split; assumption.
        -- apply (Hok hs' Hr). discriminate.
    + injection H as <- <-.
      split; [exact Hcalm1|]. split; [exact Hlate1|]. split; [exact Hoth1|].
      intros hs' Hr. discriminate Hr.
Qed.

(** [psd], entered before any read found the flag set. *)
Lemma psd_shutdown (self : SoapyPower) (freq : Q) (w : World) r w' :
  psd' self freq w = (r, w') ->
  seen (trace w) = false -> calm (trace w) ->
  late shutdown_at KHop (trace w) = O ->
  late shutdown_at KAcquire (trace w) = O ->
  calm (trace w') /\
  (late shutdown_at KHop (trace w') <= 1)%nat /\
  (late shutdown_at KAcquire (trace w') <= 1)%nat /\
  (forall k, k <> KHop -> k <> KAcquire ->
             late shutdown_at k (trace w') = late shutdown_at k (trace w)) /\
  (forall v, r = Ok v -> settled shutdown_at (trace w')).
Proof.
  intros H Hseen Hcalm Hhop Hacq. unfold psd in H.
  destruct (negb (is_streaming w)).
  { injection H as <- <-. split; [exact Hcalm|]. split; [lia|]. split; [lia|].
    split; [reflexivity|]. intros v Hv. discriminate Hv. }
  unfold bindM at 1 in H. unfold emit in H.
  unfold bindM at 1 in H. unfold tune in H. cbn [trace acquisitions count
    device_freq is_streaming] in H.
  set (w1 := mkWorld (trace w ++ [EvHop freq]) (acquisitions w) (count w)
               (Some freq) (is_streaming w)) in *.
  assert (Hseen1 : seen (trace w1) = false).
  { cbn [trace w1]. rewrite seen_app_one, Hseen. reflexivity. }
  assert (Hcalm1 : calm (trace w1)).
  { cbn [trace w1]. apply calm_app_one; [exact Hcalm | congruence]. }
  assert (Hhop1 : (late shutdown_at KHop (trace w1) <= 1)%nat).
  { cbn [trace w1]. pose proof (late_app_le KHop (trace w) (EvHop freq)). lia. }
  assert (Hoth1 : forall k, k <> KHop ->
            late shutdown_at k (trace w1) = late shutdown_at k (trace w)).
  { intros k Hk. cbn [trace w1]. apply late_app_other.
    destruct k; try reflexivity. contradiction. }
  unfold bindM in H.
  destruct (repeat_loop' self freq (Z.to_nat (_buffer_repeats self))
              (psd_init pow10 self freq) w1) as [r1 w2] eqn:Hloop.
  assert (Hacq1 : late shutdown_at KAcquire (trace w1) = O).
  { rewrite Hoth1 by discriminate. exact Hacq. }
  destruct (repeat_loop_shutdown _ _ _ _ _ _ _ Hloop Hseen1 Hcalm1 Hacq1)
    as (Hc & Hl & Ho & Hok).
  assert (Hw' : w' = w2).
  { destruct r1 as [hs'|e]; [|injection H as _ <-; reflexivity].
    destruct (acq_times hs') as [[t0 t1]|]; injection H as _ <-; reflexivity. }
  subst w'.
  split; [exact Hc|].
  split; [rewrite (Ho KHop) by discriminate; exact Hhop1|].
  split; [exact Hl|].
  split; [intros k Hk1 Hk2; rewrite (Ho k Hk2); apply Hoth1; exact Hk1|].
  intros v Hv. destruct r1 as [hs'|e]; [|rewrite Hv in H; discriminate H].
  apply (Hok hs' eq_refl). intros Hn. rewrite Hn in Hloop. cbn in Hloop.
  injection Hloop as <- _. cbn in H. rewrite Hv in H. discriminate H.
Qed.

Lemma count_kind_cons (k : kind) (e : event) (es : list event) :
  count_kind k (e :: es) = ((if has_kind k e then 1 else 0) + count_kind k es)%nat.
Proof. unfold count_kind. cbn [filter]. destruct (has_kind k e); reflexivity. Qed.

Lemma late_app (k : kind) (es : list event) :
  forall tr,
    (late shutdown_at k (tr ++ es) <= late shutdown_at k tr + count_kind k es)%nat /\
    (count_kind k es = O -> late shutdown_at k (tr ++ es) = late shutdown_at k tr).
Proof.
  induction es as [|e es IH]; intros tr.
  - rewrite app_nil_r. cbn. split; [lia | reflexivity].
  - replace (tr ++ e :: es) with ((tr ++ [e]) ++ es)
      by (rewrite <- app_assoc; reflexivity).
    destruct (IH (tr ++ [e])) as [H1 H2]. rewrite count_kind_cons.
    pose proof (late_app_one k tr e) as H3.
    split.
    + destruct (shutdown_at <=? length tr)%nat; destruct (has_kind k e); lia.
    + intros H0. destruct (has_kind k e); [discriminate|].
      rewrite H2 by exact H0. destruct (shutdown_at <=? length tr)%nat; lia.
Qed.

Lemma calm_app (es : list event) :
  forall tr, calm tr -> Forall (fun e => is_start e = false) es -> calm (tr ++ es).
Proof.
  induction es as [|e es IH]; intros tr Hc Hes.
  - rewrite app_nil_r. exact Hc.
  - replace (tr ++ e :: es) with ((tr ++ [e]) ++ es)
      by (rewrite <- app_assoc; reflexivity).
    apply Forall_cons_iff in Hes. destruct Hes as [He Hes].
    apply IH; [|exact Hes]. apply calm_app_one; [exact Hc | intros _; exact He].
Qed.

Lemma seen_app (tr es : list event) : seen (tr ++ es) = seen tr || seen es.
Proof. unfold seen. apply existsb_app. Qed.

(** A read of the flag after events that are not such reads settles the state. *)
Lemma check_settles (tr prefix : list event) (s : site) :
  settled shutdown_at tr -> seen prefix = false ->
  let b := (shutdown_at <=? length tr + length prefix)%nat in
  let tr' := tr ++ prefix ++ [EvCheck s b] in
  (b = true -> seen tr' = true /\ (shutdown_at <= length tr')%nat) /\
  (b = false -> seen tr' = false /\ (length tr' <= shutdown_at)%nat).
Proof.
  intros Hset Hpre. cbn zeta.
  rewrite !seen_app, !length_app, Hpre. cbn [length seen existsb observed orb].
  destruct (shutdown_at <=? length tr + length prefix)%nat eqn:E.
  - apply Nat.leb_le in E. split; [intros _ | discriminate].
    split; [apply orb_true_r | lia].
  - apply Nat.leb_gt in E. split; [discriminate | intros _].
    destruct Hset as [[_ Hs]|[Hs _]]; [lia|].
    rewrite Hs. split; [reflexivity | lia].
Qed.

(** One hop, entered before any read found the flag set. *)
Lemma hop_shutdown (self : SoapyPower) (freq : Q) (w : World) r w' :
  hop' self freq w = (r, w') ->
  seen (trace w) = false -> calm (trace w) ->
  (forall k, k <> KRun -> late shutdown_at k (trace w) = O) ->
  calm (trace w') /\
  (forall k, k <> KRun -> (late shutdown_at k (trace w') <= 1)%nat) /\
  late shutdown_at KRun (trace w') = late shutdown_at KRun (trace w) /\
  (r = Ok true -> seen (trace w') = true /\ (shutdown_at <= length (trace w'))%nat) /\
  (r = Ok false -> seen (trace w') = false /\ (length (trace w') <= shutdown_at)%nat).
Proof.
  intros H Hseen Hcalm Hzero.
  destruct (hop_shape self freq w r w' H)
    as (r1 & w1 & tail & Hpsd & Htr & _ & Hcases). cbn zeta in Hcases.
  destruct (psd_shutdown self freq w r1 w1 Hpsd Hseen Hcalm
              (Hzero KHop ltac:(discriminate)) (Hzero KAcquire ltac:(discriminate)))
    as (Hc1 & Hh1 & Ha1 & Ho1 & Hset1).
  assert (Hlate1 : forall k, k <> KRun ->
            (late shutdown_at k (trace w1) + count_kind k tail <= 1)%nat ->
            (late shutdown_at k (trace w') <= 1)%nat).
  { intros k _ Hk. rewrite Htr. pose proof (proj1 (late_app k tail (trace w1))). lia. }
  assert (Hm1 : late shutdown_at KMeasure (trace w1) = O).
  { rewrite Ho1 by discriminate. apply Hzero. discriminate. }
  assert (Hs1 : late shutdown_at KSend (trace w1) = O).
  { rewrite Ho1 by discriminate. apply Hzero. discriminate. }
  assert (Hrun : count_kind KRun tail = O ->
            late shutdown_at KRun (trace w') = late shutdown_at KRun (trace w)).
  { intros H0. rewrite Htr, (proj2 (late_app KRun tail (trace w1)) H0).
    apply Ho1; discriminate. }
  assert (Hcalm' : Forall (fun e => is_start e = false) tail -> calm (trace w')).
  { intros Hf. rewrite Htr. apply calm_app; assumption. }
  destruct Hcases as [[-> [e [-> _]]] | [[v Hv] Hcases]].
  { split; [apply Hcalm'; constructor|].
    split; [intros k Hk; apply (Hlate1 k Hk); destruct k; cbn; try lia; contradiction|].
    split; [apply Hrun; reflexivity|]. split; discriminate. }
  specialize (Hset1 v Hv).
  destruct Hcases as [[-> ->] | [[-> [e ->]] | [[-> ->] | [[m [-> [-> _]]] | [m [-> [-> _]]]]]]].
  - split; [apply Hcalm'; repeat constructor|].
    split; [intros k Hk; apply (Hlate1 k Hk); destruct k; cbn; try lia; contradiction|].
    split; [apply Hrun; reflexivity|].
    rewrite Htr.
    pose proof (check_settles (trace w1) [] AtHop Hset1 eq_refl) as Hchk.
    cbn [length app] in Hchk. cbn zeta in Hchk.
    destruct Hchk as [Ht Hf].
    split; intros [= Hb]; [apply Ht | apply Hf]; exact Hb.
  - split; [apply Hcalm'; repeat constructor|].
    split; [intros k Hk; apply (Hlate1 k Hk); destruct k; cbn; try lia; contradiction|].
    split; [apply Hrun; reflexivity|]. split; discriminate.
  - split; [apply Hcalm'; repeat constructor|].
    split; [intros k Hk; apply (Hlate1 k Hk); destruct k; cbn; try lia; contradiction|].
    split; [apply Hrun; reflexivity|].
    rewrite Htr.
    pose proof (check_settles (trace w1) [EvMeasure] AtHop Hset1 eq_refl) as Hchk.
    cbn [length app] in Hchk. cbn zeta in Hchk.
    destruct Hchk as [Ht Hf].
    split; intros [= Hb]; [apply Ht | apply Hf]; exact Hb.
  - split; [apply Hcalm'; repeat constructor|].
    split; [intros k Hk; apply (Hlate1 k Hk); destruct k; cbn; try lia; contradiction|].
    split; [apply Hrun; reflexivity|].
    rewrite Htr.
    pose proof (check_settles (trace w1) [EvMeasure; EvSend m] AtHop Hset1 eq_refl)
      as Hchk.
    cbn [length app] in Hchk. cbn zeta in Hchk.
    destruct Hchk as [Ht Hf].
    split; intros [= Hb]; [apply Ht | apply Hf]; exact Hb.
  - split; [apply Hcalm'; repeat constructor|].
    split; [intros k Hk; apply (Hlate1 k Hk); destruct k; cbn; try lia; contradiction|].
    split; [apply Hrun; reflexivity|]. split; discriminate.
Qed.

(** The loop over the hops of one run. *)
Lemma hop_loop_shutdown (self : SoapyPower) (freq_list : list Q) :
  forall w r w',
    hop_loop' self freq_list w = (r, w') ->
    seen (trace w) = false -> calm (trace w) ->
    (forall k, k <> KRun -> late shutdown_at k (trace w) = O) ->
    calm (trace w') /\
    (forall k, k <> KRun -> (late shutdown_at k (trace w') <= 1)%nat) /\
    late shutdown_at KRun (trace w') = late shutdown_at KRun (trace w) /\
    (r = Ok tt -> seen (trace w') = true -> (shutdown_at <= length (trace w'))%nat).
Proof.
  induction freq_list as [|freq rest IH]; intros w r w' H Hseen Hcalm Hzero.
  - cbn in H. injection H as <- <-.
    split; [exact Hcalm|]. split; [intros k Hk; rewrite (Hzero k Hk); lia|].
    split; [reflexivity|]. congruence.
  - cbn [hop_loop] in H. unfold bindM in H.
    destruct (hop' self freq w) as [r1 w1] eqn:Hhop.
    destruct (hop_shutdown self freq w r1 w1 Hhop Hseen Hcalm Hzero)
      as (Hc1 & Hl1 & Hr1 & Ht & Hf).
    destruct r1 as [[|]|e].
    + injection H as <- <-. destruct (Ht eq_refl) as [_ Hs].
      split; [exact Hc1|]. split; [exact Hl1|]. split; [exact Hr1|].
      intros _ _; exact Hs.
    + destruct (Hf eq_refl) as [Hs1 Hlen1].
      destruct (IH w1 r w' H Hs1 Hc1 (fun k _ => late_clean k _ Hlen1))
        as (Hc & Hl & Hr & Hs).
      split; [exact Hc|]. split; [exact Hl|]. split; [congruence | exact Hs].
    + injection H as <- <-.
      split; [exact Hc1|]. split; [exact Hl1|]. split; [exact Hr1|].
      discriminate.
Qed.

(** The loop over the runs: after the flag is set at most one event of each
    kind begins, and nothing begins after a read that found the flag set. *)
Lemma run_loop_shutdown (self : SoapyPower) (freq_list : list Q) (runs : Z)
    (fuel : nat) :
  forall run w r w',
    run_loop' fuel self freq_list runs run w = Some (r, w') ->
    calm (trace w) ->
    (forall k, (late shutdown_at k (trace w) <= 1)%nat) ->
    (flag w = false -> seen (trace w) = false) ->
    calm (trace w') /\ (forall k, (late shutdown_at k (trace w') <= 1)%nat).
Proof.
  induction fuel as [|fuel IH]; intros run w r w' H Hcalm Hlate Hmono;
    [discriminate H|].
  cbn [run_loop] in H. unfold read_shutdown in H.
  set (w1 := mkWorld (trace w ++ [EvCheck AtWhile (flag w)]) (acquisitions w)
               (count w) (device_freq w) (is_streaming w)) in *.
  assert (Hcalm1 : calm (trace w1)).
  { cbn [trace w1]. apply calm_app_one; [exact Hcalm | reflexivity]. }
  assert (Hlate1 : forall k, late shutdown_at k (trace w1) = late shutdown_at k (trace w)).
  { intros k. cbn [trace w1]. apply late_app_other. destruct k; reflexivity. }
  destruct (flag w) eqn:Hb; cbn [negb andb] in H.
  { injection H as <- <-. split; [exact Hcalm1|].
    intros k. rewrite Hlate1. apply Hlate. }
  destruct ((runs =? 0)%Z || (run <? runs)%Z).
  2:{ injection H as <- <-. split; [exact Hcalm1|].
      intros k. rewrite Hlate1. apply Hlate. }
  specialize (Hmono eq_refl).
  unfold shutdown_set in Hb. apply Nat.leb_gt in Hb.
  assert (Hlen1 : (length (trace w1) <= shutdown_at)%nat).
  { cbn [trace w1]. rewrite length_app. cbn [length]. lia. }
  assert (Hseen1 : seen (trace w1) = false).
  { cbn [trace w1]. rewrite seen_app_one, Hmono. reflexivity. }
  unfold bindM, emit in H.
  set (w2 := mkWorld (trace w1 ++ [EvRun (run + 1)]) (acquisitions w1) (count w1)
               (device_freq w1) (is_streaming w1)) in *.
  assert (Hseen2 : seen (trace w2) = false).
  { cbn [trace w2]. rewrite seen_app_one, Hseen1. reflexivity. }
  assert (Hcalm2 : calm (trace w2)).
  { cbn [trace w2]. apply calm_app_one; [exact Hcalm1 | congruence]. }
  assert (Hzero2 : forall k, k <> KRun -> late shutdown_at k (trace w2) = O).
  { intros k Hk. cbn [trace w2]. rewrite late_app_other.
    - apply late_clean. exact Hlen1.
    - destruct k; try reflexivity. contradiction. }
  assert (Hrun2 : (late shutdown_at KRun (trace w2) <= 1)%nat).
  { cbn [trace w2]. pose proof (late_app_le KRun (trace w1) (EvRun (run + 1))).
    rewrite (late_clean KRun _ Hlen1) in H0. exact H0. }
  destruct (hop_loop' self freq_list w2) as [r3 w3] eqn:Hloop.
  destruct (hop_loop_shutdown self freq_list w2 r3 w3 Hloop Hseen2 Hcalm2 Hzero2)
    as (Hc3 & Hl3 & Hr3 & Hs3).
  assert (Hall3 : forall k, (late shutdown_at k (trace w3) <= 1)%nat).
  { intros k. destruct k; try (apply Hl3; discriminate). rewrite Hr3. exact Hrun2. }
  destruct r3 as [[]|e].
  - destruct (time_limit_exceeded (run + 1)).
    + injection H as <- <-. split; assumption.
    + apply (IH _ _ _ _ H Hc3 Hall3).
      intros Hf. destruct (seen (trace w3)) eqn:E; [|reflexivity].
      specialize (Hs3 eq_refl eq_refl).
      unfold shutdown_set in Hf. apply Nat.leb_gt in Hf. lia.
  - injection H as <- <-. split; assumption.
Qed.

(** ** What each level adds to the trace *)

Lemma psd_frame (self : SoapyPower) (freq : Q) (w : World) r w1 :
  psd' self freq w = (r, w1) ->
  exists es,
    trace w1 = trace w ++ es /\ is_streaming w1 = is_streaming w /\
    count w1 = count w /\ Forall psd_event es.
Proof.
  intros H. destruct (is_streaming w) eqn:Hstr.
  - destruct (psd_fold self freq w r w1 Hstr H)
      as (m & es & _ & _ & Hc & Hs & Htr & Hes & _).
    exists (EvHop freq :: es). split; [exact Htr|]. split; [exact Hs|].
    split; [exact Hc|]. constructor; [exact I|].
    eapply Forall_impl; [|exact Hes]. intros e He. destruct e; try exact He; exact I.
  - unfold psd in H. rewrite Hstr in H. injection H as <- <-.
    exists []. rewrite app_nil_r. repeat split; [exact Hstr | constructor].
Qed.

Lemma psd_event_facts (es : list event) :
  Forall psd_event es ->
  count_kind KSend es = O /\ count_kind KMeasure es = O /\ no_send_fail es /\
  (forall m, ~ In (EvSend m) es) /\ (forall m, ~ In (EvSendFail m) es).
Proof.
  induction 1 as [|e es He _ IH].
  - repeat split; intros m [].
  - destruct IH as (H1 & H2 & H3 & H4 & H5).
    destruct e; try contradiction; rewrite !count_kind_cons; cbn;
      (split; [exact H1|]); (split; [exact H2|]); (split; [exact H3|]);
      split; intros m [Hm|Hm]; try discriminate Hm;
      [apply (H4 m Hm) | apply (H5 m Hm) | apply (H4 m Hm) | apply (H5 m Hm)
      | apply (H4 m Hm) | apply (H5 m Hm)].
Qed.

Lemma no_send_fail_app (a b : list event) :
  no_send_fail (a ++ b) <-> no_send_fail a /\ no_send_fail b.
Proof.
  unfold no_send_fail. rewrite existsb_app, orb_false_iff. reflexivity.
Qed.

(** One hop sends at most one datagram, made from the signal and the PSD that
    [psd] returned; a failed send ends the hop with [OSError], last in the
    trace. *)
Lemma hop_frame (self : SoapyPower) (freq : Q) (w : World) r w' :
  hop' self freq w = (r, w') ->
  exists es,
    trace w' = trace w ++ es /\ is_streaming w' = is_streaming w /\
    (count_kind KSend es <= 1)%nat /\
    (forall m, In (EvSend m) es \/ In (EvSendFail m) es ->
       exists ps t0 t1 sig w1,
         psd' self freq w = (Ok (ps, t0, t1, sig), w1) /\
         measurements self (psd_result ps)
           (_buffer_len self * _buffer_repeats self) sig = Ok (Some m)) /\
    (no_send_fail es \/
     (r = Raise OSError /\
      exists pre m, es = pre ++ [EvSendFail m] /\ no_send_fail pre)).
Proof.
  intros H.
  destruct (hop_shape self freq w r w' H)
    as (r1 & w1 & tail & Hpsd & Htr & Hs & Hcases). cbn zeta in Hcases.
  destruct (psd_frame self freq w r1 w1 Hpsd) as (es & Htr1 & Hs1 & _ & Hes).
  destruct (psd_event_facts es Hes) as (Hk & _ & Hnf & Hns & Hnsf).
  exists (es ++ tail).
  split; [rewrite Htr, Htr1, app_assoc; reflexivity|].
  split; [congruence|].
  assert (Hcount : (count_kind KSend tail <= 1)%nat ->
                   (count_kind KSend (es ++ tail) <= 1)%nat).
  { unfold count_kind in *. rewrite filter_app, length_app. lia. }
  assert (Hsent : forall m0 : Measurement,
            (In (EvSend m0) tail \/ In (EvSendFail m0) tail ->
             exists ps t0 t1 sig,
               r1 = Ok (ps, t0, t1, sig) /\
               measurements self (psd_result ps)
                 (_buffer_len self * _buffer_repeats self) sig = Ok (Some m0)) ->
            In (EvSend m0) (es ++ tail) \/ In (EvSendFail m0) (es ++ tail) ->
            exists ps t0 t1 sig w0,
              psd' self freq w = (Ok (ps, t0, t1, sig), w0) /\
              measurements self (psd_result ps)
                (_buffer_len self * _buffer_repeats self) sig = Ok (Some m0)).
  { intros m0 Ht Hin.
    assert (Hin' : In (EvSend m0) tail \/ In (EvSendFail m0) tail).
    { destruct Hin as [Hin|Hin]; apply in_app_or in Hin;
        destruct Hin as [Hin|Hin];
        [exfalso; apply (Hns _ Hin) | left; exact Hin
        | exfalso; apply (Hnsf _ Hin) | right; exact Hin]. }
    destruct (Ht Hin') as (ps & t0 & t1 & sig & Hr1 & Hm).
    exists ps, t0, t1, sig, w1. rewrite Hpsd, Hr1. split; [reflexivity | exact Hm]. }
  assert (Hnofail : no_send_fail tail -> no_send_fail (es ++ tail)).
  { intros Ht. apply no_send_fail_app. split; assumption. }
  destruct Hcases as [[-> [e [-> _]]] | [[v Hv] Hcases]].
  { split; [apply Hcount; cbn; lia|].
    split; [intros m0; apply Hsent; intros [[]|[]]|].
    left. apply Hnofail. reflexivity. }
  destruct Hcases as [[-> ->] | [[-> [e ->]] | [[-> ->] | [[m [-> [-> Hm]]] | [m [-> [-> Hm]]]]]]].
  - split; [apply Hcount; cbn; lia|].
    split; [intros m0; apply Hsent; intros [[H0|[]]|[H0|[]]]; discriminate H0|].
    left. apply Hnofail. reflexivity.
  - split; [apply Hcount; cbn; lia|].
    split; [intros m0; apply Hsent; intros [[H0|[]]|[H0|[]]]; discriminate H0|].
    left. apply Hnofail. reflexivity.
  - split; [apply Hcount; cbn; lia|].
    split; [intros m0; apply Hsent;
            intros [[H0|[H0|[]]]|[H0|[H0|[]]]]; discriminate H0|].
    left. apply Hnofail. reflexivity.
  - split; [apply Hcount; cbn; lia|].
    split.
    + intros m0; apply Hsent.
      intros [[H0|[H0|[H0|[]]]]|[H0|[H0|[H0|[]]]]]; try discriminate H0.
      injection H0 as <-. exact Hm.
    + left. apply Hnofail. reflexivity.
  - split; [apply Hcount; cbn; lia|].
    split.
    + intros m0; apply Hsent.
      intros [[H0|[H0|[]]]|[H0|[H0|[]]]]; try discriminate H0.
      injection H0 as <-. exact Hm.
    + right. split; [reflexivity|].
      exists (es ++ [EvMeasure]), m.
      split; [rewrite <- app_assoc; reflexivity|].
      apply no_send_fail_app. split; [exact Hnf | reflexivity].
Qed.

Lemma send_fail_last_app (es1 es2 : list event) (r : result unit) :
  no_send_fail es1 ->
  (no_send_fail es2 \/
   (r = Raise OSError /\ exists pre m, es2 = pre ++ [EvSendFail m] /\ no_send_fail pre)) ->
  no_send_fail (es1 ++ es2) \/
  (r = Raise OSError /\
   exists pre m, es1 ++ es2 = pre ++ [EvSendFail m] /\ no_send_fail pre).
Proof.
  intros H1 [H2 | [Hr (pre & m & -> & Hpre)]].
  - left. apply no_send_fail_app. split; assumption.
  - right. split; [exact Hr|]. exists (es1 ++ pre), m.
    split; [rewrite app_assoc; reflexivity|].
    apply no_send_fail_app. split; assumption.
Qed.

Lemma hop_loop_frame (self : SoapyPower) (freq_list : list Q) :
  forall w r w',
    hop_loop' self freq_list w = (r, w') ->
    exists es,
      trace w' = trace w ++ es /\ is_streaming w' = is_streaming w /\
      (no_send_fail es \/
       (r = Raise OSError /\
        exists pre m, es = pre ++ [EvSendFail m] /\ no_send_fail pre)).
Proof.
  induction freq_list as [|freq rest IH]; intros w r w' H.
  - cbn in H. injection H as <- <-. exists []. rewrite app_nil_r.
    split; [reflexivity|]. split; [reflexivity|]. left. reflexivity.
  - cbn [hop_loop] in H. unfold bindM in H.
    destruct (hop' self freq w) as [r1 w1] eqn:Hhop.
    destruct (hop_frame self freq w r1 w1 Hhop) as (es1 & Htr1 & Hs1 & _ & _ & Hf1).
    destruct r1 as [[|]|e].
    + injection H as <- <-. exists es1. split; [exact Htr1|]. split; [exact Hs1|].
      left. destruct Hf1 as [Hf1|[Hr _]]; [exact Hf1 | discriminate Hr].
    + destruct (IH w1 r w' H) as (es2 & Htr2 & Hs2 & Hf2).
      exists (es1 ++ es2). split; [rewrite Htr2, Htr1, app_assoc; reflexivity|].
      split; [congruence|].
      apply send_fail_last_app; [|exact Hf2].
      destruct Hf1 as [Hf1|[Hr _]]; [exact Hf1 | discriminate Hr].
    + injection H as <- <-. exists es1. split; [exact Htr1|]. split; [exact Hs1|].
      destruct Hf1 as [Hf1|[Hr Hx]]; [left; exact Hf1|].
      right. injection Hr as ->. split; [reflexivity | exact Hx].
Qed.

Lemma run_loop_frame (self : SoapyPower) (freq_list : list Q) (runs : Z)
    (fuel : nat) :
  forall run w r w',
    run_loop' fuel self freq_list runs run w = Some (r, w') ->
    exists es,
      trace w' = trace w ++ es /\ is_streaming w' = is_streaming w /\
      (no_send_fail es \/
       (r = Raise OSError /\
        exists pre m, es = pre ++ [EvSendFail m] /\ no_send_fail pre)).
Proof.
  induction fuel as [|fuel IH]; intros run w r w' H; [discriminate H|].
  cbn [run_loop] in H. unfold read_shutdown in H.
  set (w1 := mkWorld (trace w ++ [EvCheck AtWhile (flag w)]) (acquisitions w)
               (count w) (device_freq w) (is_streaming w)) in *.
  destruct (negb (flag w) && ((runs =? 0)%Z || (run <? runs)%Z)).
  2:{ injection H as <- <-. exists [EvCheck AtWhile (flag w)].
      split; [reflexivity|]. split; [reflexivity|]. left. reflexivity. }
  unfold bindM, emit in H.
  set (w2 := mkWorld (trace w1 ++ [EvRun (run + 1)]) (acquisitions w1) (count w1)
               (device_freq w1) (is_streaming w1)) in *.
  destruct (hop_loop' self freq_list w2) as [r3 w3] eqn:Hloop.
  destruct (hop_loop_frame self freq_list w2 r3 w3 Hloop) as (es3 & Htr3 & Hs3 & Hf3).
  assert (Htr : trace w3 = trace w ++ [EvCheck AtWhile (flag w); EvRun (run + 1)] ++ es3).
  { rewrite Htr3. cbn [trace w2 w1]. repeat rewrite <- app_assoc. reflexivity. }
  destruct r3 as [[]|e].
  - destruct (time_limit_exceeded (run + 1)).
    + injection H as <- <-. eexists. split; [exact Htr|]. split; [exact Hs3|].
      apply send_fail_last_app; [reflexivity | exact Hf3].
    + destruct (IH _ _ _ _ H) as (es4 & Htr4 & Hs4 & Hf4).
      exists (([EvCheck AtWhile (flag w); EvRun (run + 1)] ++ es3) ++ es4).
      split; [rewrite Htr4, Htr; repeat rewrite <- app_assoc; reflexivity|].
      split; [rewrite Hs4, Hs3; reflexivity|].
      apply send_fail_last_app; [|exact Hf4].
      apply no_send_fail_app. split; [reflexivity|].
      destruct Hf3 as [Hf3|[Hr _]]; [exact Hf3 | discriminate Hr].
  - injection H as <- <-. eexists. split; [exact Htr|]. split; [exact Hs3|].
    apply send_fail_last_app; [reflexivity|].
    destruct Hf3 as [Hf3|[Hr Hx]]; [left; exact Hf3|].
    right. injection Hr as ->. split; [reflexivity | exact Hx].
Qed.

(** Once the flag is set the loop over the runs ends: [shutdown_at + 1] runs
    of fuel always suffice. *)
Lemma run_loop_terminates (self : SoapyPower) (freq_list : list Q) (runs : Z)
    (fuel : nat) :
  forall run w,
    (shutdown_at + 1 <= length (trace w) + fuel)%nat -> (1 <= fuel)%nat ->
    exists res, run_loop' fuel self freq_list runs run w = Some res.
Proof.
  induction fuel as [|fuel IH]; intros run w Hfuel H1; [lia|].
  cbn [run_loop]. unfold read_shutdown.
  set (w1 := mkWorld (trace w ++ [EvCheck AtWhile (flag w)]) (acquisitions w)
               (count w) (device_freq w) (is_streaming w)) in *.
  destruct (flag w) eqn:Hb; cbn [negb andb]; [eexists; reflexivity|].
  destruct ((runs =? 0)%Z || (run <? runs)%Z); [|eexists; reflexivity].
  unfold shutdown_set in Hb. apply Nat.leb_gt in Hb.
  unfold bindM, emit.
  set (w2 := mkWorld (trace w1 ++ [EvRun (run + 1)]) (acquisitions w1) (count w1)
               (device_freq w1) (is_streaming w1)) in *.
  destruct (hop_loop' self freq_list w2) as [r3 w3] eqn:Hloop.
  destruct (hop_loop_frame self freq_list w2 r3 w3 Hloop) as (es3 & Htr3 & _ & _).
  destruct r3 as [[]|e]; [|eexists; reflexivity].
  destruct (time_limit_exceeded (run + 1)); [eexists; reflexivity|].
  assert (Hlen : (length (trace w) + 2 <= length (trace w3))%nat).
  { rewrite Htr3. cbn [trace w2 w1]. rewrite !length_app. cbn [length]. lia. }
  apply IH; lia.
Qed.

(** ** The sweep *)

Lemma setup_frame (self : SoapyPower) (bins repeats base maxb : Z) (tune_delay : Q)
    (reset_stream : bool) (w : World) r w1 :
  setup start_stream self bins repeats base maxb tune_delay reset_stream w = (r, w1) ->
  trace w1 = trace w /\ is_streaming w1 = true.
Proof.
  unfold setup. destruct (create_buffer _ _ _ _ _) as [[br bs]|e];
    intros [= <- <-]; split; reflexivity.
Qed.

Lemma stop_streaming (w : World) :
  is_streaming w = true ->
  trace (snd (stop w)) = trace w ++ [EvStop] /\ is_streaming (snd (stop w)) = false.
Proof. intros H. unfold stop. rewrite H. split; reflexivity. Qed.

(** The three ways through [sweep]. *)
Lemma sweep_cases (fuel : nat) (self : SoapyPower) (min_freq max_freq : Q)
    (bins repeats runs : Z) (overlap lnb_lo tune_delay : Q) (reset_stream : bool)
    (base maxb : Z) (w : World) r w' :
  sweep' fuel self min_freq max_freq bins repeats runs overlap lnb_lo tune_delay
    reset_stream base maxb w = Some (r, w') ->
  (exists e,
     setup start_stream self bins repeats base maxb tune_delay reset_stream w
       = (Raise e, w') /\ r = Raise e /\ trace w' = trace w) \/
  (exists self' w1,
     setup start_stream self bins repeats base maxb tune_delay reset_stream w
       = (Ok self', w1) /\
     trace w1 = trace w /\ is_streaming w1 = true /\ is_streaming w' = false /\
     ((r = Raise UnboundLocalError /\ trace w' = trace w ++ [EvStop]) \/
      (exists freq_list w2,
         freq_plan self' (min_freq - lnb_lo) (max_freq - lnb_lo) bins overlap
           = Ok freq_list /\
         run_loop' fuel self' freq_list runs 0 w1 = Some (r, w2) /\
         trace w' = trace w2 ++ [EvStop]))).
Proof.
  intros H. unfold sweep in H.
  destruct (setup start_stream self bins repeats base maxb tune_delay reset_stream w)
    as [[self'|e] w1] eqn:Hsetup.
  2:{ injection H as <- <-. left. exists e.
      destruct (setup_frame _ _ _ _ _ _ _ _ _ _ Hsetup) as [Htr _].
      split; [reflexivity|]. split; [reflexivity | exact Htr]. }
  destruct (setup_frame _ _ _ _ _ _ _ _ _ _ Hsetup) as [Htr1 Hs1].
  right. exists self', w1. split; [reflexivity|]. split; [exact Htr1|].
  split; [exact Hs1|].
  destruct (freq_plan self' (min_freq - lnb_lo) (max_freq - lnb_lo) bins overlap)
    as [freq_list|e].
  - destruct (run_loop' fuel self' freq_list runs 0 w1) as [[r2 w2]|] eqn:Hrun;
      [|discriminate H].
    injection H as <- <-.
    destruct (run_loop_frame _ _ _ _ _ _ _ _ Hrun) as (es & _ & Hs2 & _).
    destruct (stop_streaming w2 ltac:(congruence)) as [Ht Hs].
    split; [exact Hs|]. right. exists freq_list, w2.
    split; [reflexivity|]. split; [exact Hrun | exact Ht].
  - injection H as <- <-.
    destruct (stop_streaming w1 Hs1) as [Ht Hs].
    split; [exact Hs|]. left. split; [reflexivity|]. rewrite Ht, Htr1. reflexivity.
Qed.

(** C9, amended: whatever happens, [sweep] comes to an end once the flag is
    set ([shutdown_at + 1] runs of fuel suffice); after the flag is set at
    most one run, one hop, one acquisition repeat, one measurement (the
    pending PSD future) and one datagram begin, namely those whose guarding
    read of the flag came before it was set; after a read that found the flag
    set no run, hop or acquisition repeat begins; and when [setup] succeeded
    the last thing the sweep does is [stop], which leaves the stream stopped. *)
Theorem sweep_shutdown (self : SoapyPower) (min_freq max_freq : Q)
    (bins repeats runs : Z) (overlap lnb_lo tune_delay : Q) (reset_stream : bool)
    (base maxb : Z) (w : World) :
  trace w = [] ->
  (exists res,
     sweep' (S shutdown_at) self min_freq max_freq bins repeats runs overlap lnb_lo
       tune_delay reset_stream base maxb w = Some res) /\
  (forall fuel r w',
     sweep' fuel self min_freq max_freq bins repeats runs overlap lnb_lo
       tune_delay reset_stream base maxb w = Some (r, w') ->
     winds_down shutdown_at (trace w') /\
     ((exists self',
         fst (setup start_stream self bins repeats base maxb tune_delay
                reset_stream w) = Ok self') ->
      is_streaming w' = false /\ exists pre, trace w' = pre ++ [EvStop])).
Proof.
  intros Hnil.
  assert (Hinit : forall w1, trace w1 = trace w ->
            calm (trace w1) /\
            (forall k, (late shutdown_at k (trace w1) <= 1)%nat) /\
            (flag w1 = false -> seen (trace w1) = false)).
  { intros w1 ->. rewrite Hnil. split; [apply calm_nil|].
    split; [intros k; rewrite late_clean by (cbn; lia); lia | reflexivity]. }
  split.
  - unfold sweep.
    destruct (setup start_stream self bins repeats base maxb tune_delay reset_stream w)
      as [[self'|e] w1] eqn:Hsetup; [|eexists; reflexivity].
    destruct (freq_plan self' (min_freq - lnb_lo) (max_freq - lnb_lo) bins overlap)
      as [freq_list|e]; [|eexists; reflexivity].
    destruct (run_loop_terminates self' freq_list runs (S shutdown_at) 0 w1
                ltac:(lia) ltac:(lia)) as [[r2 w2] ->].
    eexists. reflexivity.
  - intros fuel r w' H.
    destruct (sweep_cases _ _ _ _ _ _ _ _ _ _ _ _ _ _ _ _ H)
      as [(e & Hsetup & -> & Htr) |
          (self' & w1 & Hsetup & Htr1 & Hs1 & Hs' & Hcases)].
    + destruct (Hinit w' Htr) as (Hc & Hl & _).
      split; [split; assumption|].
      intros [self' Hx]. rewrite Hsetup in Hx. discriminate Hx.
    + destruct (Hinit w1 Htr1) as (Hc & Hl & Hm).
      assert (Hwd : winds_down shutdown_at (trace w')).
      { destruct Hcases as [[_ Htr] | (fl & w2 & _ & Hrun & Htr)].
        - rewrite Htr. split.
          + intros k. rewrite late_app_other by (destruct k; reflexivity).
            rewrite <- Htr1. apply Hl.
          + apply calm_app_one; [rewrite <- Htr1; exact Hc | reflexivity].
        - destruct (run_loop_shutdown _ _ _ _ _ _ _ _ Hrun Hc Hl Hm) as [Hc2 Hl2].
          rewrite Htr. split.
          + intros k. rewrite late_app_other by (destruct k; reflexivity). apply Hl2.
          + apply calm_app_one; [exact Hc2 | reflexivity]. }
      split; [exact Hwd|]. intros _. split; [exact Hs'|].
      destruct Hcases as [[_ Htr] | (fl & w2 & _ & _ & Htr)];
        rewrite Htr; eexists; reflexivity.
Qed.

(** C8, amended: a [sendto] that raises is not caught.  When a send fails
    during [sweep], the sweep ends there: [stop] runs (the [finally] block),
    the [OSError] goes on up to the caller, the failed send is the last event
    before [stop], and it is the only failed send: it is not retried and no
    later hop runs. *)
Theorem sweep_send_failure (fuel : nat) (self : SoapyPower) (min_freq max_freq : Q)
    (bins repeats runs : Z) (overlap lnb_lo tune_delay : Q) (reset_stream : bool)
    (base maxb : Z) (w : World) r w' :
  no_send_fail (trace w) ->
  sweep' fuel self min_freq max_freq bins repeats runs overlap lnb_lo tune_delay
    reset_stream base maxb w = Some (r, w') ->
  ~ no_send_fail (trace w') ->
  r = Raise OSError /\ is_streaming w' = false /\
  exists pre m, trace w' = pre ++ [EvSendFail m; EvStop] /\ no_send_fail pre.
Proof.
  intros Hnf H Hfail.
  destruct (sweep_cases _ _ _ _ _ _ _ _ _ _ _ _ _ _ _ _ H)
    as [(e & _ & _ & Htr) | (self' & w1 & _ & Htr1 & Hs1 & Hs' & Hcases)].
  - exfalso. apply Hfail. rewrite Htr. exact Hnf.
  - destruct Hcases as [[_ Htr] | (fl & w2 & _ & Hrun & Htr)].
    + exfalso. apply Hfail. rewrite Htr. apply no_send_fail_app.
      split; [exact Hnf | reflexivity].
    + destruct (run_loop_frame _ _ _ _ _ _ _ _ Hrun) as (es & Htr2 & _ & Hf).
      destruct Hf as [Hf | [-> (pre & m & -> & Hpre)]].
      * exfalso. apply Hfail. rewrite Htr, Htr2, Htr1.
        apply no_send_fail_app. split; [|reflexivity].
        apply no_send_fail_app. split; assumption.
      * split; [reflexivity|]. split; [exact Hs'|].
        exists (trace w ++ pre), m. split.
        -- rewrite Htr, Htr2, Htr1. repeat rewrite <- app_assoc. reflexivity.
        -- apply no_send_fail_app. split; assumption.
Qed.

(** ** The claims about one hop *)

(** C1, amended: in a hop the threshold starts at
    [10^(threshold_dBm/10) * 2^31]; each acquisition repeat leaves it
    unchanged when [noise >= absThreshold] and otherwise sets it to
    [100 * noise], which is not negative and is below 100 times the value
    before; it is at most the value before exactly when
    [noise >= absThreshold] or [100 * noise <= absThreshold], so it can rise,
    also above the initial value; after [m] repeats it is at most [100^m]
    times the initial value. *)
Theorem threshold_update (self : SoapyPower) (freq : Q) (hs hs' : HopState)
    (buffer : list complex) (t0 t1 : Z) :
  acquisition self freq hs buffer t0 t1 = Ok hs' ->
  absThreshold (psd_init pow10 self freq)
    = pow10 (threshold self / 10) * inject_Z (2 ^ 31) /\
  (let noise := noise_of (iq_of buffer) in
   0 <= noise /\
   (absThreshold hs <= noise -> absThreshold hs' = absThreshold hs) /\
   (noise < absThreshold hs ->
      absThreshold hs' = noise * 100 /\ 0 <= absThreshold hs' /\
      absThreshold hs' < 100 * absThreshold hs) /\
   (absThreshold hs' <= absThreshold hs <->
      absThreshold hs <= noise \/ noise * 100 <= absThreshold hs)) /\
  (forall k m hsm,
     0 <= pow10 (threshold self / 10) ->
     fold_acq self freq (psd_init pow10 self freq) (reads' k m) = Ok hsm ->
     0 <= absThreshold hsm /\
     absThreshold hsm
       <= inject_Z (100 ^ Z.of_nat m) * absThreshold (psd_init pow10 self freq)).
Proof.
  intros Ha. split; [reflexivity|]. split.
  - cbn zeta. pose proof (noise_of_nonneg (iq_of buffer)) as Hn.
    rewrite (acquisition_threshold _ _ _ _ _ _ _ Ha).
    split; [exact Hn|].
    destruct (update_threshold_cases (absThreshold hs) (noise_of (iq_of buffer)))
      as [[Hc ->]|[Hc ->]].
    + split; [reflexivity|]. split; [intros Hlt; exfalso; lra|].
      split; [intros _; left; exact Hc | intros _; apply Qle_refl].
    + split; [intros Hle; exfalso; lra|].
      split; [intros _; split; [reflexivity|]; split; lra|].
      split; [intros Hle; right; exact Hle | intros [Hle|Hle]; [exfalso; lra | exact Hle]].
  - intros k m hsm Hpos Hf.
    assert (H0 : 0 <= absThreshold (psd_init pow10 self freq)).
    { cbn [psd_init absThreshold]. unfold initial_threshold.
      apply Qmult_le_0_compat; [exact Hpos | discriminate]. }
    destruct (fold_acq_threshold_bound self freq _ _ _ H0 Hf) as [H1 H2].
    split; [exact H1|].
    unfold reads_from in H2. rewrite length_map, length_seq in H2. exact H2.
Qed.

(** C2, amended: a hop sends at most one datagram, and it is made from the
    signal and the PSD state that [psd] returned.  [psd] runs the repeats one
    after the other, all [buffer_repeats] of them unless the flag is set
    meanwhile, each updating the threshold, and the signal it returns is that
    of the last repeat that detected a burst: a later burst overwrites an
    earlier one. *)
Theorem hop_reports_last_burst (self : SoapyPower) (freq : Q) (w : World) :
  is_streaming w = true ->
  (forall r w', hop' self freq w = (r, w') ->
     exists es,
       trace w' = trace w ++ es /\ (count_kind KSend es <= 1)%nat /\
       (forall m, In (EvSend m) es \/ In (EvSendFail m) es ->
          exists ps t0 t1 sig w1,
            psd' self freq w = (Ok (ps, t0, t1, sig), w1) /\
            measurements self (psd_result ps)
              (_buffer_len self * _buffer_repeats self) sig = Ok (Some m))) /\
  (forall ps t0 t1 sig w1,
     psd' self freq w = (Ok (ps, t0, t1, sig), w1) ->
     exists m hs',
       (1 <= m <= Z.to_nat (_buffer_repeats self))%nat /\
       acquisitions w1 = (acquisitions w + m)%nat /\
       ((length (trace w1) <= shutdown_at)%nat ->
          m = Z.to_nat (_buffer_repeats self)) /\
       fold_acq self freq (psd_init pow10 self freq) (reads' (acquisitions w) m)
         = Ok hs' /\
       sig = signal hs' /\
       (forall pre x a0 a1 post hs1 b,
          reads' (acquisitions w) m = pre ++ (x, a0, a1) :: post ->
          fold_acq self freq (psd_init pow10 self freq) pre = Ok hs1 ->
          detected self hs1 x = Ok (Some b) ->
          (forall hs2, acquisition self freq hs1 x a0 a1 = Ok hs2 ->
                       no_burst_in self freq hs2 post) ->
          sig = signal_of self freq (iq_of x) a0 b)).
Proof.
  intros Hstr. split.
  - intros r w' H.
    destruct (hop_frame self freq w r w' H) as (es & Htr & _ & Hc & Hsent & _).
    exists es. split; [exact Htr|]. split; [exact Hc | exact Hsent].
  - intros ps t0 t1 sig w1 H.
    destruct (psd_fold self freq w _ w1 Hstr H)
      as (m & es & Hm & Hacq & _ & _ & _ & _ & Hok).
    destruct (Hok ps t0 t1 sig eq_refl) as (hs' & Hf & Hsig & _ & H1 & Hall).
    exists m, hs'. split; [lia|]. split; [exact Hacq|]. split; [exact Hall|].
    split; [exact Hf|]. split; [exact Hsig|].
    intros pre x a0 a1 post hs1 b Hreads Hpre Hd Hq. rewrite Hsig.
    rewrite Hreads in Hf.
    apply (last_burst_wins self freq pre post x a0 a1 _ hs1 hs' b Hf Hpre Hd Hq).
Qed.

End SweepProperties.

(** ** The claims at concrete worlds *)

(** C1 fails as stated: at -80 dBm the threshold starts at
    [10^-8 * 2^31 = 21.47...]; a buffer whose mean is 1 has [noise = 1], below
    the threshold, so the first repeat sets the threshold to 100, above its
    value before and above the initial value. *)
Lemma threshold_rises :
  let hs0 := psd_init Scenario.pow10 Scenario.self 100 in
  exists hs' w',
    repeat_loop Scenario.steady_read Scenario.utcnow 1000 Scenario.self 100 1 hs0
      Scenario.streaming = (Ok hs', w') /\
    absThreshold hs0 == 2147483648 # 100000000 /\
    noise_of (iq_of (Scenario.steady_read 0)) == 1 /\
    absThreshold hs' == 100 /\
    ~ (absThreshold hs' <= absThreshold hs0).
Proof.
  cbn zeta. eexists _, _.
  split; [vm_compute; reflexivity|].
  split; [vm_compute; reflexivity|].
  split; [vm_compute; reflexivity|].
  split; [vm_compute; reflexivity|].
  intro H. apply Qle_bool_iff in H. vm_compute in H. discriminate H.
Qed.

Lemma threshold_update_witness :
  let self := Scenario.self in
  let hs := psd_init Scenario.pow10 self 100 in
  let buffer := Scenario.steady_read 0 in
  exists hs',
    acquisition self 100 hs buffer 0 1 = Ok hs' /\
    absThreshold (psd_init Scenario.pow10 self 100)
      = Scenario.pow10 (threshold self / 10) * inject_Z (2 ^ 31) /\
    (let noise := noise_of (iq_of buffer) in
     0 <= noise /\
     (absThreshold hs <= noise -> absThreshold hs' = absThreshold hs) /\
     (noise < absThreshold hs ->
        absThreshold hs' = noise * 100 /\ 0 <= absThreshold hs' /\
        absThreshold hs' < 100 * absThreshold hs) /\
     (absThreshold hs' <= absThreshold hs <->
        absThreshold hs <= noise \/ noise * 100 <= absThreshold hs)) /\
    (forall k m hsm,
       0 <= Scenario.pow10 (threshold self / 10) ->
       fold_acq self 100 (psd_init Scenario.pow10 self 100)
         (reads_from Scenario.steady_read Scenario.utcnow k m) = Ok hsm ->
       0 <= absThreshold hsm /\
       absThreshold hsm
         <= inject_Z (100 ^ Z.of_nat m)
            * absThreshold (psd_init Scenario.pow10 self 100)).
Proof.
  intros self hs buffer. eexists. split; [vm_compute; reflexivity|].
  apply (threshold_update Scenario.pow10 Scenario.steady_read Scenario.utcnow
           self 100 hs _ buffer 0 1).
  vm_compute. reflexivity.
Defined.

(** C2 fails as stated: with two repeats, the first detecting a burst at
    samples 1 to 5 and the second one at samples 3 to 7, the signal that
    [psd] returns is the second burst, not the first. *)
Lemma psd_reports_second_burst :
  let hs0 := psd_init Scenario.pow10 Scenario.self 100 in
  exists ps t0 t1 sig w' hs1,
    psd Scenario.pow10 Scenario.read_stream_into_buffer Scenario.utcnow 1000
      Scenario.self 100 Scenario.streaming = (Ok (ps, t0, t1, sig), w') /\
    detected Scenario.self hs0 Scenario.bufferA = Ok (Some (mkBurst 1 5 0 7)) /\
    acquisition Scenario.self 100 hs0 Scenario.bufferA 0 1 = Ok hs1 /\
    detected Scenario.self hs1 Scenario.bufferB = Ok (Some (mkBurst 3 7 1 9)) /\
    acquisitions w' = 2%nat /\
    sig_start sig = 3%Z /\ sig_stop sig = 7%Z /\
    sig_start sig <> b_start (mkBurst 1 5 0 7).
Proof.
  cbn zeta. eexists _, _, _, _, _, _.
  split; [vm_compute; reflexivity|].
  split; [vm_compute; reflexivity|].
  split; [vm_compute; reflexivity|].
  split; [vm_compute; reflexivity|].
  split; [reflexivity|]. split; [reflexivity|]. split; [reflexivity|].
  cbn. discriminate.
Qed.

(** C8 fails as stated: the plan has two hops, the send of the first hop
    fails, and the sweep ends with [OSError] after one hop. *)
Lemma failed_send_ends_sweep :
  exists freq_list w',
    freq_plan Scenario.self 100000000 100800000 2 0 = Ok freq_list /\
    length freq_list = 2%nat /\
    Scenario.run_sweep (fun _ => false) 1000 1 5 = Some (Raise OSError, w') /\
    count_kind KHop (trace w') = 1%nat /\
    (exists m, skipn 6 (trace w') = [EvSendFail m; EvStop]).
Proof.
  eexists _, _.
  split; [vm_compute; reflexivity|].
  split; [reflexivity|].
  split; [vm_compute; reflexivity|].
  split; [reflexivity|].
  eexists. reflexivity.
Qed.

Lemma sweep_send_failure_witness :
  exists r w',
    Scenario.run_sweep (fun _ => false) 1000 1 5 = Some (r, w') /\
    r = Raise OSError /\ is_streaming w' = false /\
    exists pre m, trace w' = pre ++ [EvSendFail m; EvStop] /\ no_send_fail pre.
Proof.
  eexists _, _. split; [vm_compute; reflexivity|].
  apply (sweep_send_failure Scenario.pow10 Scenario.read_stream_into_buffer
           Scenario.utcnow Scenario.psd_result (fun _ => false) 1000%nat
           Scenario.no_time_limit Scenario.start_stream 5 Scenario.self
           100000000 100800000 2 5 1 0 0 0 false 0 0 world0).
  - reflexivity.
  - vm_compute. reflexivity.
  - vm_compute. discriminate.
Defined.

(** C9 fails as stated: the flag is set when eight events have happened,
    right after the read of the flag that follows the first hop found it
    clear; the second hop then begins, and one acquisition with it. *)
Lemma sweep_hop_after_shutdown :
  exists w' freq,
    Scenario.run_sweep (fun _ => true) 8 0 5 = Some (Ok tt, w') /\
    nth_error (trace w') 7 = Some (EvCheck AtHop false) /\
    nth_error (trace w') 8 = Some (EvHop freq) /\
    late 8 KHop (trace w') = 1%nat /\
    late 8 KAcquire (trace w') = 1%nat /\
    late 8 KRun (trace w') = 0%nat.
Proof.
  eexists _, _.
  split; [vm_compute; reflexivity|].
  split; [reflexivity|]. split; [reflexivity|].
  split; [reflexivity|]. split; reflexivity.
Qed.

Lemma sweep_shutdown_witness :
  (exists res, Scenario.run_sweep (fun _ => true) 8 0 9 = Some res) /\
  (forall fuel r w',
     Scenario.run_sweep (fun _ => true) 8 0 fuel = Some (r, w') ->
     winds_down 8 (trace w') /\
     ((exists self',
         fst (setup Scenario.start_stream Scenario.self 2 5 0 0 0 false world0)
           = Ok self') ->
      is_streaming w' = false /\ exists pre, trace w' = pre ++ [EvStop])).
Proof.
  apply (sweep_shutdown Scenario.pow10 Scenario.read_stream_into_buffer
           Scenario.utcnow Scenario.psd_result (fun _ => true) 8%nat
           Scenario.no_time_limit Scenario.start_stream Scenario.self
           100000000 100800000 2 5 0 0 0 0 false 0 0 world0).
  reflexivity.
Defined.

Lemma hop_reports_last_burst_witness :
  let self := Scenario.self in
  let w := Scenario.streaming in
  let hop' := hop Scenario.pow10 Scenario.read_stream_into_buffer Scenario.utcnow
                Scenario.psd_result (fun _ => true) 1000 in
  let psd' := psd Scenario.pow10 Scenario.read_stream_into_buffer Scenario.utcnow
                1000 in
  let reads' := reads_from Scenario.read_stream_into_buffer Scenario.utcnow in
  (forall r w', hop' self 100 w = (r, w') ->
     exists es,
       trace w' = trace w ++ es /\ (count_kind KSend es <= 1)%nat /\
       (forall m, In (EvSend m) es \/ In (EvSendFail m) es ->
          exists ps t0 t1 sig w1,
            psd' self 100 w = (Ok (ps, t0, t1, sig), w1) /\
            measurements self (Scenario.psd_result ps)
              (_buffer_len self * _buffer_repeats self) sig = Ok (Some m))) /\
  (forall ps t0 t1 sig w1,
     psd' self 100 w = (Ok (ps, t0, t1, sig), w1) ->
     exists m hs',
       (1 <= m <= Z.to_nat (_buffer_repeats self))%nat /\
       acquisitions w1 = (acquisitions w + m)%nat /\
       ((length (trace w1) <= 1000)%nat -> m = Z.to_nat (_buffer_repeats self)) /\
       fold_acq self 100 (psd_init Scenario.pow10 self 100)
         (reads' (acquisitions w) m) = Ok hs' /\
       sig = signal hs' /\
       (forall pre x a0 a1 post hs1 b,
          reads' (acquisitions w) m = pre ++ (x, a0, a1) :: post ->
          fold_acq self 100 (psd_init Scenario.pow10 self 100) pre = Ok hs1 ->
          detected self hs1 x = Ok (Some b) ->
          (forall hs2, acquisition self 100 hs1 x a0 a1 = Ok hs2 ->
                       no_burst_in self 100 hs2 post) ->
          sig = signal_of self 100 (iq_of x) a0 b)).
Proof.
  intros self w hop' psd' reads'.
  apply (hop_reports_last_burst Scenario.pow10 Scenario.read_stream_into_buffer
           Scenario.utcnow Scenario.psd_result (fun _ => true) 1000%nat self 100 w).
  reflexivity.
Defined.

(** * Further properties of the code *)

(** ** The helpers of the planner *)

(** X1. [nearest_freq] with a bin size that is not zero returns a whole number
    of bins, the nearest to [freq]: it is within half a bin of [freq]. *)
Theorem nearest_freq_nearest (freq bin_size : Q) :
  ~ bin_size == 0 ->
  exists k r,
    nearest_freq freq bin_size = Ok r /\
    r = inject_Z k * bin_size /\
    Qabs (r - freq) <= Qabs bin_size * (1 # 2).
Proof.
  intros Hb. unfold nearest_freq. rewrite py_div_nonzero by exact Hb. cbn [bind].
  exists (py_round (freq / bin_size)). eexists.
  split; [reflexivity|]. split; [reflexivity|].
  set (q := freq / bin_size).
  assert (Hq : q * bin_size == freq) by (unfold q; field; exact Hb).
  setoid_replace (inject_Z (py_round q) * bin_size - freq)
    with ((inject_Z (py_round q) - q) * bin_size) by (rewrite <- Hq; ring).
  rewrite Qabs_Qmult, (Qmult_comm (Qabs bin_size)).
  apply Qmult_le_compat_r; [|apply Qabs_nonneg].
  apply Qabs_Qle_condition. pose proof (py_round_bounds q). lra.
Qed.

Lemma nearest_freq_nearest_witness :
  exists k r,
    nearest_freq 1234567 1000 = Ok r /\
    r = inject_Z k * 1000 /\
    Qabs (r - 1234567) <= Qabs 1000 * (1 # 2).
Proof.
  apply (nearest_freq_nearest 1234567 1000). intro H. discriminate H.
Defined.

Example nearest_freq_example : nearest_freq 1234567 1000 = Ok (1235 * 1000).
Proof. vm_compute. reflexivity. Qed.

(** [round] to even at a tie: 2.5 bins go to 2 bins, 3.5 bins to 4. *)
Example nearest_freq_tie :
  nearest_freq 2500 1000 = Ok (2 * 1000) /\ nearest_freq 3500 1000 = Ok (4 * 1000).
Proof. split; vm_compute; reflexivity. Qed.


(** [x % 1 == 0] says that the float [x] is a whole number. *)
Lemma py_fmod_one (x : Q) :
  Qeq_bool (py_fmod x 1) 0 = true <-> exists k, x == inject_Z k.
Proof.
  unfold py_fmod. split.
  - intros H. apply Qeq_bool_iff in H. exists (Qfloor (x / 1)). lra.
  - intros [k Hk]. apply Qeq_bool_iff.
    assert (Hx : x / 1 == inject_Z k) by (rewrite Hk; field).
    rewrite Hx, Qfloor_Z, Hk. ring.
Qed.

(** X3. With [pow2], [nearest_bins] raises [ValueError] on a [bins] that is
    not positive, whatever [even] says.  On a positive [bins] the result
    turns on the float that [math.log(bins, 2)] returns.  When that float is
    a whole number, [bins] is returned unchanged.  When it lies strictly
    between [Z.log2_up bins - 1] and [Z.log2_up bins], where the exact
    logarithm of a [bins] that is not a power of two lies, the result is the
    least power of two that is at least [bins], which is less than
    [2 * bins]. *)
Theorem nearest_bins_pow2 (math_log2 : Z -> Q) (bins : Z) (even : bool) :
  ((bins <= 0)%Z -> nearest_bins math_log2 bins even true = Raise ValueError) /\
  ((0 < bins)%Z ->
   ((exists k, math_log2 bins == inject_Z k) ->
      nearest_bins math_log2 bins even true = Ok bins) /\
   (inject_Z (Z.log2_up bins) - 1 < math_log2 bins < inject_Z (Z.log2_up bins) ->
      nearest_bins math_log2 bins even true = Ok (2 ^ Z.log2_up bins)%Z /\
      (bins <= 2 ^ Z.log2_up bins < 2 * bins)%Z /\
      (forall j, (0 <= j)%Z -> (bins <= 2 ^ j)%Z ->
                 (2 ^ Z.log2_up bins <= 2 ^ j)%Z))).
Proof.
  unfold nearest_bins. split.
  - intros H. replace (bins <=? 0)%Z with true by (symmetry; apply Z.leb_le; lia).
    reflexivity.
  - intros H. replace (bins <=? 0)%Z with false by (symmetry; apply Z.leb_gt; lia).
    cbv zeta. set (l := math_log2 bins). split.
    + intros Hk. apply py_fmod_one in Hk. rewrite Hk. reflexivity.
    + intros [Hlo Hhi].
      assert (Hfrac : Qeq_bool (py_fmod l 1) 0 = false).
      { destruct (Qeq_bool (py_fmod l 1) 0) eqn:E; [exfalso | reflexivity].
        apply py_fmod_one in E. destruct E as [k Hk]. rewrite Hk in Hlo, Hhi.
        assert (A : inject_Z (Z.log2_up bins - 1) < inject_Z k).
        { unfold Z.sub. rewrite inject_Z_plus, inject_Z_opp.
          change (inject_Z 1) with 1. lra. }
        rewrite <- Zlt_Qlt in A, Hhi. lia. }
      rewrite Hfrac. cbn [negb].
      assert (Hc : math_ceil l = Z.log2_up bins).
      { apply Qceiling_eq; [|lra].
        unfold Z.sub. rewrite inject_Z_plus, inject_Z_opp.
        change (inject_Z 1) with 1. lra. }
      rewrite Hc. split; [reflexivity|].
      destruct (Z.eq_dec bins 1) as [->|H1].
      { change (Z.log2_up 1) with 0%Z. split; [lia|].
        intros j Hj _. change (2 ^ 0)%Z with 1%Z.
        pose proof (Z.pow_pos_nonneg 2 j ltac:(lia) Hj). lia. }
      assert (H2 : (1 < bins)%Z) by lia.
      pose proof (Z.log2_up_spec bins H2) as Hu.
      pose proof (Z.log2_up_pos bins H2) as Hu0.
      assert (Hp : (2 ^ Z.log2_up bins = 2 * 2 ^ Z.pred (Z.log2_up bins))%Z).
      { rewrite <- Z.pow_succ_r by lia. f_equal. lia. }
      split; [lia|].
      intros j Hj0 Hj.
      destruct (Z.le_gt_cases (Z.log2_up bins) j) as [Hle|Hgt].
      * apply Z.pow_le_mono_r; lia.
      * exfalso.
        assert ((2 ^ j <= 2 ^ Z.pred (Z.log2_up bins))%Z)
          by (apply Z.pow_le_mono_r; lia).
        lia.
Qed.

(** The theorem at 1000 bins, where [math.log(1000, 2)] is
    [9.965784284662087]. *)
Lemma nearest_bins_pow2_witness :
  nearest_bins (fun _ => 5610237798857365 # 562949953421312) 1000 false true = Ok (2 ^ Z.log2_up 1000)%Z /\
  (1000 <= 2 ^ Z.log2_up 1000 < 2 * 1000)%Z /\
  (forall j, (0 <= j)%Z -> (1000 <= 2 ^ j)%Z -> (2 ^ Z.log2_up 1000 <= 2 ^ j)%Z).
Proof.
  apply (proj2 (proj2 (nearest_bins_pow2 (fun _ => 5610237798857365 # 562949953421312) 1000 false)
                      ltac:(lia))).
  split; reflexivity.
Defined.

(** The result depends on the rounding of the logarithm.  CPython computes
    [math.log(2**29, 2)] as [log(2**29) / log(2)], which is
    [29.000000000000004], that is [29 + 2^-48]: with [pow2], 2^29 bins become
    2^30 although 2^29 is a power of two. *)
Example nearest_bins_examples :
  nearest_bins (fun _ => 5610237798857365 # 562949953421312) 1000 false true = Ok 1024%Z /\
  nearest_bins (fun _ => 10) 1024 true true = Ok 1024%Z /\
  nearest_bins (fun _ => 29 + (1 # 2 ^ 48)) (2 ^ 29) false true = Ok (2 ^ 30)%Z /\
  nearest_bins (fun _ => 0) 1001 true false = Ok 1002%Z /\
  nearest_bins (fun _ => 0) 1001 false false = Ok 1001%Z /\
  nearest_bins (fun _ => 0) 0 false true = Raise ValueError.
Proof. repeat split; vm_compute; reflexivity. Qed.




(** X5. For a sample rate of at least [2^-500] and at most [2^50] bins, the
    two conversions between the number of bins and the bin size undo each
    other up to one bin: [bin_size_to_bins] of the float that
    [bins_to_bin_size bins] returns is [bins] or [bins + 1].  It can be
    [bins + 1], because each of the two divisions is rounded and the second
    is followed by a ceiling. *)
Theorem bins_bin_size_round_trip (self : SoapyPower) (bins : Z) :
  2 ^ (-500) <= sample_rate self -> (0 < bins <= 2 ^ 50)%Z ->
  exists bin_size r,
    bins_to_bin_size self bins = Ok bin_size /\
    bin_size_to_bins self (float_round bin_size) = Ok r /\
    (r = bins \/ r = (bins + 1)%Z).
Proof.
  intros Hrate Hbins.
  set (rate := sample_rate self) in *.
  assert (Hr0 : 0 < rate) by (pose proof (pow2_pos (-500)); lra).
  assert (Hk : 0 < inject_Z bins <= 2 ^ 50).
  { split.
    - change 0 with (inject_Z 0). rewrite <- Zlt_Qlt. lia.
    - rewrite pow2_inject by lia. rewrite <- Zle_Qle. lia. }
  unfold bins_to_bin_size. fold rate. rewrite py_div_Z by lia.
  set (x := rate / inject_Z bins).
  assert (Hx : x * inject_Z bins == rate) by (unfold x; field; lra).
  assert (Hx0 : 0 < x) by (unfold x; apply Qlt_shift_div_l; lra).
  assert (Hxn : 2 ^ (-600) <= x).
  { apply Qmult_le_reg_pos with (2 ^ 50); [apply pow2_pos|].
    rewrite <- pow2_plus. change (2 ^ (-600 + 50)) with (2 ^ (-550)).
    apply Qle_trans with (2 ^ (-500)); [apply pow2_le; lia|].
    apply Qle_trans with rate; [exact Hrate|]. rewrite <- Hx.
    rewrite !(Qmult_comm x). apply Qmult_le_compat_r; lra. }
  pose proof (float_round_pos x (normal_above x Hxn)) as [Hb1 Hb2].
  set (b := float_round x) in *.
  rewrite epsilon_val in Hb1, Hb2.
  assert (Hb0 : 0 < b) by lra.
  exists x. unfold bin_size_to_bins. fold rate. fold b.
  rewrite float_div_nonzero by (intros E; rewrite E in Hb0; lra). cbn [bind].
  set (y := rate / b).
  assert (Hy : y * b == rate) by (unfold y; field; lra).
  assert (Hy0 : 0 < y) by (unfold y; apply Qlt_shift_div_l; lra).
  assert (Y1 : y * (1 - (1 # 9007199254740992)) <= inject_Z bins).
  { apply Qmult_le_reg_pos with x; [exact Hx0|].
    rewrite (Qmult_comm (inject_Z bins)), Hx, <- Hy.
    setoid_replace (y * (1 - (1 # 9007199254740992)) * x)
      with (y * (x * (1 - (1 # 9007199254740992)))) by ring.
    rewrite !(Qmult_comm y). apply Qmult_le_compat_r; lra. }
  assert (Y2 : inject_Z bins <= y * (1 + (1 # 9007199254740992))).
  { apply Qmult_le_reg_pos with x; [exact Hx0|].
    rewrite (Qmult_comm (inject_Z bins)), Hx, <- Hy.
    setoid_replace (y * (1 + (1 # 9007199254740992)) * x)
      with (y * (x * (1 + (1 # 9007199254740992)))) by ring.
    rewrite !(Qmult_comm y). apply Qmult_le_compat_r; lra. }
  assert (Hyn : 2 ^ (-600) <= y).
  { apply Qle_trans with (1 # 2); [apply Qle_bool_iff; vm_compute; reflexivity|].
    assert (1 <= inject_Z bins).
    { change 1 with (inject_Z 1). rewrite <- Zle_Qle. lia. }
    lra. }
  pose proof (float_round_pos y (normal_above y Hyn)) as [Hq1 Hq2].
  rewrite epsilon_val in Hq1, Hq2.
  eexists. split; [reflexivity|]. split; [reflexivity|].
  apply ceil_near; [exact Hbins|].
  change (1 # 2 ^ 51) with (1 # 2251799813685248).
  split; lra.
Qed.

Lemma bins_bin_size_round_trip_witness :
  let self := mkSoapyPower 2000000 (-85) 1 0 0 false in
  exists bin_size r,
    bins_to_bin_size self 1024 = Ok bin_size /\
    bin_size_to_bins self (float_round bin_size) = Ok r /\
    (r = 1024%Z \/ r = (1024 + 1)%Z).
Proof.
  intros self. apply (bins_bin_size_round_trip self 1024).
  - apply Qle_bool_iff. vm_compute. reflexivity.
  - lia.
Defined.

(** At 2 MHz, 29 bins give a bin size whose float asks for 30 bins. *)
Example bin_size_to_bins_example :
  let self := mkSoapyPower 2000000 (-85) 1 0 0 false in
  bins_to_bin_size self 29 = Ok (2000000 / 29) /\
  bin_size_to_bins self (float_round (2000000 / 29)) = Ok 30%Z.
Proof. split; vm_compute; reflexivity. Qed.


(** X6. For a sample rate between [2^-500] and [2^500], positive [bins] and
    at most [2^50] repeats with [bins * repeats <= 2^53], the repeats that
    [time_to_repeats] gives for the time of [repeats] repeats are [repeats]
    or [repeats + 1]: the quotient and the product are rounded before the
    ceiling is taken. *)
Theorem repeats_time_round_trip (self : SoapyPower) (bins repeats : Z) :
  2 ^ (-500) <= sample_rate self -> sample_rate self <= 2 ^ 500 ->
  (0 < bins)%Z -> (0 < repeats <= 2 ^ 50)%Z -> (bins * repeats <= 2 ^ 53)%Z ->
  exists t r,
    repeats_to_time self bins repeats = Ok t /\
    time_to_repeats self bins t = Ok r /\
    (r = repeats \/ r = (repeats + 1)%Z).
Proof.
  intros Hlo Hhi Hbins Hrep Hprod.
  set (rate := sample_rate self) in *.
  assert (Hr0 : 0 < rate) by (pose proof (pow2_pos (-500)); lra).
  assert (Hbins53 : (bins <= 2 ^ 53)%Z) by nia.
  assert (HN : (0 < repeats * bins <= 2 ^ 53)%Z) by nia.
  pose proof (inject_Z_pos bins Hbins) as Hb1.
  pose proof (inject_Z_pos repeats (proj1 Hrep)) as Hk1.
  pose proof (inject_Z_pos _ (proj1 HN)) as HN1.
  unfold repeats_to_time, time_to_repeats, float_of_int, float_mul. fold rate.
  rewrite float_div_nonzero by lra.
  assert (EN : float_round (inject_Z (repeats * bins)) == inject_Z (repeats * bins))
    by (apply float_round_Z; lia).
  assert (EB : float_round (inject_Z bins) == inject_Z bins)
    by (apply float_round_Z; lia).
  set (N := inject_Z (repeats * bins)) in *.
  set (z := float_round N / rate).
  assert (Hz : z * rate == N) by (unfold z; rewrite EN; field; lra).
  assert (Hzn : 2 ^ (-600) <= z).
  { apply Qmult_le_reg_pos with rate; [exact Hr0|]. rewrite Hz.
    apply Qle_trans with (2 ^ (-600) * 2 ^ 500).
    - apply Qmult_le_l; [apply pow2_pos|exact Hhi].
    - rewrite <- pow2_plus. apply Qle_trans with 1; [|exact HN1].
      apply Qle_bool_iff. vm_compute. reflexivity. }
  assert (Hz0 : 0 < z) by (pose proof (pow2_pos (-600)); lra).
  pose proof (float_round_pos z (normal_above z Hzn)) as [Ht1 Ht2].
  rewrite epsilon_val in Ht1, Ht2.
  set (t := float_round z) in *.
  set (m := rate * t).
  assert (Hm1 : N * (1 - (1 # 9007199254740992)) <= m).
  { rewrite <- Hz. unfold m.
    setoid_replace (z * rate * (1 - (1 # 9007199254740992)))
      with (rate * (z * (1 - (1 # 9007199254740992)))) by ring.
    apply Qmult_le_l; [exact Hr0|exact Ht1]. }
  assert (Hm2 : m <= N * (1 + (1 # 9007199254740992))).
  { rewrite <- Hz. unfold m.
    setoid_replace (z * rate * (1 + (1 # 9007199254740992)))
      with (rate * (z * (1 + (1 # 9007199254740992)))) by ring.
    apply Qmult_le_l; [exact Hr0|exact Ht2]. }
  assert (Hmn : 1 # 2 <= m) by lra.
  pose proof (float_round_pos m (half_normal m Hmn)) as [Hp1 Hp2].
  rewrite epsilon_val in Hp1, Hp2.
  set (p := float_round m) in *.
  assert (Hb0 : ~ float_round (inject_Z bins) == 0) by (rewrite EB; lra).
  exists t. eexists. split; [reflexivity|].
  rewrite float_div_nonzero by exact Hb0. cbn [bind].
  split; [reflexivity|].
  fold m. fold p.
  set (w := p / float_round (inject_Z bins)).
  assert (Hw : w * inject_Z bins == p) by (unfold w; rewrite EB; field; lra).
  assert (HNk : N == inject_Z repeats * inject_Z bins)
    by (unfold N; rewrite inject_Z_mult; reflexivity).
  assert (Hw1 : inject_Z repeats * (1 - (1 # 4503599627370496)) <= w).
  { apply Qmult_le_reg_pos with (inject_Z bins); [lra|]. rewrite Hw.
    setoid_replace (inject_Z repeats * (1 - (1 # 4503599627370496)) * inject_Z bins)
      with (N * (1 - (1 # 4503599627370496))) by (rewrite HNk; ring).
    lra. }
  assert (Hw2 : w <= inject_Z repeats * (1 + (5 # 18014398509481984))).
  { apply Qmult_le_reg_pos with (inject_Z bins); [lra|]. rewrite Hw.
    setoid_replace (inject_Z repeats * (1 + (5 # 18014398509481984)) * inject_Z bins)
      with (N * (1 + (5 # 18014398509481984))) by (rewrite HNk; ring).
    lra. }
  assert (Hwn : 1 # 2 <= w) by lra.
  pose proof (float_round_pos w (half_normal w Hwn)) as [Hq1 Hq2].
  rewrite epsilon_val in Hq1, Hq2.
  apply ceil_near; [exact Hrep|].
  change (1 # 2 ^ 51) with (1 # 2251799813685248).
  split; lra.
Qed.

Lemma repeats_time_round_trip_witness :
  let self := mkSoapyPower 2000000 (-85) 1 0 0 false in
  exists t r,
    repeats_to_time self 1024 123 = Ok t /\
    time_to_repeats self 1024 t = Ok r /\
    (r = 123%Z \/ r = (123 + 1)%Z).
Proof.
  intros self. apply (repeats_time_round_trip self 1024 123); try lia.
  - apply Qle_bool_iff. vm_compute. reflexivity.
  - apply Qle_bool_iff. vm_compute. reflexivity.
Defined.

(** At 2 MHz, the time of 123 repeats of 1024 bins asks for 124 repeats. *)
Example time_to_repeats_example :
  let self := mkSoapyPower 2000000 (-85) 1 0 0 false in
  (exists t, repeats_to_time self 1024 123 = Ok t /\
             t == 2268949521066275 # 36028797018963968) /\
  time_to_repeats self 1024 (2268949521066275 # 36028797018963968) = Ok 124%Z.
Proof.
  split; [|vm_compute; reflexivity].
  eexists. split; [reflexivity|]. vm_compute. reflexivity.
Qed.

(** ** More on the hop plan *)






Lemma py_div_zero (a b : Q) : b == 0 -> py_div a b = Raise ZeroDivisionError.
Proof.
  intros Hb. unfold py_div.
  replace (Qeq_bool b 0) with true by (symmetry; apply Qeq_bool_iff; exact Hb).
  reflexivity.
Qed.

(** With an overlap of 1 nothing is left after the crop: the hop size is
    zero, and a range that calls for hopping divides by it (line 117). *)
Lemma freq_plan_overlap_one (self : SoapyPower) (min_freq max_freq : Q) (bins : Z)
    (overlap : Q) :
  bins <> 0%Z -> ~ sample_rate self == 0 -> overlap == 1 -> min_freq <= max_freq ->
  freq_plan self min_freq max_freq bins overlap = Raise ZeroDivisionError.
Proof.
  intros Hbins Hr Ho Hm. unfold freq_plan, bins_to_bin_size, nearest_freq.
  rewrite py_div_Z by exact Hbins. cbn [bind]. cbv zeta.
  assert (Hbq : ~ inject_Z bins == 0).
  { intro E. apply Hbins. unfold Qeq in E. cbn in E. lia. }
  set (bin_size := sample_rate self / inject_Z bins).
  assert (Hb0 : ~ bin_size == 0).
  { unfold bin_size. intro E. apply Hr.
    setoid_replace (sample_rate self)
      with (sample_rate self / inject_Z bins * inject_Z bins) by (field; exact Hbq).
    rewrite E. ring. }
  rewrite py_div_nonzero by exact Hb0. cbn [bind].
  assert (Hc : (1 - overlap) * sample_rate self == 0) by (rewrite Ho; ring).
  assert (Hk : py_round ((1 - overlap) * sample_rate self / bin_size) = 0%Z).
  { rewrite (py_round_comp _ (inject_Z 0)); [apply py_round_inject_Z|].
    rewrite Hc. change (inject_Z 0) with 0. field. exact Hb0. }
  rewrite Hk.
  replace (Qle_bool ((1 - overlap) * sample_rate self) (max_freq - min_freq))
    with true by (symmetry; apply Qle_bool_iff; rewrite Hc; lra).
  rewrite py_div_zero by (change (inject_Z 0) with 0; ring). reflexivity.
Qed.

(** X9. [freq_plan] raises [ZeroDivisionError] when [bins] is zero (in
    [bins_to_bin_size], line 110), when the sample rate is zero (in
    [nearest_freq] on a bin size of zero, line 116), and when the overlap is
    1 and [min_freq <= max_freq] (in the number of hops on a hop size of
    zero, line 117).  In each case the division is made before the first log
    line.  The bounds on [bins] and [overlap] keep
    [round((1 - overlap) * bins)] of line 111 within the floats. *)
Theorem freq_plan_raises (self : SoapyPower) (min_freq max_freq : Q) (bins : Z)
    (overlap : Q) :
  (Z.abs bins <= 2 ^ 53)%Z -> Qabs overlap <= inject_Z (2 ^ 53) ->
  bins = 0%Z \/ sample_rate self == 0 \/ (overlap == 1 /\ min_freq <= max_freq) ->
  freq_plan self min_freq max_freq bins overlap = Raise ZeroDivisionError.
Proof.
  intros _ _ H.
  destruct (Z.eq_dec bins 0) as [->|Hbins].
  { unfold freq_plan, bins_to_bin_size.
    rewrite py_div_zero by reflexivity. reflexivity. }
  destruct (Qeq_dec (sample_rate self) 0) as [Hr|Hr].
  { unfold freq_plan, bins_to_bin_size, nearest_freq.
    rewrite py_div_Z by exact Hbins. cbn [bind]. cbv zeta.
    assert (Hb0 : sample_rate self / inject_Z bins == 0).
    { rewrite Hr. field. intro E. apply Hbins. unfold Qeq in E. cbn in E. lia. }
    rewrite py_div_zero by exact Hb0. reflexivity. }
  destruct H as [H|[H|[Ho Hm]]]; [contradiction | contradiction |].
  apply freq_plan_overlap_one; assumption.
Qed.

(** The plan from 88 MHz to 108 MHz with an overlap of 1. *)
Lemma freq_plan_raises_witness :
  freq_plan (mkSoapyPower 2000000 (-85) 1 0 0 false) 88000000 108000000 1024 1
  = Raise ZeroDivisionError.
Proof.
  apply (freq_plan_raises (mkSoapyPower 2000000 (-85) 1 0 0 false)
           88000000 108000000 1024 1).
  - vm_compute. intro H. discriminate H.
  - vm_compute. intro H. discriminate H.
  - right. right. split; [reflexivity | vm_compute; intro H; discriminate H].
Defined.

(** ** More on the buffer sizer *)

(** [create_buffer] divides by zero in its log lines when [bins] or the
    sample rate is zero. *)
Lemma create_buffer_zero_division (self : SoapyPower) (bins repeats base maxb : Z) :
  (0 < base)%Z -> bins = 0%Z \/ sample_rate self == 0 ->
  create_buffer self bins repeats base maxb = Raise ZeroDivisionError.
Proof.
  intros Hbase Hz.
  pose proof (align_up_ok (bins * repeats) base Hbase) as Hsize.
  pose proof (align_up_ok (effective_max maxb) base Hbase) as Hamax.
  destruct (Qeq_dec (sample_rate self) 0) as [Hr|Hr].
  - unfold create_buffer. rewrite Hsize. cbn [bind].
    destruct (0 <? effective_max maxb)%Z eqn:Hmax.
    + rewrite Hamax. cbn [bind].
      pose proof (align_up_bounds _ _ _ Hbase Hamax) as [Ha _].
      apply Z.ltb_lt in Hmax.
      destruct (_ <? _)%Z; cbn [bind].
      * rewrite (py_div_Z _ (math_ceil _ * base)) by lia. cbn [bind].
        rewrite (py_div_zero _ (sample_rate self)) by exact Hr. reflexivity.
      * rewrite (py_div_zero _ (sample_rate self)) by exact Hr. reflexivity.
    + cbn [bind]. rewrite (py_div_zero _ (sample_rate self)) by exact Hr.
      reflexivity.
  - destruct Hz as [Hb | Hr']; [|contradiction].
    assert (Hz : math_ceil (inject_Z 0 / inject_Z base) = 0%Z).
    { apply Qceiling_comp_eq. change (inject_Z 0) with 0. field.
      intro H. unfold Qeq in H. cbn in H. lia. }
    unfold create_buffer. rewrite Hsize. cbn [bind]. subst bins.
    rewrite (py_div_nonzero _ (sample_rate self)) by exact Hr.
    destruct (0 <? effective_max maxb)%Z eqn:Hmax.
    + rewrite Hamax. cbn [bind].
      pose proof (align_up_bounds _ _ _ Hbase Hamax) as [Ha _].
      apply Z.ltb_lt in Hmax. cbn [Z.mul] in *. rewrite Hz. cbn [Z.mul].
      set (amax := (math_ceil (inject_Z (effective_max maxb) / inject_Z base)
                    * base)%Z) in *.
      replace (amax <? 0)%Z with false by (symmetry; apply Z.ltb_ge; lia).
      cbn [bind].
      replace (0 <? amax)%Z with true by (symmetry; apply Z.ltb_lt; lia).
      rewrite (py_div_zero (inject_Z amax) (inject_Z 0)) by reflexivity.
      reflexivity.
    + cbn [bind]. rewrite Hmax. cbn [bind].
      rewrite (py_div_zero _ (inject_Z 0)) by reflexivity. reflexivity.
Qed.

(** X10. For a positive base buffer size, with [|bins * repeats| +
    base_buffer_size <= 2^53] and [max_buffer_size < 2^53], [create_buffer]
    raises [ZeroDivisionError] exactly when [bins] is zero or the sample rate
    is zero (in the divisions made for the log lines), and it raises
    [ValueError] exactly when neither is zero and [bins * repeats <=
    - base_buffer_size]: the required size is then negative, nothing clamps
    it, and [zeros] refuses it. *)
Theorem create_buffer_raises (self : SoapyPower) (bins repeats base maxb : Z) :
  (0 < base)%Z -> (Z.abs (bins * repeats) + base <= 2 ^ 53)%Z -> (maxb < 2 ^ 53)%Z ->
  (create_buffer_float self bins repeats base maxb = Raise ZeroDivisionError <->
   bins = 0%Z \/ sample_rate self == 0) /\
  (create_buffer_float self bins repeats base maxb = Raise ValueError <->
   bins <> 0%Z /\ ~ sample_rate self == 0 /\ (bins * repeats <= - base)%Z).
Proof.
  intros Hbase Hbound Hmaxb.
  rewrite create_buffer_float_exact by assumption.
  destruct (Z.eq_dec bins 0) as [Hb|Hb];
    [|destruct (Qeq_dec (sample_rate self) 0) as [Hr|Hr]].
  - rewrite (create_buffer_zero_division self bins repeats base maxb Hbase
               (or_introl Hb)).
    split; split; try discriminate.
    + intros _. left. exact Hb.
    + reflexivity.
    + intros (H & _). contradiction.
  - rewrite (create_buffer_zero_division self bins repeats base maxb Hbase
               (or_intror Hr)).
    split; split; try discriminate.
    + intros _. right. exact Hr.
    + reflexivity.
    + intros (_ & H & _). contradiction.
  - pose proof (align_up_ok (bins * repeats) base Hbase) as Hsize.
    pose proof (align_up_ok (effective_max maxb) base Hbase) as Hamax.
    rewrite (create_buffer_eval_nonzero self bins repeats base maxb _ Hb Hbase Hr Hsize).
    rewrite Hamax.
    set (size := (math_ceil (inject_Z (bins * repeats) / inject_Z base) * base)%Z) in *.
    set (amax := (math_ceil (inject_Z (effective_max maxb) / inject_Z base)
                  * base)%Z) in *.
    pose proof (align_up_bounds _ _ _ Hbase Hsize) as [Hs [ks Hks]].
    pose proof (align_up_bounds _ _ _ Hbase Hamax) as [Ha _].
    assert (Hneg : (size < 0)%Z <-> (bins * repeats <= - base)%Z).
    { split; [|lia]. intros Hlt.
      assert (ks < 0)%Z by nia.
      assert (ks * base <= -1 * base)%Z by (apply Z.mul_le_mono_nonneg_r; lia).
      lia. }
    assert (Hfree :
      (let? buffer := zeros size in Ok (1%Z, buffer)) = Raise ZeroDivisionError <->
      bins = 0%Z \/ sample_rate self == 0).
    { unfold zeros. destruct (size <? 0)%Z; cbn [bind];
        (split; [discriminate | intros [H|H]; contradiction]). }
    assert (Hval :
      (let? buffer := zeros size in Ok (1%Z, buffer)) = Raise ValueError <->
      bins <> 0%Z /\ ~ sample_rate self == 0 /\ (bins * repeats <= - base)%Z).
    { destruct (Z.lt_ge_cases size 0) as [Hlt|Hge].
      - rewrite zeros_neg by exact Hlt. cbn [bind].
        split; [intros _ | reflexivity].
        split; [exact Hb|]. split; [exact Hr | apply Hneg; exact Hlt].
      - rewrite zeros_ok by exact Hge. cbn [bind].
        split; [discriminate | intros (_ & _ & H); lia]. }
    destruct (0 <? effective_max maxb)%Z eqn:Hmax; [|split; assumption].
    apply Z.ltb_lt in Hmax.
    destruct (amax <? size)%Z eqn:Hcl; [|split; assumption].
    apply Z.ltb_lt in Hcl.
    split; (split; [discriminate|]).
    + intros [H|H]; contradiction.
    + intros (_ & _ & H). lia.
Qed.

(** The sizing of 10 bins and -2 repeats, which asks [zeros] for -16
    samples. *)
Lemma create_buffer_raises_witness :
  let self := mkSoapyPower 2000000 (-85) 1 0 0 false in
  (create_buffer_float self 10 (-2) 16 0 = Raise ZeroDivisionError <->
   10%Z = 0%Z \/ sample_rate self == 0) /\
  (create_buffer_float self 10 (-2) 16 0 = Raise ValueError <->
   10%Z <> 0%Z /\ ~ sample_rate self == 0 /\ (10 * -2 <= - 16)%Z).
Proof.
  intros self. apply (create_buffer_raises self 10 (-2) 16 0); lia.
Defined.

Example create_buffer_raises_example :
  let self := mkSoapyPower 2000000 (-85) 1 0 0 false in
  create_buffer_float self 10 (-2) 16 0 = Raise ValueError /\
  create_buffer self 10 (-2) 16 0 = Raise ValueError /\
  create_buffer_float self 0 10 16 0 = Raise ZeroDivisionError.
Proof. cbv zeta. repeat split; vm_compute; reflexivity. Qed.



(** ** More on the burst detector and the repeat loop *)

Lemma detect_some_bounds (minBurst : Z) (absThreshold : Q) (iq : list Q) (b : Burst) :
  (0 <= minBurst)%Z ->
  detect minBurst absThreshold iq = Ok (Some b) ->
  (0 <= b_safestart b <= b_start b)%Z /\ (minBurst < b_stop b - b_start b)%Z /\
  (b_stop b <= b_safestop b < Z.of_nat (length iq))%Z /\
  (b_start b - b_safestart b <= minBurst)%Z /\
  (b_safestop b - b_stop b <= minBurst)%Z.
Proof.
  intros Hm. unfold detect.
  destruct (numpy_max iq) as [m|e]; [|discriminate]. cbn [bind].
  destruct (Qltb absThreshold m); [|discriminate].
  destruct (numpy_where (fun v => Qltb absThreshold (Qabs v)) iq)
    as [|start rest] eqn:Hw; [discriminate|].
  unfold py_index. cbn [Z.to_nat nth_error bind].
  destruct (detect_first_burst minBurst absThreshold iq start rest Hm Hw)
    as [Hscan Hfb].
  rewrite Hscan. set (stop := scan_stop minBurst start rest) in *.
  destruct (minBurst <? stop - start)%Z eqn:Hlen; [|discriminate].
  apply Z.ltb_lt in Hlen. intros [= <-]. cbn [b_start b_stop b_safestart b_safestop].
  destruct Hfb as (Ha & _ & Hb & _).
  pose proof (above_lt_length _ _ _ Hb) as Hstop.
  destruct Ha as [Hstart0 _].
  destruct (minBurst <? start)%Z eqn:E1;
    [apply Z.ltb_lt in E1 | apply Z.ltb_ge in E1];
    (destruct (minBurst <? Z.of_nat (length iq) - 1 - stop)%Z eqn:E2;
      [apply Z.ltb_lt in E2 | apply Z.ltb_ge in E2]);
    repeat split; lia.
Qed.

Lemma length_py_slice {A : Type} (l : list A) (a b : Z) :
  (0 <= a <= b)%Z -> (b <= Z.of_nat (length l))%Z ->
  Z.of_nat (length (py_slice l a b)) = (b - a)%Z.
Proof.
  intros Hab Hb. unfold py_slice. rewrite length_firstn, length_skipn. lia.
Qed.

Lemma nth_error_py_slice {A : Type} (l : list A) (a b i : Z) :
  (0 <= a)%Z -> (0 <= i < b - a)%Z ->
  nth_error (py_slice l a b) (Z.to_nat i) = nth_error l (Z.to_nat (a + i)).
Proof.
  intros Ha Hi. unfold py_slice.
  rewrite nth_error_firstn.
  replace (Z.to_nat i <? Z.to_nat (b - a))%nat with true
    by (symmetry; apply Nat.ltb_lt; lia).
  rewrite nth_error_skipn. f_equal. lia.
Qed.

Lemma length_iq_of (buffer : list complex) : length (iq_of buffer) = length buffer.
Proof. unfold iq_of. apply length_map. Qed.

(** X12. When a repeat detects a burst, the block handed to the PSD engine is
    the samples from [start] up to, not including, [stop]: its length is the
    [samples] of the signal, and the sample at [stop] itself is left out.  The
    time-domain array is the magnitudes from [safestart] up to, not including,
    [safestop], so it has at most [samples + 2 * minBurst] elements; and
    [duration * sample_rate] is [samples]. *)
Theorem burst_block (self : SoapyPower) (freq : Q) (hs hs' : HopState)
    (buffer : list complex) (t0 t1 : Z) (b : Burst) :
  0 < sample_rate self ->
  acquisition self freq hs buffer t0 t1 = Ok hs' ->
  detected self hs buffer = Ok (Some b) ->
  exists block keys,
    ps_chunks (psd_state hs') = ps_chunks (psd_state hs) ++ [block] /\
    Z.of_nat (length block) = sig_samples (signal hs') /\
    sig_samples (signal hs') = (b_stop b - b_start b)%Z /\
    (forall i, (0 <= i < b_stop b - b_start b)%Z ->
       nth_error block (Z.to_nat i) = nth_error buffer (Z.to_nat (b_start b + i))) /\
    sig_burst (signal hs') = Some keys /\
    Z.of_nat (length (sig_td_array keys)) = (b_safestop b - b_safestart b)%Z /\
    (Z.of_nat (length (sig_td_array keys))
       <= sig_samples (signal hs') + 2 * minBurst_of self)%Z /\
    sig_duration (signal hs') * sample_rate self == inject_Z (sig_samples (signal hs')).
Proof.
  intros Hrate Ha Hd.
  destruct (minBurst_floor self ltac:(lra)) as [_ Hm].
  pose proof Hd as Hd'. unfold detected in Hd'.
  destruct (detect_some_bounds _ _ _ _ Hm Hd') as (H1 & H2 & H3 & H4 & H5).
  rewrite length_iq_of in H3.
  unfold acquisition in Ha. unfold detected in Hd. rewrite Hd in Ha. cbn [bind] in Ha.
  injection Ha as <-. cbn [psd_state ps_chunks signal signal_of sig_samples
    sig_burst sig_td_array sig_duration].
  eexists _, _. split; [reflexivity|].
  split; [apply length_py_slice; lia|]. split; [reflexivity|].
  split; [intros i Hi; apply nth_error_py_slice; lia|].
  split; [reflexivity|].
  assert (Hlen : Z.of_nat (length (map Qabs (py_slice (iq_of buffer)
                   (b_safestart b) (b_safestop b))))
                 = (b_safestop b - b_safestart b)%Z).
  { rewrite length_map. apply length_py_slice; [lia|]. rewrite length_iq_of. lia. }
  split; [exact Hlen|]. split; [cbn [sig_td_array]; rewrite Hlen; lia|].
  field. lra.
Qed.

Lemma burst_block_witness :
  let self := Scenario.self in
  let hs := psd_init Scenario.pow10 self 100 in
  let buffer := Scenario.bufferA in
  exists hs' b block keys,
    acquisition self 100 hs buffer 0 1 = Ok hs' /\
    detected self hs buffer = Ok (Some b) /\
    ps_chunks (psd_state hs') = ps_chunks (psd_state hs) ++ [block] /\
    Z.of_nat (length block) = sig_samples (signal hs') /\
    sig_samples (signal hs') = (b_stop b - b_start b)%Z /\
    (forall i, (0 <= i < b_stop b - b_start b)%Z ->
       nth_error block (Z.to_nat i) = nth_error buffer (Z.to_nat (b_start b + i))) /\
    sig_burst (signal hs') = Some keys /\
    Z.of_nat (length (sig_td_array keys)) = (b_safestop b - b_safestart b)%Z /\
    (Z.of_nat (length (sig_td_array keys))
       <= sig_samples (signal hs') + 2 * minBurst_of self)%Z /\
    sig_duration (signal hs') * sample_rate self == inject_Z (sig_samples (signal hs')).
Proof.
  intros self hs buffer. eexists _, _.
  assert (Ha : acquisition self 100 hs buffer 0 1 = Ok _) by (vm_compute; reflexivity).
  assert (Hd : detected self hs buffer = Ok (Some _)) by (vm_compute; reflexivity).
  destruct (burst_block self 100 hs _ buffer 0 1 _ eq_refl Ha Hd)
    as (block & keys & H).
  exists block, keys. split; [exact Ha|]. split; [exact Hd|]. exact H.
Defined.

(** A repeat raises exactly on an empty buffer, and then [ValueError]. *)
Lemma acquisition_raises (self : SoapyPower) (freq : Q) (hs : HopState)
    (buffer : list complex) (t0 t1 : Z) :
  (buffer = [] -> acquisition self freq hs buffer t0 t1 = Raise ValueError) /\
  (forall e, acquisition self freq hs buffer t0 t1 = Raise e ->
             e = ValueError /\ buffer = []).
Proof.
  split.
  - intros ->. reflexivity.
  - intros e H. destruct buffer as [|c rest].
    + cbn in H. injection H as <-. split; reflexivity.
    + exfalso. unfold acquisition in H.
      destruct (detect_total (minBurst_of self)
                  (update_threshold (absThreshold hs) (noise_of (iq_of (c :: rest))))
                  (iq_of (c :: rest)) ltac:(discriminate)) as [d Hd].
      rewrite Hd in H. cbn [bind] in H. destruct d; discriminate H.
Qed.

(** The signal and the PSD state through the repeats. *)
Lemma fold_acq_signal (self : SoapyPower) (freq : Q)
    (all : list (list complex * Z * Z)) (reads : list (list complex * Z * Z)) :
  0 <= sample_rate self ->
  forall hs hs',
    (forall x, In x reads -> In x all) ->
    signal hs = signal0 \/ burst_signal self freq all (signal hs) ->
    fold_acq self freq hs reads = Ok hs' ->
    (signal hs' = signal0 \/ burst_signal self freq all (signal hs')) /\
    ps_freq (psd_state hs') = ps_freq (psd_state hs) /\
    (length (ps_chunks (psd_state hs'))
       <= length (ps_chunks (psd_state hs)) + length reads)%nat.
Proof.
  intros Hrate. destruct (minBurst_floor self Hrate) as [_ Hm].
  induction reads as [|[[buffer t0] t1] rest IH]; intros hs hs' Hin Hsig Hf.
  - cbn in Hf. injection Hf as <-. split; [exact Hsig|]. split; [reflexivity | lia].
  - cbn [fold_acq] in Hf.
    destruct (acquisition self freq hs buffer t0 t1) as [hs1|e] eqn:Ha;
      cbn [bind] in Hf; [|discriminate].
    assert (H1 : (signal hs1 = signal0 \/ burst_signal self freq all (signal hs1)) /\
                 ps_freq (psd_state hs1) = ps_freq (psd_state hs) /\
                 (length (ps_chunks (psd_state hs1))
                    <= length (ps_chunks (psd_state hs)) + 1)%nat).
    { unfold acquisition in Ha.
      destruct (detect (minBurst_of self) _ (iq_of buffer)) as [[b|]|e] eqn:Hd;
        cbn [bind] in Ha; [| |discriminate]; injection Ha as <-;
        cbn [signal psd_state ps_freq ps_chunks].
      - destruct (detect_some_bounds _ _ _ _ Hm Hd) as (B1 & B2 & B3 & _).
        rewrite length_iq_of in B3.
        split; [|split; [reflexivity | rewrite length_app; cbn; lia]].
        right. eexists _, buffer, t0, t1. cbn.
        split; [reflexivity|]. split; [apply Hin; left; reflexivity|].
        repeat (split; [reflexivity || lia|]). lia.
      - split; [exact Hsig|]. split; [reflexivity | lia]. }
    destruct H1 as (S1 & F1 & C1).
    destruct (IH hs1 hs' (fun x Hx => Hin x (or_intror Hx)) S1 Hf) as (S2 & F2 & C2).
    split; [exact S2|]. split; [congruence|]. cbn [length]. lia.
Qed.


(** ** Counting the events of a trace *)

Lemma count_kind_app (k : kind) (a b : list event) :
  count_kind k (a ++ b) = (count_kind k a + count_kind k b)%nat.
Proof. unfold count_kind. rewrite filter_app, length_app. reflexivity. Qed.

Lemma count_sent_app (a b : list event) :
  count_sent (a ++ b) = (count_sent a + count_sent b)%nat.
Proof. unfold count_sent. rewrite filter_app, length_app. reflexivity. Qed.

Lemma hops_of_app (a b : list event) : hops_of (a ++ b) = hops_of a ++ hops_of b.
Proof. apply flat_map_app. Qed.

Lemma runs_of_app (a b : list event) : runs_of (a ++ b) = runs_of a ++ runs_of b.
Proof. apply flat_map_app. Qed.

Lemma repeat_event_counts (es : list event) :
  Forall repeat_event es ->
  count_kind KHop es = O /\ count_kind KMeasure es = O /\ count_kind KSend es = O /\
  count_sent es = O /\ hops_of es = [] /\ runs_of es = [].
Proof.
  induction 1 as [|e es He _ IH]; [repeat split|].
  destruct IH as (H1 & H2 & H3 & H4 & H5 & H6).
  destruct e as [| | |s b| | | |]; try contradiction;
    [|destruct s; try contradiction];
    unfold count_kind, count_sent in *; cbn; repeat split; assumption.
Qed.

Lemma accounts_nil (br : Z) (w : World) : accounts br w w [].
Proof.
  unfold accounts. cbn. rewrite app_nil_r, !Nat.add_0_r. repeat split; lia.
Qed.

Lemma accounts_app (br : Z) (w w1 w2 : World) (es1 es2 : list event) :
  accounts br w w1 es1 -> accounts br w1 w2 es2 -> accounts br w w2 (es1 ++ es2).
Proof.
  intros (T1 & A1 & C1 & S1 & M1 & Q1) (T2 & A2 & C2 & S2 & M2 & Q2).
  unfold accounts. rewrite !count_kind_app, count_sent_app.
  split; [rewrite T2, T1, app_assoc; reflexivity|].
  repeat split; nia.
Qed.

(** A read of the flag, or the start of a run, moves no counter. *)
Lemma accounts_quiet (br : Z) (w : World) (e : event) :
  match e with EvCheck _ _ | EvRun _ => True | _ => False end ->
  accounts br w
    (mkWorld (trace w ++ [e]) (acquisitions w) (count w) (device_freq w)
       (is_streaming w)) [e].
Proof.
  intros He. destruct e; try contradiction;
    unfold accounts, count_kind, count_sent; cbn; repeat split; lia.
Qed.

(** ** The repeat loop, [psd] and a hop: exceptions, counters and times *)


Section SweepMore.

Variable pow10 : Q -> Q.
Variable read_stream_into_buffer : nat -> list complex.
Variable utcnow : nat -> Z.
Variable psd_result : PsdState -> list Q.
Variable sendto_ok : nat -> bool.
Variable shutdown_at : nat.
Variable time_limit_exceeded : Z -> bool.
Variable start_stream : Z -> Z.

Local Abbreviation flag := (shutdown_set shutdown_at).
Local Abbreviation repeat_loop' := (repeat_loop read_stream_into_buffer utcnow shutdown_at).
Local Abbreviation psd' := (psd pow10 read_stream_into_buffer utcnow shutdown_at).
Local Abbreviation hop' :=
  (hop pow10 read_stream_into_buffer utcnow psd_result sendto_ok shutdown_at).
Local Abbreviation hop_loop' :=
  (hop_loop pow10 read_stream_into_buffer utcnow psd_result sendto_ok shutdown_at).
Local Abbreviation run_loop' :=
  (run_loop pow10 read_stream_into_buffer utcnow psd_result sendto_ok shutdown_at
     time_limit_exceeded).
Local Abbreviation sweep' :=
  (sweep pow10 read_stream_into_buffer utcnow psd_result sendto_ok shutdown_at
     time_limit_exceeded start_stream).
Local Abbreviation reads' := (reads_from read_stream_into_buffer utcnow).

(** The repeat loop: every pass fills the buffer once; it raises only on an
    empty buffer, the last one read; the times it leaves are those of the
    last fill. *)
Lemma repeat_loop_more (self : SoapyPower) (freq : Q) (n : nat) :
  forall hs w r w',
    repeat_loop' self freq n hs w = (r, w') ->
    exists es,
      trace w' = trace w ++ es /\ Forall repeat_event es /\
      acquisitions w' = (acquisitions w + count_kind KAcquire es)%nat /\
      (count_kind KAcquire es <= n)%nat /\
      (n <> O ->
       (acquisitions w < acquisitions w')%nat /\
       (forall e, r = Raise e ->
          e = ValueError /\
          read_stream_into_buffer (acquisitions w' - 1) = []) /\
       (forall hs', r = Ok hs' ->
          acq_times hs' =
            Some (utcnow (2 * (acquisitions w' - 1))%nat,
                  utcnow (2 * (acquisitions w' - 1) + 1)%nat))).
Proof.
  induction n as [|n IH]; intros hs w r w' H.
  - cbn in H. injection H as <- <-. exists [].
    rewrite app_nil_r. split; [reflexivity|]. split; [constructor|].
    split; [cbn; lia|]. split; [cbn; lia|]. intros Hn. contradiction.
  - cbn [repeat_loop] in H. unfold bindM at 1 in H.
    unfold read_buffer in H. cbn [fst snd] in H.
    set (k := acquisitions w) in *.
    set (w1 := mkWorld (trace w ++ [EvAcquire k]) (S k) (count w) (device_freq w)
                 (is_streaming w)) in *.
    unfold bindM at 1 in H. unfold lift in H.
    destruct (acquisition self freq hs (read_stream_into_buffer k)
                (utcnow (2 * k)%nat) (utcnow (2 * k + 1)%nat)) as [hs1|e] eqn:Ha.
    + unfold bindM, read_shutdown in H.
      set (w2 := mkWorld (trace w1 ++ [EvCheck AtRepeat (flag w1)]) (acquisitions w1)
                   (count w1) (device_freq w1) (is_streaming w1)) in *.
      assert (Hone : forall hsx wx, wx = w2 -> hsx = hs1 ->
                exists es : list event,
                  trace wx = trace w ++ es /\ Forall repeat_event es /\
                  acquisitions wx = (k + count_kind KAcquire es)%nat /\
                  (count_kind KAcquire es <= S n)%nat /\
                  (S n <> O ->
                   (k < acquisitions wx)%nat /\
                   (forall e, Ok hsx = Raise e ->
                      e = ValueError /\
                      read_stream_into_buffer (acquisitions wx - 1) = []) /\
                   (forall hs', Ok hsx = Ok hs' ->
                      acq_times hs' =
                        Some (utcnow (2 * (acquisitions wx - 1))%nat,
                              utcnow (2 * (acquisitions wx - 1) + 1)%nat)))).
      { intros hsx wx -> ->. exists [EvAcquire k; EvCheck AtRepeat (flag w1)].
        split; [cbn; rewrite <- app_assoc; reflexivity|].
        split; [repeat constructor|].
        split; [cbn; lia|]. split; [cbn; lia|]. intros _.
        split; [cbn; lia|]. split; [intros e He; discriminate He|].
        intros hs' [= <-]. cbn [acquisitions w2 w1].
        rewrite (acquisition_times _ _ _ _ _ _ _ Ha).
        replace (S k - 1)%nat with k by lia. reflexivity. }
      destruct (flag w1) eqn:Hb.
      * cbn in H. injection H as <- <-. apply Hone; reflexivity.
      * destruct n as [|n'].
        { cbn in H. injection H as <- <-. apply Hone; reflexivity. }
        destruct (IH hs1 w2 r w' H) as (es & Htr & Hes & Hacq & Hle & Hn).
        destruct (Hn ltac:(discriminate)) as (Hlt & Hraise & Hok).
        exists (EvAcquire k :: EvCheck AtRepeat false :: es).
        split; [rewrite Htr; cbn; rewrite <- !app_assoc; reflexivity|].
        split; [repeat constructor; exact Hes|].
        rewrite !count_kind_cons. cbn [has_kind].
        split; [rewrite Hacq; cbn; lia|]. split; [lia|]. intros _.
        split; [cbn [acquisitions w2 w1] in Hlt; lia|].
        split; assumption.
    + injection H as <- <-. exists [EvAcquire k].
      split; [reflexivity|]. split; [repeat constructor|].
      split; [cbn; lia|]. split; [cbn; lia|]. intros _.
      split; [cbn; lia|]. split.
      * intros e' [= <-]. cbn [acquisitions w1].
        replace (S k - 1)%nat with k by lia.
        apply (acquisition_raises self freq hs (read_stream_into_buffer k)
                 (utcnow (2 * k)%nat) (utcnow (2 * k + 1)%nat)) in Ha.
        exact Ha.
      * intros hs' Hx. discriminate Hx.
Qed.

(** The ways through [psd]. *)
Lemma psd_more (self : SoapyPower) (freq : Q) (w : World) r w' :
  psd' self freq w = (r, w') ->
  (is_streaming w = false /\ r = Raise RuntimeError /\ w' = w) \/
  (is_streaming w = true /\
   exists es,
     trace w' = trace w ++ EvHop freq :: es /\ Forall repeat_event es /\
     acquisitions w' = (acquisitions w + count_kind KAcquire es)%nat /\
     (count_kind KAcquire es <= Z.to_nat (_buffer_repeats self))%nat /\
     count w' = count w /\ is_streaming w' = true /\ device_freq w' = Some freq /\
     (((_buffer_repeats self <= 0)%Z /\ r = Raise UnboundLocalError /\ es = []) \/
      ((0 < _buffer_repeats self)%Z /\
       (acquisitions w < acquisitions w')%nat /\
       ((r = Raise ValueError /\
         read_stream_into_buffer (acquisitions w' - 1) = []) \/
        (exists ps sig,
           r = Ok (ps, utcnow (2 * (acquisitions w' - 1))%nat,
                   utcnow (2 * (acquisitions w' - 1) + 1)%nat, sig)))))).
Proof.
  intros H. unfold psd in H. destruct (is_streaming w) eqn:Hstr; cbn [negb] in H.
  2:{ injection H as <- <-. left. repeat split. }
  right. split; [reflexivity|].
  unfold bindM at 1 in H. unfold emit in H.
  unfold bindM at 1 in H. unfold tune in H. cbn [trace acquisitions count
    device_freq is_streaming] in H.
  set (w1 := mkWorld (trace w ++ [EvHop freq]) (acquisitions w) (count w)
               (Some freq) (is_streaming w)) in *.
  unfold bindM in H.
  destruct (repeat_loop' self freq (Z.to_nat (_buffer_repeats self))
              (psd_init pow10 self freq) w1) as [r1 w2] eqn:Hloop.
  destruct (repeat_loop_fold _ _ _ _ _ _ _ _ _ _ Hloop)
    as (m & es0 & _ & _ & Hcount & Hs & Hdev & _ & _ & _).
  destruct (repeat_loop_more _ _ _ _ _ _ _ Hloop) as (es & Htr & Hes & Hacq & Hle & Hn).
  assert (Hw' : w' = w2).
  { destruct r1 as [hs'|e]; [|injection H as _ <-; reflexivity].
    destruct (acq_times hs') as [[t0 t1]|]; injection H as _ <-; reflexivity. }
  subst w'. exists es.
  split; [rewrite Htr; cbn [trace w1]; rewrite <- app_assoc; reflexivity|].
  split; [exact Hes|]. split; [exact Hacq|]. split; [exact Hle|].
  split; [exact Hcount|]. split; [rewrite Hs; exact Hstr|].
  split; [rewrite Hdev; reflexivity|].
  destruct (Z.to_nat (_buffer_repeats self)) as [|n] eqn:Hrep.
  - left. split; [lia|]. cbn in Hloop. injection Hloop as <- <-.
    cbn in H. injection H as <-. split; [reflexivity|].
    apply (f_equal (@length event)) in Htr. rewrite length_app in Htr.
    destruct es; [reflexivity | cbn [length] in Htr; lia].
  - right. split; [lia|].
    destruct (Hn ltac:(discriminate)) as (Hlt & Hraise & Hok).
    split; [exact Hlt|].
    destruct r1 as [hs'|e].
    + right. rewrite (Hok hs' eq_refl) in H. injection H as <-.
      eexists _, _. reflexivity.
    + left. injection H as <-. destruct (Hraise e eq_refl) as [-> Hread].
      split; [reflexivity | exact Hread].
Qed.

Lemma flag_read (l : list event) (e : event) :
  (shutdown_at <=? length l)%nat = (shutdown_at <? length (l ++ [e]))%nat.
Proof. rewrite length_app, Nat.add_1_r. reflexivity. Qed.

(** The ways through one hop. *)
Lemma hop_more (self : SoapyPower) (freq : Q) (w : World) r w' :
  hop' self freq w = (r, w') ->
  exists r1 w1 tail,
    psd' self freq w = (r1, w1) /\
    trace w' = trace w1 ++ tail /\ acquisitions w' = acquisitions w1 /\
    count w' = (count w1 + count_sent tail)%nat /\
    ((tail = [] /\ exists e, r1 = Raise e /\ r = Raise e) \/
     exists ps t0 t1 sig,
       r1 = Ok (ps, t0, t1, sig) /\
       let m := measurements self (psd_result ps)
                  (_buffer_len self * _buffer_repeats self) sig in
       let b := (shutdown_at <? length (trace w'))%nat in
       (((-1 <? sig_start sig)%Z = false /\ tail = [EvCheck AtHop b] /\ r = Ok b) \/
        ((-1 <? sig_start sig)%Z = true /\
         ((exists e, m = Raise e /\ tail = [EvMeasure] /\ r = Raise e) \/
          (m = Ok None /\ tail = [EvMeasure; EvCheck AtHop b] /\ r = Ok b) \/
          (exists mm, m = Ok (Some mm) /\ sendto_ok (count w1) = true /\
                      tail = [EvMeasure; EvSend mm; EvCheck AtHop b] /\ r = Ok b) \/
          (exists mm, m = Ok (Some mm) /\ sendto_ok (count w1) = false /\
                      tail = [EvMeasure; EvSendFail mm] /\ r = Raise OSError))))).
Proof.
  intros H. unfold hop in H. unfold bindM at 1 in H.
  destruct (psd' self freq w) as [r1 w1] eqn:Hpsd.
  exists r1, w1.
  destruct r1 as [[[[ps t0] t1] sig]|e].
  2:{ injection H as <- <-. exists []. rewrite app_nil_r.
      split; [reflexivity|]. split; [reflexivity|]. split; [reflexivity|].
      split; [cbn; lia|].
      left. split; [reflexivity | eexists; split; reflexivity]. }
  unfold bindM at 1 in H.
  destruct (-1 <? sig_start sig)%Z eqn:Hstart.
  - unfold bindM at 1 in H. unfold emit in H. unfold bindM at 1 in H.
    unfold lift in H.
    destruct (measurements self (psd_result ps)
                (_buffer_len self * _buffer_repeats self) sig) as [[mm|]|e] eqn:Hm.
    + unfold sendto in H. cbn [count trace acquisitions device_freq is_streaming] in H.
      destruct (sendto_ok (count w1)) eqn:Hsend.
      * unfold read_shutdown, shutdown_set in H. cbn [trace] in H.
        injection H as <- <-. cbn [trace acquisitions count].
        exists [EvMeasure; EvSend mm; EvCheck AtHop
                  (shutdown_at <=? length ((trace w1 ++ [EvMeasure]) ++ [EvSend mm]))%nat].
        split; [reflexivity|].
        split; [repeat rewrite <- app_assoc; cbn [app]; reflexivity|].
        split; [reflexivity|]. split; [cbn; lia|].
        right. exists ps, t0, t1, sig. split; [reflexivity|]. cbn zeta.
        right. split; [exact Hstart|]. right. right. left.
        exists mm. rewrite Hm, <- flag_read.
        split; [reflexivity|]. split; [reflexivity|]. split; reflexivity.
      * injection H as <- <-. cbn [trace acquisitions count].
        exists [EvMeasure; EvSendFail mm]. split; [reflexivity|].
        split; [repeat rewrite <- app_assoc; cbn [app]; reflexivity|].
        split; [reflexivity|]. split; [cbn; lia|].
        right. exists ps, t0, t1, sig. split; [reflexivity|]. cbn zeta.
        right. split; [exact Hstart|]. right. right. right.
        exists mm. rewrite Hm.
        split; [reflexivity|]. split; [reflexivity|]. split; reflexivity.
    + unfold ret, read_shutdown, shutdown_set in H. cbn [trace] in H.
      injection H as <- <-. cbn [trace acquisitions count].
      exists [EvMeasure; EvCheck AtHop (shutdown_at <=? length (trace w1 ++ [EvMeasure]))%nat].
      split; [reflexivity|].
      split; [repeat rewrite <- app_assoc; cbn [app]; reflexivity|].
      split; [reflexivity|]. split; [cbn; lia|].
      right. exists ps, t0, t1, sig. split; [reflexivity|]. cbn zeta.
      right. split; [exact Hstart|]. right. left. rewrite Hm, <- flag_read.
      split; [reflexivity|]. split; reflexivity.
    + injection H as <- <-. cbn [trace acquisitions count].
      exists [EvMeasure]. split; [reflexivity|].
      split; [reflexivity|]. split; [reflexivity|]. split; [cbn; lia|].
      right. exists ps, t0, t1, sig. split; [reflexivity|]. cbn zeta.
      right. split; [exact Hstart|]. left. exists e. rewrite Hm.
      split; [reflexivity|]. split; reflexivity.
  - unfold ret, read_shutdown, shutdown_set in H.
    injection H as <- <-. cbn [trace acquisitions count].
    exists [EvCheck AtHop (shutdown_at <=? length (trace w1))%nat].
    split; [reflexivity|].
    split; [reflexivity|]. split; [reflexivity|]. split; [cbn; lia|].
    right. exists ps, t0, t1, sig. split; [reflexivity|]. cbn zeta.
    left. rewrite <- flag_read. split; [exact Hstart|]. split; reflexivity.
Qed.

Lemma length_reads_from (k m : nat) : length (reads' k m) = m.
Proof. unfold reads_from. rewrite length_map, length_seq. reflexivity. Qed.

(** X13: what [psd] returns as [signal], for a sample rate that is not
    negative.  Either it is still the initial dictionary (start -1, no burst
    keys), or it records a burst found in one of the buffers filled during
    this call: its report time is the start time of that fill, its frequency
    the hop frequency, its rate the sample rate, and
    [0 <= start < stop < len(buffer)], [samples = stop - start > minBurst].
    So [signal["start"] > -1], the test [sweep] makes, holds exactly when the
    burst keys are there.  The PSD state is the one of the hop frequency and
    has received at most one block per fill. *)
Theorem psd_signal (self : SoapyPower) (freq : Q) (w : World)
    (ps : PsdState) (t0 t1 : Z) (sig : Signal) (w' : World) :
  0 <= sample_rate self ->
  psd' self freq w = (Ok (ps, t0, t1, sig), w') ->
  (sig = signal0 \/
   burst_signal self freq
     (reads' (acquisitions w) (acquisitions w' - acquisitions w)) sig) /\
  ((-1 < sig_start sig)%Z <-> sig_burst sig <> None) /\
  ps_freq ps = freq /\
  (length (ps_chunks ps) <= acquisitions w' - acquisitions w)%nat.
Proof.
  intros Hrate H.
  destruct (is_streaming w) eqn:Hstr.
  2:{ unfold psd in H. rewrite Hstr in H. discriminate H. }
  destruct (psd_fold _ _ _ _ self freq w _ _ Hstr H)
    as (m & es & _ & Hacq & _ & _ & _ & _ & Hok).
  destruct (Hok ps t0 t1 sig eq_refl) as (hs' & Hf & -> & -> & _ & _).
  replace (acquisitions w' - acquisitions w)%nat with m by lia.
  destruct (fold_acq_signal self freq (reads' (acquisitions w) m)
              (reads' (acquisitions w) m) Hrate (psd_init pow10 self freq) hs' (fun x Hx => Hx)
              (or_introl eq_refl) Hf) as (Hs & Hfq & Hlen).
  rewrite length_reads_from in Hlen. cbn in Hfq, Hlen.
  split; [exact Hs|]. split; [|split; [exact Hfq | exact Hlen]].
  destruct Hs as [-> | (keys & buffer & a0 & a1 & Hk & _ & _ & _ & _ & Hb & _)].
  - cbn. split; [lia | intros Hx; contradiction Hx; reflexivity].
  - rewrite Hk. split; [intros _; discriminate | intros _; lia].
Qed.




(** ** The loops of [sweep]: counters, runs and hops *)

Lemma hop_accounts (self : SoapyPower) (freq : Q) (w : World) r w' :
  hop' self freq w = (r, w') ->
  exists es,
    accounts (_buffer_repeats self) w w' es /\ runs_of es = [] /\
    (hops_of es = [freq] \/ (hops_of es = [] /\ exists e, r = Raise e)) /\
    (r = Ok true -> (shutdown_at < length (trace w'))%nat).
Proof.
  intros H.
  destruct (hop_more self freq w r w' H)
    as (r1 & w1 & tail & Hpsd & Htr & Hacq & Hc & Hcases).
  destruct (psd_more self freq w r1 w1 Hpsd)
    as [(Hs & -> & ->) | (Hs & es & Htr1 & Hes & Hacq1 & Hle & Hc1 & _ & _ & _)].
  - destruct Hcases as [(-> & e & _ & ->) | (ps & t0 & t1 & sig & Hx & _)];
      [|discriminate Hx].
    exists []. split.
    { unfold accounts. rewrite Htr, Hacq, Hc. cbn. rewrite !Nat.add_0_r.
      repeat split; lia. }
    split; [reflexivity|].
    split; [right; split; [reflexivity | eexists; reflexivity]|].
    intros Hx. discriminate Hx.
  - destruct (repeat_event_counts es Hes) as (K1 & K2 & K3 & K4 & K5 & K6).
    assert (Htail : (count_kind KSend tail <= count_kind KMeasure tail)%nat /\
                    (count_kind KMeasure tail <= 1)%nat /\
                    count_kind KHop tail = O /\ count_kind KAcquire tail = O /\
                    hops_of tail = [] /\ runs_of tail = [] /\
                    (r = Ok true -> (shutdown_at < length (trace w'))%nat)).
    { destruct Hcases as [(-> & e & _ & ->) | (ps & t0 & t1 & sig & _ & Hcases)].
      { cbn. repeat split; try lia. intros Hx. discriminate Hx. }
      cbn zeta in Hcases.
      assert (Hb : Ok (shutdown_at <? length (trace w'))%nat = Ok true ->
                   (shutdown_at < length (trace w'))%nat).
      { intros [= Hx]. apply Nat.ltb_lt. exact Hx. }
      destruct Hcases as [(_ & -> & ->) | (_ & [(e & _ & -> & ->) | [(_ & -> & ->)
          | [(mm & _ & _ & -> & ->) | (mm & _ & _ & -> & ->)]]])];
        unfold count_kind; cbn; repeat split; try lia; try exact Hb;
        intros Hx; discriminate Hx. }
    destruct Htail as (T1 & T2 & T3 & T4 & T5 & T6 & T7).
    exists (([EvHop freq] ++ es) ++ tail).
    split.
    { unfold accounts. rewrite !count_kind_app, !count_sent_app, K1, K2, K3, K4, T3, T4.
      split; [rewrite Htr, Htr1, <- !app_assoc; reflexivity|].
      change (count_kind KAcquire [EvHop freq]) with O.
      change (count_kind KSend [EvHop freq]) with O.
      change (count_kind KMeasure [EvHop freq]) with O.
      change (count_kind KHop [EvHop freq]) with 1%nat.
      change (count_sent [EvHop freq]) with O.
      repeat split; lia. }
    split; [rewrite !runs_of_app, K6, T6; reflexivity|].
    split; [left; rewrite !hops_of_app, K5, T5; reflexivity | exact T7].
Qed.

Lemma hop_loop_more (self : SoapyPower) (freq_list : list Q) :
  forall w r w',
    hop_loop' self freq_list w = (r, w') ->
    exists es j,
      accounts (_buffer_repeats self) w w' es /\ runs_of es = [] /\
      hops_of es = firstn j freq_list /\
      (r = Ok tt ->
       hops_of es = freq_list \/ (shutdown_at < length (trace w'))%nat).
Proof.
  induction freq_list as [|freq rest IH]; intros w r w' H.
  - cbn in H. injection H as <- <-. exists [], O.
    split; [apply accounts_nil|]. split; [reflexivity|]. split; [reflexivity|].
    intros _. left. reflexivity.
  - cbn [hop_loop] in H. unfold bindM in H.
    destruct (hop' self freq w) as [r1 w1] eqn:Hhop.
    destruct (hop_accounts self freq w r1 w1 Hhop) as (es1 & Hacc1 & Hr1 & Hh1 & Hb1).
    destruct r1 as [[|]|e].
    + injection H as <- <-. exists es1, 1%nat.
      split; [exact Hacc1|]. split; [exact Hr1|].
      destruct Hh1 as [Hh1 | [_ [e He]]]; [|discriminate He].
      split; [rewrite Hh1; reflexivity|].
      intros _. right. apply Hb1. reflexivity.
    + destruct (IH w1 r w' H) as (es2 & j2 & Hacc2 & Hr2 & Hh2 & Hok2).
      destruct Hh1 as [Hh1 | [_ [e He]]]; [|discriminate He].
      exists (es1 ++ es2), (S j2).
      split; [apply (accounts_app _ _ w1); assumption|].
      split; [rewrite runs_of_app, Hr1, Hr2; reflexivity|].
      split; [rewrite hops_of_app, Hh1, Hh2; reflexivity|].
      intros Hr. destruct (Hok2 Hr) as [Hall | Hlate]; [left | right; exact Hlate].
      rewrite hops_of_app, Hh1, Hall. reflexivity.
    + injection H as <- <-.
      destruct Hh1 as [Hh1 | [Hh1 _]].
      * exists es1, 1%nat. split; [exact Hacc1|]. split; [exact Hr1|].
        split; [rewrite Hh1; reflexivity|]. intros Hx. discriminate Hx.
      * exists es1, O. split; [exact Hacc1|]. split; [exact Hr1|].
        split; [rewrite Hh1; reflexivity|]. intros Hx. discriminate Hx.
Qed.

Lemma seq_runs (run : Z) (k : nat) :
  map (fun i => (run + 1 + Z.of_nat i)%Z) (seq 1 k) =
  map (fun i => (run + Z.of_nat i)%Z) (seq 2 k).
Proof.
  rewrite <- (seq_shift k 1), map_map. apply map_ext. intros i. lia.
Qed.

(** The loop over the runs: the runs are numbered from [run + 1] on, each but
    the last visits the whole plan, and the last one a prefix of it. *)
Lemma run_loop_more (self : SoapyPower) (freq_list : list Q) (runs : Z)
    (fuel : nat) :
  forall run w r w',
    run_loop' fuel self freq_list runs run w = Some (r, w') ->
    exists es k j,
      accounts (_buffer_repeats self) w w' es /\
      runs_of es = map (fun i => (run + Z.of_nat i)%Z) (seq 1 k) /\
      hops_of es = concat (repeat freq_list (k - 1)) ++ firstn j freq_list /\
      (k = O -> j = O) /\
      ((0 < runs)%Z -> (run <= runs)%Z -> (Z.of_nat k <= runs - run)%Z) /\
      ((shutdown_at <= length (trace w))%nat -> k = O) /\
      (r = Ok tt -> (forall i, time_limit_exceeded i = false) -> (0 < runs)%Z ->
       (run <= runs)%Z -> (length (trace w') <= shutdown_at)%nat ->
       Z.of_nat k = (runs - run)%Z /\ hops_of es = concat (repeat freq_list k)).
Proof.
  induction fuel as [|fuel IH]; intros run w r w' H; [discriminate H|].
  cbn [run_loop] in H. unfold read_shutdown in H.
  pose proof (accounts_quiet (_buffer_repeats self) w (EvCheck AtWhile (flag w)) I)
    as Hacc1.
  set (w1 := mkWorld (trace w ++ [EvCheck AtWhile (flag w)]) (acquisitions w)
               (count w) (device_freq w) (is_streaming w)) in *.
  destruct (negb (flag w) && ((runs =? 0)%Z || (run <? runs)%Z)) eqn:Hcond.
  2:{ injection H as <- <-. exists [EvCheck AtWhile (flag w)], O, O.
      split; [exact Hacc1|]. split; [reflexivity|]. split; [reflexivity|].
      split; [reflexivity|]. split; [intros; cbn; lia|]. split; [reflexivity|].
      intros _ _ Hruns Hle Hlen. split; [|reflexivity].
      cbn [trace w1] in Hlen. rewrite length_app in Hlen. cbn [length] in Hlen.
      assert (Hf : flag w = false).
      { unfold shutdown_set. apply Nat.leb_gt. lia. }
      rewrite Hf in Hcond. cbn [negb andb] in Hcond.
      apply orb_false_iff in Hcond. destruct Hcond as [_ Hlt].
      apply Z.ltb_ge in Hlt. cbn. lia. }
  apply andb_true_iff in Hcond. destruct Hcond as [Hf Hgo].
  apply negb_true_iff in Hf.
  assert (Hnot : ~ (shutdown_at <= length (trace w))%nat).
  { unfold shutdown_set in Hf. apply Nat.leb_gt in Hf. lia. }
  assert (Hnext : (0 < runs)%Z -> (run + 1 <= runs)%Z).
  { intros Hpos. apply orb_true_iff in Hgo. destruct Hgo as [Hz | Hlt].
    - apply Z.eqb_eq in Hz. lia.
    - apply Z.ltb_lt in Hlt. lia. }
  unfold bindM, emit in H.
  pose proof (accounts_quiet (_buffer_repeats self) w1 (EvRun (run + 1)) I) as Hacc2.
  set (w2 := mkWorld (trace w1 ++ [EvRun (run + 1)]) (acquisitions w1) (count w1)
               (device_freq w1) (is_streaming w1)) in *.
  destruct (hop_loop' self freq_list w2) as [r3 w3] eqn:Hloop.
  destruct (hop_loop_more self freq_list w2 r3 w3 Hloop)
    as (es3 & j3 & Hacc3 & Hr3 & Hh3 & Hok3).
  pose proof (accounts_app _ _ _ _ _ _ (accounts_app _ _ _ _ _ _ Hacc1 Hacc2) Hacc3)
    as Hacc.
  assert (Hruns3 : runs_of (([EvCheck AtWhile (flag w)] ++ [EvRun (run + 1)]) ++ es3)
                   = [(run + 1)%Z]).
  { rewrite runs_of_app, Hr3. reflexivity. }
  assert (Hhops3 : hops_of (([EvCheck AtWhile (flag w)] ++ [EvRun (run + 1)]) ++ es3)
                   = firstn j3 freq_list).
  { rewrite hops_of_app, Hh3. reflexivity. }
  assert (Hone : forall rr, (rr = Ok tt -> time_limit_exceeded (run + 1) = true) ->
            exists (es : list event) (k j : nat),
              accounts (_buffer_repeats self) w w3 es /\
              runs_of es = map (fun i => (run + Z.of_nat i)%Z) (seq 1 k) /\
              hops_of es = concat (repeat freq_list (k - 1)) ++ firstn j freq_list /\
              (k = O -> j = O) /\
              ((0 < runs)%Z -> (run <= runs)%Z -> (Z.of_nat k <= runs - run)%Z) /\
              ((shutdown_at <= length (trace w))%nat -> k = O) /\
              (rr = Ok tt -> (forall i, time_limit_exceeded i = false) -> (0 < runs)%Z ->
               (run <= runs)%Z -> (length (trace w3) <= shutdown_at)%nat ->
               Z.of_nat k = (runs - run)%Z /\ hops_of es = concat (repeat freq_list k))).
  { intros rr Hrr. eexists _, 1%nat, j3. split; [exact Hacc|].
    split; [rewrite Hruns3; reflexivity|]. split; [rewrite Hhops3; reflexivity|].
    split; [discriminate|]. split; [intros Hpos _; specialize (Hnext Hpos); cbn; lia|].
    split; [intros Hx; contradiction|].
    intros Hok Hno _ _ _. rewrite (Hno (run + 1)%Z) in Hrr.
    discriminate (Hrr Hok). }
  destruct r3 as [[]|e].
  2:{ injection H as <- <-. apply Hone. intros Hx. discriminate Hx. }
  destruct (time_limit_exceeded (run + 1)) eqn:Hlimit.
  { injection H as <- <-. apply Hone. intros _. reflexivity. }
  clear Hone.
  destruct (IH _ _ _ _ H) as (es4 & k4 & j4 & Hacc4 & Hr4 & Hh4 & Hkj & Hbound & Hflag & Hall).
  pose proof (accounts_app _ _ _ _ _ _ Hacc Hacc4) as Hacc'.
  assert (Hlen34 : (length (trace w3) <= length (trace w'))%nat).
  { destruct Hacc4 as (T & _). rewrite T, length_app. lia. }
  assert (Hruns : runs_of ((([EvCheck AtWhile (flag w)] ++ [EvRun (run + 1)]) ++ es3) ++ es4)
                  = map (fun i => (run + Z.of_nat i)%Z) (seq 1 (S k4))).
  { rewrite runs_of_app, Hruns3, Hr4, seq_runs. cbn [seq map app].
    f_equal. }
  assert (Hhops : exists j,
            hops_of ((([EvCheck AtWhile (flag w)] ++ [EvRun (run + 1)]) ++ es3) ++ es4)
            = concat (repeat freq_list (S k4 - 1)) ++ firstn j freq_list).
  { rewrite hops_of_app, Hhops3, Hh4.
    destruct (Hok3 eq_refl) as [Hfull | Hlate].
    - rewrite <- Hh3, Hfull. destruct k4 as [|k5].
      + rewrite (Hkj eq_refl). exists (length freq_list).
        cbn. rewrite firstn_all, app_nil_r. reflexivity.
      + exists j4. cbn. replace (k5 - 0)%nat with k5 by lia.
        rewrite app_assoc. reflexivity.
    - assert (Hk : k4 = O) by (apply Hflag; lia).
      subst k4. rewrite (Hkj eq_refl). exists j3. cbn. rewrite app_nil_r. reflexivity. }
  destruct Hhops as [j Hhops].
  eexists _, (S k4), j. split; [exact Hacc'|].
  split; [exact Hruns|]. split; [exact Hhops|]. split; [discriminate|].
  split; [intros Hpos Hle; specialize (Hnext Hpos); specialize (Hbound Hpos Hnext); lia|].
  split; [intros Hx; contradiction|].
  intros Hok Hno Hpos Hle Hlen.
  destruct (Hall Hok Hno Hpos (Hnext Hpos) Hlen) as [Hk Hh].
  split; [lia|].
  rewrite hops_of_app, Hhops3, Hh.
  destruct (Hok3 eq_refl) as [Hfull | Hlate]; [|lia].
  rewrite <- Hh3, Hfull. reflexivity.
Qed.

(** With a bound on the runs and no time limit, [runs + 1] runs of fuel
    suffice. *)
Lemma run_loop_bounded (self : SoapyPower) (freq_list : list Q) (runs : Z)
    (fuel : nat) :
  (0 < runs)%Z ->
  forall run w,
    (Z.to_nat (runs - run) < fuel)%nat ->
    exists res, run_loop' fuel self freq_list runs run w = Some res.
Proof.
  intros Hpos. induction fuel as [|fuel IH]; intros run w Hfuel; [lia|].
  cbn [run_loop]. unfold read_shutdown.
  destruct (negb (flag w) && ((runs =? 0)%Z || (run <? runs)%Z)) eqn:Hcond;
    [|eexists; reflexivity].
  apply andb_true_iff in Hcond. destruct Hcond as [_ Hgo].
  apply orb_true_iff in Hgo. destruct Hgo as [Hz | Hlt];
    [apply Z.eqb_eq in Hz; lia|]. apply Z.ltb_lt in Hlt.
  unfold bindM, emit.
  destruct (hop_loop' self freq_list _) as [[[]|e] w3]; [|eexists; reflexivity].
  destruct (time_limit_exceeded (run + 1)); [eexists; reflexivity|].
  apply IH. lia.
Qed.

(** ** The whole sweep *)

(** The three ways through [sweep], by what [create_buffer] and [freq_plan]
    return.  [setup] changes nothing that [freq_plan] reads. *)
Lemma sweep_paths (fuel : nat) (self : SoapyPower) (min_freq max_freq : Q)
    (bins repeats runs : Z) (overlap lnb_lo tune_delay : Q) (reset_stream : bool)
    (base maxb : Z) (w : World) r w' :
  sweep' fuel self min_freq max_freq bins repeats runs overlap lnb_lo tune_delay
    reset_stream base maxb w = Some (r, w') ->
  let w1 := mkWorld (trace w) (acquisitions w) (count w) (device_freq w) true in
  (exists e,
     create_buffer self bins repeats (start_stream base) maxb = Raise e /\
     r = Raise e /\ w' = w1) \/
  (exists br bs,
     create_buffer self bins repeats (start_stream base) maxb = Ok (br, bs) /\
     let self' := mkSoapyPower (sample_rate self) (threshold self) br bs tune_delay
                    reset_stream in
     ((exists e,
         freq_plan self (min_freq - lnb_lo) (max_freq - lnb_lo) bins overlap = Raise e /\
         r = Raise UnboundLocalError /\
         w' = mkWorld (trace w ++ [EvStop]) (acquisitions w) (count w)
                (device_freq w) false) \/
      (exists freq_list w2,
         freq_plan self (min_freq - lnb_lo) (max_freq - lnb_lo) bins overlap
           = Ok freq_list /\
         run_loop' fuel self' freq_list runs 0 w1 = Some (r, w2) /\
         w' = mkWorld (trace w2 ++ [EvStop]) (acquisitions w2) (count w2)
                (device_freq w2) false))).
Proof.
  intros H w1. unfold sweep, setup in H. fold w1 in H.
  destruct (create_buffer self bins repeats (start_stream base) maxb)
    as [[br bs]|e].
  2:{ injection H as <- <-. left. exists e. repeat split. }
  right. exists br, bs. split; [reflexivity|]. cbn zeta.
  set (self' := mkSoapyPower (sample_rate self) (threshold self) br bs tune_delay
                  reset_stream) in *.
  change (freq_plan self' (min_freq - lnb_lo) (max_freq - lnb_lo) bins overlap)
    with (freq_plan self (min_freq - lnb_lo) (max_freq - lnb_lo) bins overlap) in H.
  destruct (freq_plan self (min_freq - lnb_lo) (max_freq - lnb_lo) bins overlap)
    as [freq_list|e].
  - destruct (run_loop' fuel self' freq_list runs 0 w1) as [[r2 w2]|] eqn:Hrun;
      [|discriminate H].
    injection H as <- <-.
    destruct (run_loop_frame _ _ _ _ _ _ _ _ _ _ _ _ _ _ _ Hrun) as (es & _ & Hs2 & _).
    right. exists freq_list, w2. split; [reflexivity|]. split; [exact Hrun|].
    unfold stop. rewrite Hs2. reflexivity.
  - injection H as <- <-. left. exists e. repeat split.
Qed.


(** X18: the order of a sweep.  The runs of a sweep are numbered 1, 2, ...
    without a gap, and there are at most [runs] of them when [runs > 0];
    every run but the last visits the frequencies of the plan, all of them
    and in the order of the plan, and the last run visits a prefix of the
    plan.  So no frequency outside the plan is ever tuned to. *)
Theorem sweep_visits (fuel : nat) (self : SoapyPower) (min_freq max_freq : Q)
    (bins repeats runs : Z) (overlap lnb_lo tune_delay : Q) (reset_stream : bool)
    (base maxb : Z) (w : World) r w' (freq_list : list Q) :
  trace w = [] ->
  freq_plan self (min_freq - lnb_lo) (max_freq - lnb_lo) bins overlap = Ok freq_list ->
  sweep' fuel self min_freq max_freq bins repeats runs overlap lnb_lo tune_delay
    reset_stream base maxb w = Some (r, w') ->
  exists k j,
    runs_of (trace w') = map Z.of_nat (seq 1 k) /\
    ((0 < runs)%Z -> (Z.of_nat k <= runs)%Z) /\
    hops_of (trace w') = concat (repeat freq_list (k - 1)) ++ firstn j freq_list /\
    (k = O -> j = O) /\
    (forall f, In (EvHop f) (trace w') -> In f freq_list).
Proof.
  intros Hnil Hplan H.
  assert (Hin : forall tr k j,
            hops_of tr = concat (repeat freq_list (k - 1)) ++ firstn j freq_list ->
            forall f, In (EvHop f) tr -> In f freq_list).
  { intros tr k j Hh f Hf.
    assert (Hf' : In f (hops_of tr)).
    { unfold hops_of. apply in_flat_map. exists (EvHop f). split; [exact Hf|].
      left. reflexivity. }
    rewrite Hh in Hf'. apply in_app_or in Hf'. destruct Hf' as [Hf' | Hf'].
    - apply in_concat in Hf'. destruct Hf' as (l & Hl & Hfl).
      apply repeat_spec in Hl. subst l. exact Hfl.
    - rewrite <- (firstn_skipn j freq_list). apply in_or_app. left. exact Hf'. }
  destruct (sweep_paths _ _ _ _ _ _ _ _ _ _ _ _ _ _ _ _ H)
    as [(e & _ & _ & ->) | (br & bs & _ & [(e & He & _) | (fl & w2 & Hfl & Hrun & ->)])].
  - cbn [trace]. rewrite Hnil. exists O, O. repeat split; try (intros; lia).
    intros f [].
  - rewrite Hplan in He. discriminate He.
  - rewrite Hplan in Hfl. injection Hfl as <-.
    destruct (run_loop_more _ _ _ _ _ _ _ _ Hrun)
      as (es & k & j & (T & _) & Hr & Hh & Hkj & Hb & _).
    cbn [trace] in T. rewrite Hnil in T. cbn [app] in T.
    assert (Hh' : hops_of (trace w2 ++ [EvStop])
                  = concat (repeat freq_list (k - 1)) ++ firstn j freq_list).
    { rewrite hops_of_app, T, Hh. cbn. rewrite app_nil_r. reflexivity. }
    exists k, j. cbn [trace].
    split; [rewrite runs_of_app, T, Hr; cbn; rewrite app_nil_r; reflexivity|].
    split; [intros Hpos; specialize (Hb Hpos ltac:(lia)); lia|].
    split; [exact Hh'|]. split; [exact Hkj|].
    apply (Hin _ k j Hh').
Qed.

(** X19: a sweep that nothing interrupts.  With [runs > 0] and no time limit
    [sweep] comes to an end ([runs + 1] runs of fuel suffice); and when it
    returns without an exception and the shutdown flag was not set meanwhile,
    it has made exactly [runs] runs, each visiting every frequency of the
    plan once and in order, and has stopped the stream. *)
Theorem sweep_complete (self : SoapyPower) (min_freq max_freq : Q)
    (bins repeats runs : Z) (overlap lnb_lo tune_delay : Q) (reset_stream : bool)
    (base maxb : Z) (w : World) :
  trace w = [] -> (0 < runs)%Z -> (forall i, time_limit_exceeded i = false) ->
  (exists res,
     sweep' (S (Z.to_nat runs)) self min_freq max_freq bins repeats runs overlap
       lnb_lo tune_delay reset_stream base maxb w = Some res) /\
  (forall fuel w',
     sweep' fuel self min_freq max_freq bins repeats runs overlap lnb_lo tune_delay
       reset_stream base maxb w = Some (Ok tt, w') ->
     (length (trace w') <= shutdown_at)%nat ->
     exists freq_list,
       freq_plan self (min_freq - lnb_lo) (max_freq - lnb_lo) bins overlap
         = Ok freq_list /\
       runs_of (trace w') = map Z.of_nat (seq 1 (Z.to_nat runs)) /\
       hops_of (trace w') = concat (repeat freq_list (Z.to_nat runs)) /\
       is_streaming w' = false).
Proof.
  intros Hnil Hpos Hno. split.
  - unfold sweep.
    destruct (setup start_stream self bins repeats base maxb tune_delay reset_stream w)
      as [[self'|e] w1]; [|eexists; reflexivity].
    destruct (freq_plan self' (min_freq - lnb_lo) (max_freq - lnb_lo) bins overlap)
      as [freq_list|e]; [|eexists; reflexivity].
    destruct (run_loop_bounded self' freq_list runs (S (Z.to_nat runs)) Hpos 0 w1
                ltac:(rewrite Z.sub_0_r; lia)) as [[r2 w2] ->].
    eexists. reflexivity.
  - intros fuel w' H Hlen.
    destruct (sweep_paths _ _ _ _ _ _ _ _ _ _ _ _ _ _ _ _ H)
      as [(e & _ & He & _) | (br & bs & _ & [(e & _ & He & _) | (fl & w2 & Hfl & Hrun & ->)])];
      [discriminate He | discriminate He |].
    exists fl. split; [exact Hfl|].
    destruct (run_loop_more _ _ _ _ _ _ _ _ Hrun)
      as (es & k & j & (T & _) & Hr & _ & _ & _ & _ & Hall).
    cbn [trace] in T, Hlen. rewrite Hnil in T. cbn [app] in T.
    rewrite length_app in Hlen. cbn [length] in Hlen.
    destruct (Hall eq_refl Hno Hpos ltac:(lia) ltac:(lia)) as [Hk Hh].
    assert (Hk' : k = Z.to_nat runs) by lia. subst k.
    cbn [trace is_streaming].
    split; [rewrite runs_of_app, T, Hr; cbn; rewrite app_nil_r; reflexivity|].
    split; [rewrite hops_of_app, T, Hh; cbn; rewrite app_nil_r; reflexivity|].
    reflexivity.
Qed.

Lemma create_buffer_ok (self : SoapyPower) (bins repeats base maxb : Z) :
  (0 < bins)%Z -> (0 < repeats)%Z -> (0 < base)%Z -> ~ sample_rate self == 0 ->
  exists br bs, create_buffer self bins repeats base maxb = Ok (br, bs).
Proof.
  intros Hbins Hrep Hbase Hr.
  rewrite (create_buffer_eval self bins repeats base maxb _ Hbins Hrep Hbase Hr
             (align_up_ok (bins * repeats) base Hbase)).
  rewrite (align_up_ok (effective_max maxb) base Hbase).
  destruct (0 <? effective_max maxb)%Z; [destruct (_ <? _)%Z|];
    eexists _, _; reflexivity.
Qed.

(** X20: a sweep that cannot size its buffer.  With [bins = 0], or on a
    device whose sample rate is 0, [sweep] raises [ZeroDivisionError] out of
    [setup], which runs before the [try]: [stop] is not called, and the
    stream that [setup] had just started is left running.  Nothing else has
    happened: no run, no hop, no buffer fill, no datagram. *)
Theorem sweep_setup_error (fuel : nat) (self : SoapyPower) (min_freq max_freq : Q)
    (bins repeats runs : Z) (overlap lnb_lo tune_delay : Q) (reset_stream : bool)
    (base maxb : Z) (w : World) :
  (0 < start_stream base)%Z -> bins = 0%Z \/ sample_rate self == 0 ->
  exists w',
    sweep' fuel self min_freq max_freq bins repeats runs overlap lnb_lo tune_delay
      reset_stream base maxb w = Some (Raise ZeroDivisionError, w') /\
    is_streaming w' = true /\ trace w' = trace w /\
    acquisitions w' = acquisitions w /\ count w' = count w.
Proof.
  intros Hbase Hz. unfold sweep, setup.
  rewrite (create_buffer_zero_division self bins repeats (start_stream base) maxb
             Hbase Hz).
  eexists. split; [reflexivity|]. repeat split.
Qed.

(** X21: a sweep that cannot make its plan.  With positive [bins] and
    [repeats], a buffer that can be sized ([bins * repeats + base_buffer_size
    <= 2^53], [max_buffer_size < 2^53], a sample rate that is not zero) and
    an overlap of 1 on a range with [min_freq <= max_freq], [freq_plan]
    raises its [ZeroDivisionError], but what comes out of [sweep] is the
    [UnboundLocalError] of the [finally] block, where [t_start] is read
    before it was bound.  [stop] has run before that: the stream is stopped,
    and nothing else has happened. *)
Theorem sweep_plan_error (fuel : nat) (self : SoapyPower) (min_freq max_freq : Q)
    (bins repeats runs : Z) (overlap lnb_lo tune_delay : Q) (reset_stream : bool)
    (base maxb : Z) (w : World) :
  (0 < bins)%Z -> (0 < repeats)%Z -> (0 < start_stream base)%Z ->
  (bins * repeats + start_stream base <= 2 ^ 53)%Z -> (maxb < 2 ^ 53)%Z ->
  ~ sample_rate self == 0 -> overlap == 1 -> min_freq <= max_freq ->
  exists w',
    sweep' fuel self min_freq max_freq bins repeats runs overlap lnb_lo tune_delay
      reset_stream base maxb w = Some (Raise UnboundLocalError, w') /\
    is_streaming w' = false /\ trace w' = trace w ++ [EvStop] /\
    acquisitions w' = acquisitions w /\ count w' = count w.
Proof.
  intros Hbins Hrep Hbase _ _ Hr Ho Hm. unfold sweep, setup.
  destruct (create_buffer_ok self bins repeats (start_stream base) maxb
              Hbins Hrep Hbase Hr) as (br & bs & ->).
  rewrite (freq_plan_overlap_one
             (mkSoapyPower (sample_rate self) (threshold self) br bs tune_delay
                reset_stream)
             (min_freq - lnb_lo) (max_freq - lnb_lo) bins overlap)
    by (try assumption; try lia; lra).
  eexists. split; [reflexivity|]. repeat split.
Qed.

End SweepMore.

(** *** The properties at the concrete worlds *)

(** [psd] at 100 MHz on the two buffers of the scenario. *)
Lemma psd_signal_witness :
  let psd' := psd Scenario.pow10 Scenario.read_stream_into_buffer Scenario.utcnow
                1000 in
  let reads' := reads_from Scenario.read_stream_into_buffer Scenario.utcnow in
  let w := Scenario.streaming in
  exists ps t0 t1 sig w',
    psd' Scenario.self 100 w = (Ok (ps, t0, t1, sig), w') /\
    (sig = signal0 \/
     burst_signal Scenario.self 100
       (reads' (acquisitions w) (acquisitions w' - acquisitions w)%nat) sig) /\
    ((-1 < sig_start sig)%Z <-> sig_burst sig <> None) /\
    ps_freq ps = 100 /\
    (length (ps_chunks ps) <= acquisitions w' - acquisitions w)%nat.
Proof.
  cbv zeta.
  assert (H : psd Scenario.pow10 Scenario.read_stream_into_buffer Scenario.utcnow
                1000 Scenario.self 100 Scenario.streaming = (Ok (_, _, _, _), _))
    by (vm_compute; reflexivity).
  eexists _, _, _, _, _. split; [exact H|].
  refine (psd_signal Scenario.pow10 Scenario.read_stream_into_buffer Scenario.utcnow
            1000%nat Scenario.self 100 Scenario.streaming _ _ _ _ _ _ H).
  apply Qle_bool_iff. reflexivity.
Defined.

(** An empty buffer makes [psd] raise [ValueError] after one fill. *)
Example psd_empty_buffer_example :
  exists w',
    psd Scenario.pow10 (fun _ => []) Scenario.utcnow 1000 Scenario.self 100
      Scenario.streaming = (Raise ValueError, w') /\
    acquisitions w' = 1%nat.
Proof. eexists. split; [vm_compute; reflexivity | reflexivity]. Qed.




Lemma sweep_visits_witness :
  exists freq_list r w' k j,
    freq_plan Scenario.self (100000000 - 0) (100800000 - 0) 2 0 = Ok freq_list /\
    Scenario.run_sweep (fun _ => true) 1000 1 5 = Some (r, w') /\
    runs_of (trace w') = map Z.of_nat (seq 1 k) /\
    ((0 < 1)%Z -> (Z.of_nat k <= 1)%Z) /\
    hops_of (trace w') = concat (repeat freq_list (k - 1)) ++ firstn j freq_list /\
    (k = O -> j = O) /\
    (forall f, In (EvHop f) (trace w') -> In f freq_list).
Proof.
  unfold Scenario.run_sweep.
  assert (Hp : freq_plan Scenario.self (100000000 - 0) (100800000 - 0) 2 0 = Ok _)
    by (vm_compute; reflexivity).
  assert (H : sweep Scenario.pow10 Scenario.read_stream_into_buffer Scenario.utcnow
                Scenario.psd_result (fun _ => true) 1000 Scenario.no_time_limit
                Scenario.start_stream 5 Scenario.self 100000000 100800000 2 5 1
                0 0 0 false 0 0 world0 = Some (_, _))
    by (vm_compute; reflexivity).
  destruct (sweep_visits Scenario.pow10 Scenario.read_stream_into_buffer
              Scenario.utcnow Scenario.psd_result (fun _ => true) 1000%nat
              Scenario.no_time_limit Scenario.start_stream 5 Scenario.self
              100000000 100800000 2 5 1 0 0 0 false 0 0 world0 _ _ _
              eq_refl Hp H) as (k & j & Hk).
  eexists _, _, _, k, j. split; [exact Hp|]. split; [exact H | exact Hk].
Defined.

Lemma sweep_complete_witness :
  exists w' freq_list,
    Scenario.run_sweep (fun _ => true) 1000 2 3 = Some (Ok tt, w') /\
    freq_plan Scenario.self (100000000 - 0) (100800000 - 0) 2 0 = Ok freq_list /\
    runs_of (trace w') = map Z.of_nat (seq 1 (Z.to_nat 2)) /\
    hops_of (trace w') = concat (repeat freq_list (Z.to_nat 2)) /\
    is_streaming w' = false.
Proof.
  unfold Scenario.run_sweep.
  assert (H : sweep Scenario.pow10 Scenario.read_stream_into_buffer Scenario.utcnow
                Scenario.psd_result (fun _ => true) 1000 Scenario.no_time_limit
                Scenario.start_stream 3 Scenario.self 100000000 100800000 2 5 2
                0 0 0 false 0 0 world0 = Some (Ok tt, _))
    by (vm_compute; reflexivity).
  destruct (sweep_complete Scenario.pow10 Scenario.read_stream_into_buffer
              Scenario.utcnow Scenario.psd_result (fun _ => true) 1000%nat
              Scenario.no_time_limit Scenario.start_stream Scenario.self
              100000000 100800000 2 5 2 0 0 0 false 0 0 world0 eq_refl eq_refl
              (fun _ => eq_refl)) as [_ Hall].
  destruct (Hall 3%nat _ H ltac:(apply Nat.leb_le; vm_compute; reflexivity))
    as (fl & Hfl).
  eexists _, fl. split; [exact H | exact Hfl].
Defined.

(** A sweep with no bins. *)
Lemma sweep_setup_error_witness :
  exists w',
    sweep Scenario.pow10 Scenario.read_stream_into_buffer Scenario.utcnow
      Scenario.psd_result (fun _ => true) 1000 Scenario.no_time_limit
      Scenario.start_stream 5 Scenario.self 100000000 100800000 0 5 1 0 0 0
      false 0 0 world0 = Some (Raise ZeroDivisionError, w') /\
    is_streaming w' = true /\ trace w' = trace world0 /\
    acquisitions w' = acquisitions world0 /\ count w' = count world0.
Proof.
  apply (sweep_setup_error Scenario.pow10 Scenario.read_stream_into_buffer
           Scenario.utcnow Scenario.psd_result (fun _ => true) 1000%nat
           Scenario.no_time_limit Scenario.start_stream 5 Scenario.self
           100000000 100800000 0 5 1 0 0 0 false 0 0 world0).
  - reflexivity.
  - left. reflexivity.
Defined.

(** A sweep with an overlap of 1. *)
Lemma sweep_plan_error_witness :
  exists w',
    sweep Scenario.pow10 Scenario.read_stream_into_buffer Scenario.utcnow
      Scenario.psd_result (fun _ => true) 1000 Scenario.no_time_limit
      Scenario.start_stream 5 Scenario.self 100000000 100800000 2 5 1 1 0 0
      false 0 0 world0 = Some (Raise UnboundLocalError, w') /\
    is_streaming w' = false /\ trace w' = trace world0 ++ [EvStop] /\
    acquisitions w' = acquisitions world0 /\ count w' = count world0.
Proof.
  apply (sweep_plan_error Scenario.pow10 Scenario.read_stream_into_buffer
           Scenario.utcnow Scenario.psd_result (fun _ => true) 1000%nat
           Scenario.no_time_limit Scenario.start_stream 5 Scenario.self
           100000000 100800000 2 5 1 1 0 0 false 0 0 world0).
  - lia.
  - lia.
  - reflexivity.
  - vm_compute. intro H. discriminate H.
  - reflexivity.
  - intro H. discriminate H.
  - reflexivity.
  - vm_compute. intro H. discriminate H.
Defined.

(** ** More on the measurement reducer *)

Lemma argmax_from_max (t : list Q) :
  forall (pre : list Q) (best : Z) (m : Q),
    nth_error pre (Z.to_nat best) = Some m -> (0 <= best)%Z ->
    Forall (fun y => y <= m) pre ->
    let r := argmax_from (Z.of_nat (length pre)) best m t in
    exists x, nth_error (pre ++ t) (Z.to_nat r) = Some x /\
              Forall (fun y => y <= x) (pre ++ t).
Proof.
  induction t as [|y t IH]; intros pre best m Hbest H0 Hmax; cbn [argmax_from].
  - exists m. rewrite app_nil_r. split; assumption.
  - assert (Hlen : (Z.of_nat (length pre) + 1)%Z = Z.of_nat (length (pre ++ [y]))).
    { rewrite length_app. cbn [length]. lia. }
    assert (Happ : pre ++ y :: t = (pre ++ [y]) ++ t).
    { rewrite <- app_assoc. reflexivity. }
    destruct (Qltb m y) eqn:Hlt.
    + apply Qltb_lt in Hlt. rewrite Hlen, Happ. apply IH; [|lia|].
      * rewrite Nat2Z.id. rewrite nth_error_app2 by lia.
        rewrite Nat.sub_diag. reflexivity.
      * apply Forall_app. split; [|constructor; [apply Qle_refl | constructor]].
        eapply Forall_impl; [|exact Hmax]. intros a Ha. cbn in Ha.
        apply Qle_trans with m; [exact Ha | apply Qlt_le_weak; exact Hlt].
    + apply Qltb_ge in Hlt. rewrite Hlen, Happ. apply IH; [|exact H0|].
      * rewrite nth_error_app1; [exact Hbest|].
        apply nth_error_Some. congruence.
      * apply Forall_app. split; [exact Hmax | constructor; [exact Hlt | constructor]].
Qed.

(** [numpy.argmax] points at a maximum of the array. *)
Lemma numpy_argmax_max (l : list Q) (peak : Z) (rssi : Q) :
  numpy_argmax l = Ok peak -> py_index l peak = Ok rssi ->
  In rssi l /\ Forall (fun y => y <= rssi) l.
Proof.
  destruct l as [|x t]; [discriminate|]. cbn [numpy_argmax]. intros [= <-] Hi.
  destruct (argmax_from_max t [x] 0 x eq_refl ltac:(lia)
              ltac:(constructor; [apply Qle_refl | constructor])) as [v [Hv Hmax]].
  cbn [length Z.of_nat Pos.of_succ_nat app] in *. change (Z.pos 1) with 1%Z in Hv.
  apply py_index_nth in Hi. rewrite Hv in Hi. injection Hi as <-.
  split; [apply (nth_error_In _ _ Hv) | exact Hmax].
Qed.

Lemma sorted_snoc (l : list Z) (b : Z) :
  StronglySorted Z.lt (l ++ [b]) -> Forall (fun i => (i < b)%Z) l.
Proof.
  induction l as [|x l IH]; intros Hs; [constructor|].
  cbn [app] in Hs. apply StronglySorted_inv in Hs. destruct Hs as [Hs Hall].
  constructor; [|apply IH; exact Hs].
  apply (proj1 (Forall_forall _ _) Hall b). apply in_or_app. right. left. reflexivity.
Qed.

(** An ascending index list lies between its first and its last element. *)
Lemma sorted_between (l : list Z) (a b : Z) :
  StronglySorted Z.lt l -> py_index l 0 = Ok a -> py_last l = Ok b ->
  forall i, In i l -> (a <= i <= b)%Z.
Proof.
  intros Hs Ha Hb i Hi. split.
  - destruct l as [|x t]; [destruct Hi|].
    unfold py_index in Ha. cbn in Ha. injection Ha as <-.
    destruct Hi as [<-|Hi]; [lia|].
    apply StronglySorted_inv in Hs. destruct Hs as [_ Hall].
    pose proof (proj1 (Forall_forall _ _) Hall i Hi). lia.
  - unfold py_last in Hb. destruct (rev l) as [|y r] eqn:E; [discriminate|].
    injection Hb as ->.
    assert (Hl : l = rev r ++ [b]).
    { rewrite <- (rev_involutive l), E. reflexivity. }
    rewrite Hl in Hs, Hi. apply sorted_snoc in Hs.
    apply in_app_or in Hi. destruct Hi as [Hi | [<- | []]]; [|lia].
    pose proof (proj1 (Forall_forall _ _) Hs i Hi) as Hlt. cbn beta in Hlt. lia.
Qed.

(** X22: what a record of [measurements] says about the power array.  The
    reported RSSI is the maximum of the array and is not below the threshold;
    the record carries one PSD value per bin; the two edges that give the
    bandwidth enclose the peak, are themselves above the half-power level
    [rssi - 3], and enclose every bin that is above it; the bandwidth is the
    bin width [rate / len] times the distance of the edges, so it is always
    less than the sample rate.  A record is only made from a signal that
    carries the burst keys, and its report time is theirs. *)
Theorem measurements_peak (self : SoapyPower) (pwr_array : list Q) (samples : Z)
    (signal : Signal) (m : Measurement) :
  measurements self pwr_array samples signal = Ok (Some m) ->
  let rssi := m_rssidBm m in
  let len := inject_Z (Z.of_nat (length pwr_array)) in
  In rssi pwr_array /\ Forall (fun y => y <= rssi) pwr_array /\
  threshold self <= rssi /\
  length (m_psd m) = length pwr_array /\
  exists keys peak leftEdge rightEdge,
    sig_burst signal = Some keys /\ m_reportTime m = sig_reportTime keys /\
    numpy_argmax pwr_array = Ok peak /\
    (0 <= leftEdge <= peak)%Z /\ (peak <= rightEdge < Z.of_nat (length pwr_array))%Z /\
    (forall i x, (0 <= i)%Z -> nth_error pwr_array (Z.to_nat i) = Some x ->
                 rssi - 3 < x -> (leftEdge <= i <= rightEdge)%Z) /\
    (exists xl xr,
       nth_error pwr_array (Z.to_nat leftEdge) = Some xl /\ rssi - 3 < xl /\
       nth_error pwr_array (Z.to_nat rightEdge) = Some xr /\ rssi - 3 < xr) /\
    m_bandwidthKHz m * 1000 * len == sig_rate keys * inject_Z (rightEdge - leftEdge) /\
    (0 < sig_rate keys -> m_bandwidthKHz m * 1000 < sig_rate keys).
Proof.
  intros H. unfold measurements in H.
  destruct (numpy_argmax pwr_array) as [peak|e] eqn:Hpeak; [|discriminate H].
  destruct (py_index pwr_array peak) as [rssi0|e] eqn:Hrssi; [|discriminate H].
  destruct (Qltb rssi0 (threshold self)) eqn:Hthr; [discriminate H|].
  cbn zeta in H.
  set (edges := numpy_where (fun v => Qltb (rssi0 - 3) v) pwr_array) in *.
  destruct (py_index edges 0) as [leftEdge|e] eqn:Hl; cbn [bind] in H; [|discriminate H].
  destruct (py_last edges) as [rightEdge|e] eqn:Hr; cbn [bind] in H; [|discriminate H].
  destruct (sig_burst signal) as [keys|] eqn:Hkeys; cbn [key bind] in H;
    [|discriminate H].
  destruct (py_div (sig_rate keys) (inject_Z (Z.of_nat (length pwr_array))))
    as [res|e] eqn:Hres; cbn [bind] in H; [|discriminate H].
  injection H as <-. cbn zeta. cbn [m_rssidBm m_psd m_reportTime m_bandwidthKHz].
  destruct (numpy_argmax_max pwr_array peak rssi0 Hpeak Hrssi) as [Hin Hmax].
  apply Qltb_ge in Hthr.
  pose proof (edges_bounds (rssi0 - 3) pwr_array leftEdge rightEdge Hl Hr)
    as [Hb1 Hb2].
  assert (Hedge : forall i, In i edges <->
            (0 <= i)%Z /\ exists x, nth_error pwr_array (Z.to_nat i) = Some x /\
                                    rssi0 - 3 < x).
  { intros i. unfold edges, numpy_where. rewrite where_from_spec.
    rewrite Z.sub_0_r. split; intros [H0 [x [Hx Hp]]]; (split; [exact H0|]);
      exists x; (split; [exact Hx|]); apply Qltb_lt; exact Hp. }
  pose proof (sorted_between edges leftEdge rightEdge (where_from_sorted _ _ 0) Hl Hr)
    as Hbetween.
  assert (Hpk0 : (0 <= peak)%Z).
  { destruct (numpy_argmax_valid pwr_array) as (p & v & Hp & _ & Hp0).
    - intros ->. discriminate Hpeak.
    - rewrite Hpeak in Hp. injection Hp as <-. exact Hp0. }
  assert (Hpk : (leftEdge <= peak <= rightEdge)%Z).
  { apply Hbetween. apply Hedge. split; [exact Hpk0|].
    exists rssi0. split; [apply py_index_nth; exact Hrssi | lra]. }
  assert (Hlen : 0 < inject_Z (Z.of_nat (length pwr_array))).
  { change 0 with (inject_Z 0). rewrite <- Zlt_Qlt. lia. }
  assert (Hresv : res == sig_rate keys / inject_Z (Z.of_nat (length pwr_array))).
  { unfold py_div in Hres.
    destruct (Qeq_bool (inject_Z (Z.of_nat (length pwr_array))) 0);
      [discriminate Hres | injection Hres as <-; reflexivity]. }
  split; [exact Hin|]. split; [exact Hmax|]. split; [exact Hthr|].
  split; [apply length_map|].
  exists keys, peak, leftEdge, rightEdge.
  split; [reflexivity|]. split; [reflexivity|]. split; [reflexivity|].
  split; [lia|]. split; [lia|].
  split.
  { intros i x Hi Hx Hgt. apply Hbetween. apply Hedge.
    split; [exact Hi|]. exists x. split; assumption. }
  split.
  { assert (HL : In leftEdge edges).
    { apply py_index_nth in Hl. apply (nth_error_In _ _ Hl). }
    assert (HR : In rightEdge edges) by (apply py_last_In; exact Hr).
    apply Hedge in HL, HR.
    destruct HL as [_ [xl [HxL HgL]]]. destruct HR as [_ [xr [HxR HgR]]].
    exists xl, xr. repeat split; assumption. }
  set (len := inject_Z (Z.of_nat (length pwr_array))) in *.
  set (d := inject_Z (rightEdge - leftEdge)).
  assert (Hd0 : 0 <= d).
  { unfold d. change 0 with (inject_Z 0). rewrite <- Zle_Qle. lia. }
  assert (Hd1 : d + 1 <= len).
  { unfold d, len. change 1 with (inject_Z 1).
    rewrite <- inject_Z_plus, <- Zle_Qle. lia. }
  split.
  { rewrite Hresv. field. lra. }
  intros Hrate.
  assert (Hres0 : 0 < res).
  { rewrite Hresv. apply Qlt_shift_div_l; [exact Hlen | lra]. }
  assert (Hrl : res * len == sig_rate keys) by (rewrite Hresv; field; lra).
  setoid_replace (res * d / 1000 * 1000) with (res * d) by (field).
  rewrite <- Hrl.
  assert (Hlt : d < len) by lra.
  rewrite !(Qmult_comm res). apply Qmult_lt_compat_r; assumption.
Qed.

(** The record of the scenario's five-bin spectrum. *)
Lemma measurements_peak_witness :
  let self := Scenario.self in
  let pwr_array := [-90; -40; -38; -41; -90] in
  let signal := signal_of self 100 (iq_of Scenario.bufferA) 0 (mkBurst 1 5 0 7) in
  exists m,
    measurements self pwr_array 20 signal = Ok (Some m) /\
    let rssi := m_rssidBm m in
    let len := inject_Z (Z.of_nat (length pwr_array)) in
    In rssi pwr_array /\ Forall (fun y => y <= rssi) pwr_array /\
    threshold self <= rssi /\
    length (m_psd m) = length pwr_array /\
    exists keys peak leftEdge rightEdge,
      sig_burst signal = Some keys /\ m_reportTime m = sig_reportTime keys /\
      numpy_argmax pwr_array = Ok peak /\
      (0 <= leftEdge <= peak)%Z /\
      (peak <= rightEdge < Z.of_nat (length pwr_array))%Z /\
      (forall i x, (0 <= i)%Z -> nth_error pwr_array (Z.to_nat i) = Some x ->
                   rssi - 3 < x -> (leftEdge <= i <= rightEdge)%Z) /\
      (exists xl xr,
         nth_error pwr_array (Z.to_nat leftEdge) = Some xl /\ rssi - 3 < xl /\
         nth_error pwr_array (Z.to_nat rightEdge) = Some xr /\ rssi - 3 < xr) /\
      m_bandwidthKHz m * 1000 * len == sig_rate keys * inject_Z (rightEdge - leftEdge) /\
      (0 < sig_rate keys -> m_bandwidthKHz m * 1000 < sig_rate keys).
Proof.
  cbv zeta.
  assert (H : measurements Scenario.self [-90; -40; -38; -41; -90] 20
                (signal_of Scenario.self 100 (iq_of Scenario.bufferA) 0
                   (mkBurst 1 5 0 7)) = Ok (Some _))
    by (vm_compute; reflexivity).
  eexists. split; [exact H|].
  apply (measurements_peak Scenario.self [-90; -40; -38; -41; -90] 20 _ _ H).
Defined.
